(** * Random projections on Twenty Newsgroups: a model of the notebook

    A shallow embedding of the code cells of
    [Random Projections/Aplicación de Random Projections.ipynb]:

    - cell 7, the target dimensionality [m] computed from the number of
      documents [p] and the distortion [error];
    - cells 8 to 17, the projection matrix fitted once and applied to the
      training and the test matrices;
    - cell 19, [next_batch];
    - cells 20 and 21, the two training loops and their parameters.

    NumPy scalars are float64 values.  Finite ones are modelled by the real
    number they denote, every arithmetic operation being followed by a
    rounding function [rnd] that the development takes as a parameter;
    infinities and NaN, which [np.log] and the division can produce, are
    separate constructors.  Overflow of a finite operation is not modelled.

    The libraries the notebook calls (scikit-learn's vectorizer and random
    projection, NumPy's generator, the TensorFlow session) are parameters
    of the model: nothing is assumed of them but what a theorem states as a
    hypothesis.  A training step and an evaluation of the session may
    raise, and the loop then stops where it is, with the calls it has made
    and the lines it has printed.  Timing and the prints of cells 5 to 17
    are left out. *)

From Stdlib Require Import Reals Lra Lia ZArith QArith List Permutation Bool Arith String.
Import ListNotations.

Local Open Scope R_scope.

(** ** Python values and exceptions *)

Inductive npfloat : Type :=
| Fin (x : R)
| PInf
| NInf
| NaN.

Inductive pyerr : Type :=
| OverflowError
| ValueError
| IndexError
| ZeroDivisionError
| NameError
| TypeError
| AttributeError
| InvalidArgumentError.

Inductive result (A : Type) : Type :=
| Ok (a : A)
| Raise (e : pyerr).

Arguments Ok {A} a.
Arguments Raise {A} e.

Definition bind {A B : Type} (r : result A) (k : A -> result B) : result B :=
  match r with
  | Ok a => k a
  | Raise e => Raise e
  end.

Notation "x <- r ;; k" := (bind r (fun x => k))
  (at level 61, r at next level, right associativity).

(** ** Cell 7: the dimensionality [m] *)

Module Dimension.

Section Float64.

(** Rounding to the nearest float64 of a real result. *)
Variable rnd : R -> R.

(** [np.log(p)] for a Python integer [p]: [-inf] at [0] and NaN below
    (NumPy only warns), the rounded logarithm above. *)
Definition np_log (p : Z) : npfloat :=
  match p with
  | Z0 => NInf
  | Zneg _ => NaN
  | Zpos _ => Fin (rnd (ln (IZR p)))
  end.

(** [error**2] on a Python float. *)
Definition py_pow2 (x : R) : R := rnd (x * x).

(** [a / b] for a NumPy float64 [a] and a Python float [b]: NumPy division
    never raises, a zero divisor gives an infinity or NaN. *)
Definition np_truediv (a : npfloat) (b : R) : npfloat :=
  match a with
  | Fin x =>
      if Req_dec_T b 0 then
        if Rlt_dec 0 x then PInf
        else if Rlt_dec x 0 then NInf
        else NaN
      else Fin (rnd (x / b))
  | PInf => if Rlt_dec b 0 then NInf else PInf
  | NInf => if Rlt_dec b 0 then PInf else NInf
  | NaN => NaN
  end.

(** [int(x)]: truncation toward zero; an infinity raises [OverflowError],
    NaN raises [ValueError]. *)
Definition py_int (a : npfloat) : result Z :=
  match a with
  | Fin x => Ok (if Rle_dec 0 x then Zfloor x else Zceil x)
  | PInf | NInf => Raise OverflowError
  | NaN => Raise ValueError
  end.

(** [m=int(np.log(p)/(error**2))+1] *)
Definition compute_m (error : R) (p : Z) : result Z :=
  k <- py_int (np_truediv (np_log p) (py_pow2 error)) ;;
  Ok (k + 1)%Z.

(** The literal [error=0.1]. *)
Definition error_literal : R := rnd (1 / 10).

(** The cell as it stands in the notebook. *)
Definition cell7_m (p : Z) : result Z := compute_m error_literal p.

End Float64.

(** Arithmetic without rounding error. *)
Definition exact : R -> R := fun x => x.

(** A rounding function of relative accuracy [u]: exact at zero, and within
    [u] of every number of magnitude between a thousandth and a million
    (well inside the normal range of float64, where rounding to nearest is
    accurate to [2^-53]). *)
Definition accurate (u : R) (rnd : R -> R) : Prop :=
  rnd 0 = 0 /\
  forall x, 1 / 1000 <= Rabs x <= 1000000 -> Rabs (rnd x - x) <= u * Rabs x.

End Dimension.

(** ** Arrays

    A two-dimensional array keeps its number of columns beside its rows, so
    that an array without rows still has a shape.  The scalars and their
    operations are parameters: the float64 entries of the notebook, or any
    other numbers. *)

Module Matrix.

Section Scalars.

Variable F : Type.
Variables (zero one : F) (add mul : F -> F -> F).

Record ndarray : Type := { ncols : nat; rows : list (list F) }.

Definition nrows (A : ndarray) : nat := List.length (rows A).

(** Every row has the width the shape announces. *)
Definition well_shaped (A : ndarray) : Prop :=
  Forall (fun r => List.length r = ncols A) (rows A).

(** The sum of products of two vectors. *)
Definition inner (u v : list F) : F :=
  fold_left add (map (fun ab => mul (fst ab) (snd ab)) (combine u v)) zero.

Definition column (j : nat) (A : ndarray) : list F :=
  map (fun r => nth j r zero) (rows A).

(** [A.T] *)
Definition transpose (A : ndarray) : ndarray :=
  {| ncols := nrows A;
     rows := map (fun j => column j A) (seq 0 (ncols A)) |}.

(** [np.dot(A, B)]: the matrix product, [ValueError] when the inner
    dimensions differ. *)
Definition dot (A B : ndarray) : result ndarray :=
  if Nat.eqb (ncols A) (nrows B) then
    Ok {| ncols := ncols B;
          rows := map (fun r => map (fun j => inner r (column j B))
                                    (seq 0 (ncols B)))
                      (rows A) |}
  else Raise ValueError.

(** The [j]-th column as an array of one column. *)
Definition column_array (j : nat) (A : ndarray) : ndarray :=
  {| ncols := 1; rows := map (fun x => [x]) (column j A) |}.

(** A document of [n] terms with a one at term [j] and zeros elsewhere. *)
Definition one_hot_row (n j : nat) : list F :=
  map (fun k => if Nat.eqb k j then one else zero) (seq 0 n).

Definition one_hot_doc (n j : nat) : ndarray :=
  {| ncols := n; rows := [one_hot_row n j] |}.

(** Every entry multiplied by [c]. *)
Definition scale (c : F) (A : ndarray) : ndarray :=
  {| ncols := ncols A; rows := map (map (mul c)) (rows A) |}.

End Scalars.

Arguments ncols {F} _.
Arguments rows {F} _.
Arguments nrows {F} _.
Arguments well_shaped {F} _.
Arguments transpose {F} _ _.
Arguments column {F} _ _ _.
Arguments column_array {F} _ _ _.

End Matrix.

(** ** Cell 19: [next_batch] *)

Module Batch.

Section Shuffle.

(** The state of NumPy's global generator and [np.random.shuffle] on an
    index array. *)
Variable rng : Type.
Variable shuffle : rng -> list nat -> list nat * rng.

(** [l[i]] for an index [i >= 0]. *)
Definition item {A : Type} (l : list A) (i : nat) : result A :=
  match nth_error l i with
  | Some a => Ok a
  | None => Raise IndexError
  end.

(** [[l[i] for i in idx]] *)
Fixpoint gather {A : Type} (l : list A) (idx : list nat) : result (list A) :=
  match idx with
  | [] => Ok []
  | i :: rest =>
      a <- item l i ;;
      more <- gather l rest ;;
      Ok (a :: more)
  end.

(** The first three statements: [idx = np.arange(0, len(data))],
    [np.random.shuffle(idx)], [idx = idx[:num]]. *)
Definition batch_indices (num len : nat) (g : rng) : list nat * rng :=
  let (idx, g') := shuffle g (seq 0 len) in
  (firstn num idx, g').

(** [next_batch(num, data, labels)] for a number of samples [num], with the
    generator it leaves behind. *)
Definition next_batch {A B : Type} (num : nat) (data : list A) (labels : list B)
    (g : rng) : result (list A * list B) * rng :=
  let (idx, g') := batch_indices num (List.length data) g in
  (data_shuffle <- gather data idx ;;
   labels_shuffle <- gather labels idx ;;
   Ok (data_shuffle, labels_shuffle),
   g').

(** The index arrays of [count] calls made one after the other, as the
    inner loop of a training cell makes them. *)
Fixpoint successive_batches (count num len : nat) (g : rng) : list (list nat) :=
  match count with
  | O => []
  | S c =>
      let (idx, g') := batch_indices num len g in
      idx :: successive_batches c num len g'
  end.

End Shuffle.

(** A generator whose shuffle leaves the array in its order: one of the
    outcomes [np.random.shuffle] can have on every call. *)
Definition unshuffled {rng : Type} (g : rng) (l : list nat) : list nat * rng :=
  (l, g).

(** A generator whose shuffle reverses the array and counts its calls. *)
Definition reversing (g : nat) (l : list nat) : list nat * nat :=
  (rev l, S g).

End Batch.

(** ** Cells 20 and 21: the training loops *)

Module Training.

(** The parameters assigned at the top of each training cell. *)
Record hyper : Type := {
  learning_rate : Q;
  training_epochs : nat;
  batch_size : nat;
  display_step : nat;
  hidden_units : nat;
  n_input : nat;
  n_classes : nat
}.

(** [for x in range: s = body(x, s)].  A body that raises ends the loop
    and leaves the state it had reached: what was asked of the session and
    what was printed before the exception stays asked and printed.  A step
    yields that state and, when it raised, the exception. *)
Fixpoint for_each {S : Type} (body : nat -> S -> S * option pyerr)
    (range : list nat) (s : S) : S * option pyerr :=
  match range with
  | [] => (s, None)
  | x :: rest =>
      match body x s with
      | (s', None) => for_each body rest s'
      | stopped => stopped
      end
  end.

Section Session.

(** Samples, labels, the variables of the TensorFlow graph, and the float32
    scalars [sess.run] hands back (a loss may well be NaN). *)
Variables X Y net scalar : Type.

(** NumPy's generator, as in [Batch]. *)
Variable rng : Type.
Variable shuffle : rng -> list nat -> list nat * rng.

(** The TensorFlow session, a library taken as it comes:
    [sess.run(init)], [sess.run([train_op, loss_op], ...)], the loss of
    [sess.run([merged_summary_op, loss_op, acc_op], ...)] (whose summary
    goes to the TensorBoard log) and [accuracy.eval(...)].  The training
    step and the evaluation hand back arbitrary values or raise: the
    evaluation fetches every summary merged in the default graph, the
    histogram of [weights1] among them.  The initialisation and
    [accuracy.eval], which touch only the variables and the tensors of the
    cell itself, are taken to return. *)
Variable sess_init : hyper -> net.
Variable run_train : hyper -> net -> list X -> list Y -> result (net * scalar).
Variable run_eval : hyper -> net -> list X -> list Y -> result scalar.
Variable run_accuracy : hyper -> net -> list X -> list Y -> scalar.

(** [0.] and [avg_cost + c / total_batch]. *)
Variable zero_cost : scalar.
Variable accumulate : scalar -> scalar -> nat -> scalar.

(** What the session is asked to run, with the data fed. *)
Inductive call : Type :=
| RunInit
| RunTrain (epoch i : nat) (batch_x : list X) (batch_y : list Y)
| RunEval (epoch : nat) (feed_x : list X) (feed_y : list Y)
| RunAccuracy (feed_x : list X) (feed_y : list Y).

(** What the cell prints. *)
Inductive line : Type :=
| EpochLine (number : nat) (avg_cost test_cost : scalar)
| Finished
| AccuracyLine (accuracy : scalar).

Record session : Type := {
  weights : net;
  np_random : rng;
  calls : list call;
  printed : list line
}.

Variable h : hyper.
(** [M_prime.shape[0]], the training set and the test set. *)
Variable m_prime_rows : nat.
Variables (data : list X) (labels : list Y).
Variables (test_x : list X) (test_y : list Y).

(** The body of [for i in range(total_batch)]. *)
Definition train_batch (total_batch epoch i : nat) (sc : session * scalar)
    : (session * scalar) * option pyerr :=
  let (s, avg_cost) := sc in
  let (batch, g) :=
    Batch.next_batch rng shuffle (batch_size h) data labels (np_random s) in
  match batch with
  | Raise e =>
      (({| weights := weights s; np_random := g; calls := calls s;
           printed := printed s |}, avg_cost), Some e)
  | Ok xy =>
      let asked := calls s ++ [RunTrain epoch i (fst xy) (snd xy)] in
      match run_train h (weights s) (fst xy) (snd xy) with
      | Raise e =>
          (({| weights := weights s; np_random := g; calls := asked;
               printed := printed s |}, avg_cost), Some e)
      | Ok wc =>
          (({| weights := fst wc; np_random := g; calls := asked;
               printed := printed s |},
            accumulate avg_cost (snd wc) total_batch), None)
      end
  end.

(** [int(M_prime.shape[0]/batch_size)]; the float quotient of two sizes
    truncates to their integer quotient. *)
Definition total_batch_of : result nat :=
  if Nat.eqb (batch_size h) 0 then Raise ZeroDivisionError
  else Ok (m_prime_rows / batch_size h)%nat.

(** [epoch % display_step == 0] *)
Definition displayed (epoch : nat) : result bool :=
  if Nat.eqb (display_step h) 0 then Raise ZeroDivisionError
  else Ok (Nat.eqb (epoch mod display_step h) 0).

(** The evaluation on the test set and the line of the epoch. *)
Definition evaluate (epoch : nat) (s : session) (avg_cost : scalar)
    : session * option pyerr :=
  let asked := calls s ++ [RunEval epoch test_x test_y] in
  match run_eval h (weights s) test_x test_y with
  | Raise e =>
      ({| weights := weights s; np_random := np_random s; calls := asked;
          printed := printed s |}, Some e)
  | Ok test_cost =>
      ({| weights := weights s; np_random := np_random s; calls := asked;
          printed := printed s ++ [EpochLine (epoch + 1) avg_cost test_cost] |},
       None)
  end.

(** The body of [for epoch in range(training_epochs)]. *)
Definition run_epoch (epoch : nat) (s : session) : session * option pyerr :=
  match total_batch_of with
  | Raise e => (s, Some e)
  | Ok total_batch =>
      match for_each (train_batch total_batch epoch) (seq 0 total_batch)
              (s, zero_cost) with
      | (sc, Some e) => (fst sc, Some e)
      | (sc, None) =>
          match displayed epoch with
          | Raise e => (fst sc, Some e)
          | Ok true => evaluate epoch (fst sc) (snd sc)
          | Ok false => (fst sc, None)
          end
      end
  end.

(** The [with tf.Session() as sess:] block: the state it ends in, and the
    exception that ended it if one did. *)
Definition trace (g : rng) : session * option pyerr :=
  let s0 := {| weights := sess_init h; np_random := g;
               calls := [RunInit]; printed := [] |} in
  match for_each run_epoch (seq 0 (training_epochs h)) s0 with
  | (s, Some e) => (s, Some e)
  | (s, None) =>
      let acc := run_accuracy h (weights s) test_x test_y in
      ({| weights := weights s;
          np_random := np_random s;
          calls := calls s ++ [RunAccuracy test_x test_y];
          printed := printed s ++ [Finished; AccuracyLine acc] |}, None)
  end.

(** The block as a cell sees it: it returns or it raises. *)
Definition train (g : rng) : result session :=
  match trace g with
  | (s, None) => Ok s
  | (_, Some e) => Raise e
  end.

(** A call without the batch it fed, and the number an epoch line shows. *)
Definition forget_batch (c : call) : call :=
  match c with
  | RunTrain epoch i _ _ => RunTrain epoch i [] []
  | _ => c
  end.

Definition line_number (l : line) : option nat :=
  match l with
  | EpochLine number _ _ => Some number
  | _ => None
  end.

(** The calls of one full epoch of [total] batches, batches forgotten:
    every training step, then the evaluation on the test set. *)
Definition epoch_calls (total epoch : nat) : list call :=
  map (fun i => RunTrain epoch i [] []) (seq 0 total)
  ++ [RunEval epoch test_x test_y].

End Session.

Arguments RunInit {X Y}.
Arguments RunTrain {X Y} _ _ _ _.
Arguments RunEval {X Y} _ _ _.
Arguments RunAccuracy {X Y} _ _.
Arguments EpochLine {scalar} _ _ _.
Arguments Finished {scalar}.
Arguments AccuracyLine {scalar} _.
Arguments weights {X Y net scalar rng} _.
Arguments np_random {X Y net scalar rng} _.
Arguments calls {X Y net scalar rng} _.
Arguments printed {X Y net scalar rng} _.
Arguments forget_batch {X Y} _.
Arguments line_number {scalar} _.

(** The assignments of cell 20 (reduced vectors) and of cell 21 (TF-IDF
    vectors); [n_input] is the width of the training matrix. *)
Definition cell20_hyper (width : nat) : hyper :=
  {| learning_rate := 1 # 100; training_epochs := 12; batch_size := 256;
     display_step := 1; hidden_units := 30; n_input := width;
     n_classes := 20 |}.

Definition cell21_hyper (width : nat) : hyper :=
  {| learning_rate := 1 # 100; training_epochs := 12; batch_size := 256;
     display_step := 1; hidden_units := 5; n_input := width;
     n_classes := 20 |}.

End Training.

(** ** The notebook, cell by cell *)

Module Notebook.

Import Matrix.
Local Open Scope string_scope.

Section Libraries.

(** Scalars of the arrays. *)
Variable F : Type.
Variables (zero one : F) (add mul : F -> F -> F).

(** float64 rounding. *)
Variable rnd : R -> R.

(** scikit-learn's vectorizer: [fit_transform] on the training articles,
    [transform] on later ones. *)
Variables corpus vectorizer : Type.
Variable fit_transform : corpus -> result (vectorizer * ndarray F).
Variable transform : vectorizer -> corpus -> result (ndarray F).

(** NumPy's global generator and [np.random.shuffle]. *)
Variable rng : Type.
Variable shuffle : rng -> list nat -> list nat * rng.

(** scikit-learn's [SparseRandomProjection(n_components, density).fit(X)]:
    the matrix it draws from the global generator, or its exception. *)
Variable srp_fit : Z -> npfloat -> ndarray F -> rng -> result (ndarray F) * rng.

(** [z = np.zeros((rows, 20)); z[np.arange(rows), labels] = 1] *)
Variable one_hot_labels : nat -> list Z -> result (ndarray F).

(** The TensorFlow session of [Training]. *)
Variables net scalar : Type.
Variable sess_init : Training.hyper -> net.
Variable run_train :
  Training.hyper -> net -> list (list F) -> list (list F) -> result (net * scalar).
Variable run_eval :
  Training.hyper -> net -> list (list F) -> list (list F) -> result scalar.
Variable run_accuracy :
  Training.hyper -> net -> list (list F) -> list (list F) -> scalar.
Variable zero_cost : scalar.
Variable accumulate : scalar -> scalar -> nat -> scalar.

(** The fitted projection object [rp]. *)
Record projection : Type := {
  n_components : Z;
  density : npfloat;
  components_ : option (ndarray F)
}.

(** The values bound to the notebook's global names. *)
Inductive value : Type :=
| VInt (z : Z)
| VFloat (x : npfloat)
| VArray (a : ndarray F)
| VLabels (l : list Z)
| VCorpus (c : corpus)
| VVectorizer (v : vectorizer)
| VProjection (o : projection).

Definition namespace : Type := string -> option value.

Definition assign (x : string) (v : value) (env : namespace) : namespace :=
  fun y => if String.eqb x y then Some v else env y.

(** The kernel: the global names, NumPy's generator, every matrix a call of
    [rp.fit] has drawn so far (oldest first), and the lines the training
    cells have printed. *)
Record notebook : Type := {
  globals : namespace;
  np_random : rng;
  drawn : list (ndarray F);
  printed : list (Training.line scalar)
}.

Definition bind_name (x : string) (v : value) (st : notebook) : notebook :=
  {| globals := assign x v (globals st);
     np_random := np_random st;
     drawn := drawn st;
     printed := printed st |}.

Definition lookup {A : Type} (pick : value -> option A) (x : string)
    (st : notebook) : result A :=
  match globals st x with
  | None => Raise NameError
  | Some v => match pick v with
              | Some a => Ok a
              | None => Raise TypeError
              end
  end.

Definition as_int (v : value) : option Z :=
  match v with VInt z => Some z | _ => None end.
Definition as_array (v : value) : option (ndarray F) :=
  match v with VArray a => Some a | _ => None end.
Definition as_labels (v : value) : option (list Z) :=
  match v with VLabels l => Some l | _ => None end.
Definition as_corpus (v : value) : option corpus :=
  match v with VCorpus c => Some c | _ => None end.
Definition as_vectorizer (v : value) : option vectorizer :=
  match v with VVectorizer t => Some t | _ => None end.
Definition as_projection (v : value) : option projection :=
  match v with VProjection o => Some o | _ => None end.

(** The four pickled files. *)
Record files : Type := {
  art_filt : corpus;
  art_filt_labels : list Z;
  art_filt_test : corpus;
  art_filt_test_labels : list Z
}.

Variable disk : files.

Definition start (g : rng) : notebook :=
  {| globals := fun _ => None; np_random := g; drawn := []; printed := [] |}.

Definition cell4 (st : notebook) : result notebook :=
  Ok (bind_name "labels" (VLabels (art_filt_labels disk))
       (bind_name "articulos" (VCorpus (art_filt disk)) st)).

Definition cell5 (st : notebook) : result notebook :=
  articulos <- lookup as_corpus "articulos" st ;;
  fitted <- fit_transform articulos ;;
  let tfidf := snd fitted in
  Ok (bind_name "n" (VInt (Z.of_nat (ncols tfidf)))
       (bind_name "p" (VInt (Z.of_nat (nrows tfidf)))
         (bind_name "tfidf" (VArray tfidf)
           (bind_name "tfidf_vectorizer" (VVectorizer (fst fitted)) st)))).

Definition cell7 (st : notebook) : result notebook :=
  let st1 := bind_name "error" (VFloat (Fin (Dimension.error_literal rnd))) st in
  p <- lookup as_int "p" st1 ;;
  m <- Dimension.cell7_m rnd p ;;
  Ok (bind_name "m" (VInt m) st1).

(** What [m] is bound to once cell 7 has run. *)
Definition m_after_cell7 (st : notebook) : result Z :=
  st' <- cell7 st ;;
  lookup as_int "m" st'.

(** [np.sqrt(n)] and [1/x] on NumPy scalars. *)
Definition np_sqrt (n : Z) : npfloat :=
  match n with
  | Zneg _ => NaN
  | _ => Fin (rnd (sqrt (IZR n)))
  end.

Definition np_reciprocal (x : npfloat) : npfloat :=
  match x with
  | Fin y => Dimension.np_truediv rnd (Fin 1) y
  | PInf | NInf => Fin 0
  | NaN => NaN
  end.

Definition cell8 (st : notebook) : result notebook :=
  n <- lookup as_int "n" st ;;
  let d := np_reciprocal (np_sqrt n) in
  let st1 := bind_name "density" (VFloat d) st in
  m <- lookup as_int "m" st1 ;;
  let rp := {| n_components := m; density := d; components_ := None |} in
  let st2 := bind_name "rp" (VProjection rp) st1 in
  tfidf <- lookup as_array "tfidf" st2 ;;
  let (fitted, g) := srp_fit m d tfidf (np_random st2) in
  R <- fitted ;;
  Ok {| globals := assign "rp"
                     (VProjection {| n_components := m; density := d;
                                     components_ := Some R |})
                     (globals st2);
        np_random := g;
        drawn := drawn st2 ++ [R];
        printed := printed st2 |}.

(** [rp.components_] *)
Definition rp_components (st : notebook) : result (ndarray F) :=
  rp <- lookup as_projection "rp" st ;;
  match components_ rp with
  | Some R => Ok R
  | None => Raise AttributeError
  end.

(** [np.dot(rp.components_, X.T)] *)
Definition project (X : ndarray F) (st : notebook) : result (ndarray F) :=
  R <- rp_components st ;;
  dot F zero add mul R (transpose zero X).

(** Cells 9 and 10 only display [tfidf] and [rp.components_.shape]. *)
Definition cell9 (st : notebook) : result notebook :=
  _ <- lookup as_array "tfidf" st ;;
  Ok st.

Definition cell10 (st : notebook) : result notebook :=
  _ <- rp_components st ;;
  Ok st.

Definition cell11 (st : notebook) : result notebook :=
  tfidf <- lookup as_array "tfidf" st ;;
  M_prime <- project tfidf st ;;
  Ok (bind_name "M_prime" (VArray M_prime) st).

Definition cell12 (st : notebook) : result notebook :=
  M_prime <- lookup as_array "M_prime" st ;;
  Ok (bind_name "M_prime" (VArray (transpose zero M_prime)) st).

(** [np.linalg.norm(M_prime[3].toarray())]: the fourth row must exist. *)
Definition cell13 (st : notebook) : result notebook :=
  M_prime <- lookup as_array "M_prime" st ;;
  _ <- Batch.item (rows M_prime) 3 ;;
  Ok st.

Definition cell14 (st : notebook) : result notebook :=
  M_prime <- lookup as_array "M_prime" st ;;
  labels <- lookup as_labels "labels" st ;;
  labels_oh <- one_hot_labels (nrows M_prime) labels ;;
  Ok (bind_name "labels_oh" (VArray labels_oh) st).

(** [M_prime=M_prime.toarray()]: the same entries, stored densely. *)
Definition cell15 (st : notebook) : result notebook :=
  M_prime <- lookup as_array "M_prime" st ;;
  Ok (bind_name "M_prime" (VArray M_prime) st).

Definition cell16 (st : notebook) : result notebook :=
  let st1 := bind_name "labels_test" (VLabels (art_filt_test_labels disk))
               (bind_name "articulos_test" (VCorpus (art_filt_test disk)) st) in
  tfidf_vectorizer <- lookup as_vectorizer "tfidf_vectorizer" st1 ;;
  articulos_test <- lookup as_corpus "articulos_test" st1 ;;
  tfidf_test <- transform tfidf_vectorizer articulos_test ;;
  Ok (bind_name "n" (VInt (Z.of_nat (ncols tfidf_test)))
       (bind_name "p" (VInt (Z.of_nat (nrows tfidf_test)))
         (bind_name "tfidf_test" (VArray tfidf_test) st1))).

(** The product, its transpose, and the norm of [M_prime_test[3]]. *)
Definition cell17 (st : notebook) : result notebook :=
  tfidf_test <- lookup as_array "tfidf_test" st ;;
  M_prime_test <- project tfidf_test st ;;
  _ <- Batch.item (rows (transpose zero M_prime_test)) 3 ;;
  Ok (bind_name "M_prime_test" (VArray (transpose zero M_prime_test)) st).

Definition cell18 (st : notebook) : result notebook :=
  M_prime_test <- lookup as_array "M_prime_test" st ;;
  labels_test <- lookup as_labels "labels_test" st ;;
  labels_test_oh <- one_hot_labels (nrows M_prime_test) labels_test ;;
  Ok (bind_name "labels_test_oh" (VArray labels_test_oh) st).

(** Besides defining [next_batch], cell 19 makes both TF-IDF matrices
    dense. *)
Definition cell19 (st : notebook) : result notebook :=
  tfidf <- lookup as_array "tfidf" st ;;
  let st1 := bind_name "tfidf" (VArray tfidf) st in
  tfidf_test <- lookup as_array "tfidf_test" st1 ;;
  Ok (bind_name "tfidf_test" (VArray tfidf_test) st1).

(** A training cell: the parameters [make_hyper] builds from the width of
    the training matrix named [train], evaluated on the matrix named
    [test]. *)
Definition training_cell (make_hyper : nat -> Training.hyper)
    (train test : string) (st : notebook) : result notebook :=
  X_train <- lookup as_array train st ;;
  let h := make_hyper (ncols X_train) in
  M_prime <- lookup as_array "M_prime" st ;;
  labels_oh <- lookup as_array "labels_oh" st ;;
  X_test <- lookup as_array test st ;;
  labels_test_oh <- lookup as_array "labels_test_oh" st ;;
  s <- Training.train (list F) (list F) net scalar rng shuffle
         sess_init run_train run_eval run_accuracy zero_cost accumulate
         h (nrows M_prime) (rows X_train) (rows labels_oh)
         (rows X_test) (rows labels_test_oh) (np_random st) ;;
  Ok {| globals := globals st;
        np_random := Training.np_random s;
        drawn := drawn st;
        printed := printed st ++ Training.printed s |}.

Definition cell20 : notebook -> result notebook :=
  training_cell Training.cell20_hyper "M_prime" "M_prime_test".

Definition cell21 : notebook -> result notebook :=
  training_cell Training.cell21_hyper "tfidf" "tfidf_test".

(** Cells run one after the other, top to bottom. *)
Fixpoint run_cells (cells : list (notebook -> result notebook))
    (st : notebook) : result notebook :=
  match cells with
  | [] => Ok st
  | c :: rest => st' <- c st ;; run_cells rest st'
  end.

Definition all_cells : list (notebook -> result notebook) :=
  [cell4; cell5; cell7; cell8; cell9; cell10; cell11; cell12; cell13; cell14;
   cell15; cell16; cell17; cell18; cell19; cell20; cell21].

(** The cells from the loading of the training files to the projection of
    the test set. *)
Definition cells_to_projection : list (notebook -> result notebook) :=
  [cell4; cell5; cell7; cell8; cell9; cell10; cell11; cell12; cell13; cell14;
   cell15; cell16; cell17].

(** The cells that come after the fit of cell 8. *)
Definition cells_after_fit : list (notebook -> result notebook) :=
  [cell9; cell10; cell11; cell12; cell13; cell14; cell15; cell16; cell17;
   cell18; cell19; cell20; cell21].

End Libraries.

End Notebook.

(** ** Cells 14 and 18: one-hot labels *)

Module OneHot.

Import Matrix.

(** [l] with [f] applied to its entry at [k], unchanged when there is
    none. *)
Fixpoint update {A : Type} (k : nat) (f : A -> A) (l : list A) : list A :=
  match l, k with
  | [], _ => []
  | x :: rest, O => f x :: rest
  | x :: rest, S k' => x :: update k' f rest
  end.

(** The pairs of indices that [z[np.arange(count), labels]] addresses: the
    two index arrays are broadcast against each other, which needs equal
    lengths or one of them of length one. *)
Definition index_pairs (count : nat) (labels : list Z)
    : result (list (nat * Z)) :=
  if Nat.eqb (List.length labels) count then Ok (combine (seq 0 count) labels)
  else if Nat.eqb (List.length labels) 1 then
    Ok (map (fun i => (i, hd 0%Z labels)) (seq 0 count))
  else if Nat.eqb count 1 then Ok (map (fun l => (0%nat, l)) labels)
  else Raise IndexError.

(** An index [c] on an axis of [size] entries: a negative one counts from
    the end, one outside [-size, size) raises [IndexError]. *)
Definition axis_index (size : nat) (c : Z) : result nat :=
  if ((0 <=? c) && (c <? Z.of_nat size))%Z then Ok (Z.to_nat c)
  else if ((- Z.of_nat size <=? c) && (c <? 0))%Z then
    Ok (Z.to_nat (c + Z.of_nat size))
  else Raise IndexError.

(** The column indices are all checked before anything is written. *)
Fixpoint resolve (size : nat) (pairs : list (nat * Z))
    : result (list (nat * nat)) :=
  match pairs with
  | [] => Ok []
  | (i, c) :: rest =>
      j <- axis_index size c ;;
      more <- resolve size rest ;;
      Ok ((i, j) :: more)
  end.

Section Scalars.

Variable F : Type.
Variables (zero one : F).

(** [np.zeros((count, width))] *)
Definition zeros (count width : nat) : ndarray F :=
  {| ncols := width; rows := repeat (repeat zero width) count |}.

(** [z[i, j] = v] *)
Definition put (i j : nat) (v : F) (rs : list (list F)) : list (list F) :=
  update i (update j (fun _ => v)) rs.

(** [z = np.zeros((count, 20)); z[np.arange(count), labels] = 1] *)
Definition np_one_hot (count : nat) (labels : list Z) : result (ndarray F) :=
  pairs <- index_pairs count labels ;;
  cells <- resolve 20 pairs ;;
  Ok {| ncols := 20;
        rows := fold_left (fun rs ij => put (fst ij) (snd ij) one rs) cells
                  (rows (zeros count 20)) |}.

End Scalars.

End OneHot.

(** ** One document through the projection *)

Module Project.

Import Matrix.

Section Scalars.

Variable F : Type.
Variables (zero : F) (add mul : F -> F -> F).

(** The projection of one document: its inner product with every row of
    the projection matrix. *)
Definition project_row (A : ndarray F) (x : list F) : list F :=
  map (fun r => inner F zero add mul r x) (rows A).

End Scalars.

End Project.

(** ** A toy instance of the libraries

    Integer entries, exact arithmetic, documents given by their two term
    weights, a projection onto the sum of the terms, a session that counts
    its steps.  It serves to run the model on concrete inputs. *)

Module Toy.

Import Matrix.

Definition corpus : Type := list (list Z).

Definition fit_transform (c : corpus) : result (unit * ndarray Z) :=
  Ok (tt, {| ncols := 2; rows := c |}).

Definition transform (_ : unit) (c : corpus) : result (ndarray Z) :=
  Ok {| ncols := 2; rows := c |}.

Definition srp_fit (_ : Z) (_ : npfloat) (X : ndarray Z) (g : nat)
    : result (ndarray Z) * nat :=
  (Ok {| ncols := ncols X; rows := [repeat 1%Z (ncols X)] |}, S g).

Definition one_hot_labels (_ : nat) (labels : list Z) : result (ndarray Z) :=
  Ok {| ncols := 20;
        rows := map (fun c => one_hot_row Z 0%Z 1%Z 20 (Z.to_nat c)) labels |}.

Definition sess_init (_ : Training.hyper) : nat := 0%nat.

Definition run_train (_ : Training.hyper) (w : nat) (batch_x batch_y : list (list Z))
    : result (nat * nat) :=
  Ok (S w, List.length batch_x).

Definition run_eval (_ : Training.hyper) (w : nat) (_ _ : list (list Z))
    : result nat := Ok w.

Definition run_accuracy (_ : Training.hyper) (w : nat) (_ _ : list (list Z))
    : nat := w.

Definition accumulate (avg_cost c total_batch : nat) : nat :=
  (avg_cost + c / total_batch)%nat.

Definition disk : Notebook.files corpus :=
  {| Notebook.art_filt := [[1; 0]; [0; 1]; [1; 1]; [2; 1]]%Z;
     Notebook.art_filt_labels := [0; 1; 0; 1]%Z;
     Notebook.art_filt_test := [[1; 1]; [0; 2]; [3; 0]; [1; 2]]%Z;
     Notebook.art_filt_test_labels := [0; 1; 1; 0]%Z |}.

(** The whole notebook on the toy libraries. *)
Definition cells :=
  Notebook.all_cells Z 0%Z Z.add Z.mul Dimension.exact corpus unit
    fit_transform transform nat Batch.reversing srp_fit one_hot_labels
    nat nat sess_init run_train run_eval run_accuracy 0%nat accumulate disk.

(** Its cells up to the projection of the test set. *)
Definition cells_to_projection :=
  Notebook.cells_to_projection Z 0%Z Z.add Z.mul Dimension.exact corpus unit
    fit_transform transform nat srp_fit one_hot_labels nat disk.

Definition state : Type := Notebook.notebook Z corpus unit nat nat.

Definition fresh : state := Notebook.start Z corpus unit nat nat 0%nat.

(** A kernel in which a single document and a single term are bound. *)
Definition single_document : state :=
  Notebook.bind_name Z corpus unit nat nat "n" (Notebook.VInt Z corpus unit 1)
    (Notebook.bind_name Z corpus unit nat nat "p" (Notebook.VInt Z corpus unit 1)
       fresh).

(** A kernel in which three documents and a single term are bound. *)
Definition single_term : state :=
  Notebook.bind_name Z corpus unit nat nat "n" (Notebook.VInt Z corpus unit 1)
    (Notebook.bind_name Z corpus unit nat nat "p" (Notebook.VInt Z corpus unit 3)
       fresh).

End Toy.

(** ** Training parameters to run the loop on *)

Module ToyLoop.

(** The parameters of cell 20 with another number of epochs, batch size
    and display step. *)
Definition hyper_with (epochs batch step : nat) : Training.hyper :=
  {| Training.learning_rate := 1 # 100; Training.training_epochs := epochs;
     Training.batch_size := batch; Training.display_step := step;
     Training.hidden_units := 30; Training.n_input := 2;
     Training.n_classes := 20 |}.

(** Four documents of two terms and their one-hot labels. *)
Definition samples : list (list Z) := [[1; 0]; [0; 1]; [1; 1]; [2; 1]]%Z.
Definition targets : list (list Z) := [[1; 0]; [0; 1]; [1; 0]; [0; 1]]%Z.

(** The training block on the toy session. *)
Definition train (h : Training.hyper) (data labels : list (list Z))
    : result (Training.session (list Z) (list Z) nat nat nat) :=
  Training.train (list Z) (list Z) nat nat nat Batch.reversing Toy.sess_init
    Toy.run_train Toy.run_eval Toy.run_accuracy 0%nat Toy.accumulate h
    (List.length data) data labels samples targets 0%nat.

Definition trace (h : Training.hyper) (data labels : list (list Z))
    : Training.session (list Z) (list Z) nat nat nat * option pyerr :=
  Training.trace (list Z) (list Z) nat nat nat Batch.reversing Toy.sess_init
    Toy.run_train Toy.run_eval Toy.run_accuracy 0%nat Toy.accumulate h
    (List.length data) data labels samples targets 0%nat.

(** A session whose evaluation raises, as the fetch of the merged
    summaries does on a histogram that holds a NaN. *)
Definition failing_eval (_ : Training.hyper) (_ : nat) (_ _ : list (list Z))
    : result nat := Raise InvalidArgumentError.

(** The training block on that session. *)
Definition trace_failing (h : Training.hyper) (data labels : list (list Z))
    : Training.session (list Z) (list Z) nat nat nat * option pyerr :=
  Training.trace (list Z) (list Z) nat nat nat Batch.reversing Toy.sess_init
    Toy.run_train failing_eval Toy.run_accuracy 0%nat Toy.accumulate h
    (List.length data) data labels samples targets 0%nat.

End ToyLoop.

(** ** Fixed-point lower bounds of the exponential

    Used to locate [ln 11314]: [exp x >= (1 + x / 2^k)^(2^k)], the power
    being computed by [k] squarings on integers scaled by [fp_one], each
    rounded down. *)

Module ExpBound.

Definition fp_one : Z := (10 ^ 40)%Z.

(** One squaring, rounded down. *)
Definition fp_sq (a : Z) : Z := (a * a / fp_one)%Z.

(** [1 + (num/den) / 2^k], rounded down. *)
Definition fp_start (num den : Z) (k : nat) : Z :=
  (fp_one + num * fp_one / (den * 2 ^ Z.of_nat k))%Z.

(** A lower bound of [fp_one * exp (num/den)]. *)
Definition fp_exp_lower (num den : Z) (k : nat) : Z :=
  Nat.iter k fp_sq (fp_start num den k).

End ExpBound.

(** * Properties *)

Module ExpBoundFacts.
Import ExpBound.

Lemma fp_one_pos : 0 < IZR fp_one.
Proof. apply IZR_lt. reflexivity. Qed.

Lemma fp_sq_nonneg (a : Z) : (0 <= a)%Z -> (0 <= fp_sq a)%Z.
Proof.
  intros Ha. unfold fp_sq. apply Z.div_pos; [nia | reflexivity].
Qed.

Lemma fp_sq_below (a : Z) :
  IZR (fp_sq a) / IZR fp_one <= (IZR a / IZR fp_one) * (IZR a / IZR fp_one).
Proof.
  pose proof fp_one_pos as Hs.
  assert (H : (fp_sq a * fp_one <= a * a)%Z).
  { unfold fp_sq. rewrite Z.mul_comm. apply Z.mul_div_le. reflexivity. }
  apply IZR_le in H. rewrite !mult_IZR in H.
  apply Rmult_le_reg_r with (IZR fp_one * IZR fp_one); [nra|].
  replace (IZR (fp_sq a) / IZR fp_one * (IZR fp_one * IZR fp_one))
    with (IZR (fp_sq a) * IZR fp_one) by (field; lra).
  replace (IZR a / IZR fp_one * (IZR a / IZR fp_one) * (IZR fp_one * IZR fp_one))
    with (IZR a * IZR a) by (field; lra).
  exact H.
Qed.

Lemma iter_sq_below (k : nat) : forall (a : Z) (y : R),
  (0 <= a)%Z -> IZR a / IZR fp_one <= y ->
  IZR (Nat.iter k fp_sq a) / IZR fp_one <= y ^ (2 ^ k).
Proof.
  pose proof fp_one_pos as Hs.
  induction k as [|k IH]; intros a y Ha Hy.
  - simpl. lra.
  - rewrite Nat.iter_succ_r.
    replace (y ^ (2 ^ S k)) with ((y * y) ^ (2 ^ k)).
    + apply IH; [now apply fp_sq_nonneg|].
      eapply Rle_trans; [apply fp_sq_below|].
      assert (0 <= IZR a / IZR fp_one).
      { apply Rmult_le_pos; [now apply IZR_le|]. left. now apply Rinv_0_lt_compat. }
      nra.
    + rewrite Rpow_mult_distr, <- pow_add. f_equal. simpl. lia.
Qed.

Lemma exp_pow (y : R) (n : nat) : exp (INR n * y) = exp y ^ n.
Proof.
  induction n as [|n IH].
  - simpl. rewrite Rmult_0_l. apply exp_0.
  - rewrite S_INR, Rmult_plus_distr_r, Rmult_1_l, exp_plus, IH. simpl. ring.
Qed.

Lemma exp_ge_pow (x : R) (k : nat) :
  0 <= 1 + x / 2 ^ k -> (1 + x / 2 ^ k) ^ (2 ^ k) <= exp x.
Proof.
  intros H0.
  assert (Hp : 0 < 2 ^ k) by (apply pow_lt; lra).
  replace (exp x) with (exp (x / 2 ^ k) ^ (2 ^ k)).
  - apply pow_incr. split; [exact H0 | apply exp_ineq1_le].
  - rewrite <- exp_pow. f_equal. rewrite pow_INR. simpl INR.
    replace (1 + 1) with 2 by ring. field. lra.
Qed.

Lemma fp_start_below (num den : Z) (k : nat) :
  (0 < den)%Z ->
  IZR (fp_start num den k) / IZR fp_one <= 1 + (IZR num / IZR den) / 2 ^ k.
Proof.
  intros Hden. pose proof fp_one_pos as Hs.
  assert (Hp : 0 < 2 ^ k) by (apply pow_lt; lra).
  assert (Hd : 0 < IZR den) by now apply IZR_lt.
  set (d := (den * 2 ^ Z.of_nat k)%Z).
  assert (Hdpos : (0 < d)%Z) by (unfold d; apply Z.mul_pos_pos; [lia | apply Z.pow_pos_nonneg; lia]).
  assert (HdR : IZR d = IZR den * 2 ^ k).
  { unfold d. rewrite mult_IZR. f_equal.
    symmetry. apply (pow_IZR 2 k). }
  assert (H : (d * (num * fp_one / d) <= num * fp_one)%Z) by (apply Z.mul_div_le; lia).
  apply IZR_le in H. rewrite !mult_IZR, HdR in H.
  unfold fp_start. fold d. rewrite plus_IZR.
  set (q := IZR (num * fp_one / d)) in *.
  apply Rmult_le_reg_r with (IZR fp_one * (IZR den * 2 ^ k)).
  { apply Rmult_lt_0_compat; [lra | now apply Rmult_lt_0_compat]. }
  replace ((IZR fp_one + q) / IZR fp_one * (IZR fp_one * (IZR den * 2 ^ k)))
    with (IZR fp_one * (IZR den * 2 ^ k) + IZR den * 2 ^ k * q) by (field; lra).
  replace ((1 + IZR num / IZR den / 2 ^ k) * (IZR fp_one * (IZR den * 2 ^ k)))
    with (IZR fp_one * (IZR den * 2 ^ k) + IZR num * IZR fp_one) by (field; lra).
  lra.
Qed.

(** The fixed-point value is a lower bound of the exponential. *)
Lemma fp_exp_lower_ok (num den : Z) (k : nat) :
  (0 < den)%Z -> (0 <= fp_start num den k)%Z ->
  IZR (fp_exp_lower num den k) / IZR fp_one <= exp (IZR num / IZR den).
Proof.
  intros Hden Hst. pose proof fp_one_pos as Hs.
  pose proof (fp_start_below num den k Hden) as Hb.
  eapply Rle_trans; [apply iter_sq_below; eassumption|].
  apply exp_ge_pow.
  eapply Rle_trans; [|exact Hb].
  apply Rmult_le_pos; [now apply IZR_le | left; now apply Rinv_0_lt_compat].
Qed.

(** Bounds of a logarithm from two fixed-point evaluations. *)
Lemma ln_lower_of_fp (N num den : Z) (k : nat) :
  (0 < N)%Z -> (0 < den)%Z ->
  (0 <=? fp_start (- num) den k)%Z = true ->
  (fp_one <=? N * fp_exp_lower (- num) den k)%Z = true ->
  IZR num / IZR den <= ln (IZR N).
Proof.
  intros HN Hden Hst Hc. pose proof fp_one_pos as Hs.
  apply Z.leb_le in Hst. apply Z.leb_le in Hc.
  pose proof (fp_exp_lower_ok (- num) den k Hden Hst) as H.
  revert Hc H Hs. generalize (fp_exp_lower (- num) den k) fp_one.
  intros b S Hc H Hs.
  apply IZR_le in Hc. rewrite mult_IZR in Hc.
  apply IZR_lt in HN. apply IZR_lt in Hden.
  destruct (Rle_lt_dec (IZR num / IZR den) (ln (IZR N))) as [Hle|Hlt]; [exact Hle|exfalso].
  assert (He : exp (IZR (- num) / IZR den) < exp (- ln (IZR N))).
  { apply exp_increasing. rewrite opp_IZR. unfold Rdiv in *.
    rewrite <- Ropp_mult_distr_l. lra. }
  rewrite exp_Ropp, exp_ln in He by lra.
  assert (Hm : IZR b / IZR S < / IZR N) by lra.
  apply (Rmult_lt_compat_r (IZR N * IZR S)) in Hm; [|now apply Rmult_lt_0_compat].
  replace (IZR b / IZR S * (IZR N * IZR S)) with (IZR N * IZR b) in Hm by (field; lra).
  replace (/ IZR N * (IZR N * IZR S)) with (IZR S) in Hm by (field; lra).
  lra.
Qed.

Lemma ln_upper_of_fp (N num den : Z) (k : nat) :
  (0 < N)%Z -> (0 < den)%Z ->
  (0 <=? fp_start num den k)%Z = true ->
  (N * fp_one <=? fp_exp_lower num den k)%Z = true ->
  ln (IZR N) <= IZR num / IZR den.
Proof.
  intros HN Hden Hst Hc. pose proof fp_one_pos as Hs.
  apply Z.leb_le in Hst. apply Z.leb_le in Hc.
  pose proof (fp_exp_lower_ok num den k Hden Hst) as H.
  revert Hc H Hs. generalize (fp_exp_lower num den k) fp_one.
  intros b S Hc H Hs.
  apply IZR_le in Hc. rewrite mult_IZR in Hc.
  apply IZR_lt in HN.
  destruct (Rle_lt_dec (ln (IZR N)) (IZR num / IZR den)) as [Hle|Hlt]; [exact Hle|exfalso].
  assert (He : exp (IZR num / IZR den) < exp (ln (IZR N))) by now apply exp_increasing.
  rewrite exp_ln in He by lra.
  assert (Hm : IZR N <= IZR b / IZR S).
  { apply Rmult_le_reg_r with (IZR S); [lra|].
    replace (IZR b / IZR S * IZR S) with (IZR b) by (field; lra). lra. }
  lra.
Qed.

(** [9.3337 <= ln 11314 <= 9.3339] *)
Lemma ln_11314_bounds : 93337 / 10000 <= ln 11314 <= 93339 / 10000.
Proof.
  split.
  - apply (ln_lower_of_fp 11314 93337 10000 30); vm_compute; reflexivity.
  - apply (ln_upper_of_fp 11314 93339 10000 30); vm_compute; reflexivity.
Qed.

(** [1.09 <= ln 3 <= 1.0987] *)
Lemma ln_3_bounds : 109 / 100 <= ln 3 <= 10987 / 10000.
Proof.
  split.
  - apply (ln_lower_of_fp 3 109 100 30); vm_compute; reflexivity.
  - apply (ln_upper_of_fp 3 10987 10000 30); vm_compute; reflexivity.
Qed.

End ExpBoundFacts.

Module DimensionFacts.
Import Dimension.

Lemma exact_accurate (u : R) : 0 <= u -> accurate u exact.
Proof.
  intros Hu. split; [reflexivity|]. intros x _.
  unfold exact. rewrite Rminus_diag, Rabs_R0.
  apply Rmult_le_pos; [exact Hu | apply Rabs_pos].
Qed.

Lemma accurate_0 (u : R) (rnd : R -> R) : accurate u rnd -> rnd 0 = 0.
Proof. intros [H _]. exact H. Qed.

Lemma Rabs_le_between (a b : R) : Rabs a <= b -> - b <= a <= b.
Proof. unfold Rabs. destruct (Rcase_abs a); lra. Qed.

(** A rounded value stays in the interval of its argument, widened by [u]. *)
Lemma accurate_between (u : R) (rnd : R -> R) (lo hi x : R) :
  accurate u rnd -> 0 <= u <= 1 -> 1 / 1000 <= lo -> hi <= 1000000 ->
  lo <= x <= hi ->
  lo * (1 - u) <= rnd x <= hi * (1 + u).
Proof.
  intros [_ H] Hu Hlo Hhi [H1 H2]. specialize (H x).
  rewrite (Rabs_pos_eq x) in H by lra.
  specialize (H ltac:(lra)).
  apply Rabs_le_between in H. nra.
Qed.

Lemma div_between (a b lo hi lo2 hi2 : R) :
  0 <= lo -> lo <= a <= hi -> 0 < lo2 -> lo2 <= b <= hi2 ->
  lo / hi2 <= a / b <= hi / lo2.
Proof.
  intros Hlo [Ha1 Ha2] Hlo2 [Hb1 Hb2].
  assert (Hb : 0 < b) by lra. assert (Hh : 0 < hi2) by lra.
  split.
  - apply Rmult_le_reg_r with (hi2 * b); [nra|].
    replace (lo / hi2 * (hi2 * b)) with (lo * b) by (field; lra).
    replace (a / b * (hi2 * b)) with (a * hi2) by (field; lra).
    nra.
  - apply Rmult_le_reg_r with (lo2 * b); [nra|].
    replace (a / b * (lo2 * b)) with (a * lo2) by (field; lra).
    replace (hi / lo2 * (lo2 * b)) with (hi * b) by (field; lra).
    nra.
Qed.

(** With exact arithmetic the cell returns [floor (ln p / error^2) + 1]
    for every count above one and every non-zero [error]. *)
Lemma compute_m_exact (error : R) (p : Z) :
  (1 < p)%Z -> error <> 0 ->
  compute_m exact error p = Ok (Zfloor (ln (IZR p) / error ^ 2) + 1)%Z.
Proof.
  intros Hp He. unfold compute_m, np_log, py_pow2, exact.
  destruct p as [|q|q]; try lia.
  assert (Hsq : error * error <> 0) by nra.
  assert (Hln : 0 < ln (IZR (Z.pos q))).
  { rewrite <- ln_1. apply ln_increasing; [lra|]. apply IZR_lt. exact Hp. }
  unfold np_truediv. destruct (Req_dec_T (error * error) 0) as [E|_]; [contradiction|].
  simpl. replace (error * (error * 1)) with (error * error) by ring.
  destruct (Rle_dec 0 (ln (IZR (Z.pos q)) / (error * error))) as [_|N]; [reflexivity|].
  exfalso. apply N. apply Rmult_le_pos; [lra|].
  left. apply Rinv_0_lt_compat. nra.
Qed.

Lemma quotient_11314 : 933 < ln 11314 / (1 / 10) ^ 2 < 934.
Proof.
  pose proof ExpBoundFacts.ln_11314_bounds as [H1 H2].
  replace (ln 11314 / (1 / 10) ^ 2) with (ln 11314 * 100) by field.
  lra.
Qed.

Lemma compute_m_exact_11314 : compute_m exact (1 / 10) 11314 = Ok 934%Z.
Proof.
  rewrite compute_m_exact by (try lia; lra).
  pose proof quotient_11314 as [H1 H2].
  rewrite (Zfloor_eq 933) by lra. reflexivity.
Qed.

(** Three documents give [m = 110]. *)
Lemma cell7_m_exact_3 : cell7_m exact 3 = Ok 110%Z.
Proof.
  unfold cell7_m, error_literal. change (exact (1 / 10)) with (1 / 10).
  rewrite compute_m_exact by (try lia; lra).
  pose proof ExpBoundFacts.ln_3_bounds as [H1 H2].
  replace (ln 3 / (1 / 10) ^ 2) with (ln 3 * 100) by field.
  rewrite (Zfloor_eq 109) by lra. reflexivity.
Qed.

Lemma ln_monotone (x y : R) : 0 < x -> x <= y -> ln x <= ln y.
Proof.
  intros Hx [Hlt| ->]; [|lra]. left. now apply ln_increasing.
Qed.

Lemma ln_2_lower : 1 / 2 <= ln 2.
Proof.
  assert (H : exp (1 / 2) <= 2).
  { pose proof (exp_ineq1_le (- (1 / 2))) as H.
    assert (Hm : exp (- (1 / 2)) * exp (1 / 2) = 1).
    { rewrite <- exp_plus. replace (- (1 / 2) + 1 / 2) with 0 by lra.
      apply exp_0. }
    pose proof (exp_pos (1 / 2)). nra. }
  rewrite <- (ln_exp (1 / 2)). apply ln_monotone; [apply exp_pos | exact H].
Qed.

(** The logarithm of a count that fits in 63 bits. *)
Lemma ln_of_count (p : Z) :
  (1 < p < 2 ^ 63)%Z -> 1 / 2 <= ln (IZR p) <= 63.
Proof.
  intros [Hlo Hhi]. split.
  - apply Rle_trans with (ln 2); [exact ln_2_lower|].
    apply ln_monotone; [lra | apply IZR_le; lia].
  - rewrite <- (ln_exp 63). apply ln_monotone; [apply IZR_lt; lia|].
    replace 63 with (INR 63 * 1) by (simpl; lra).
    rewrite ExpBoundFacts.exp_pow.
    apply Rle_trans with (2 ^ 63).
    + rewrite pow_IZR. apply IZR_le. simpl Z.of_nat. lia.
    + apply pow_incr. pose proof (exp_ineq1_le 1). lra.
Qed.

Lemma div_le_of_mul (a b c : R) : 0 < b -> a <= c * b -> a / b <= c.
Proof.
  intros Hb H. apply Rmult_le_reg_r with b; [exact Hb|].
  replace (a / b * b) with a by (field; lra). exact H.
Qed.

Lemma le_div_of_mul (a b c : R) : 0 < b -> c * b <= a -> c <= a / b.
Proof.
  intros Hb H. apply Rmult_le_reg_r with b; [exact Hb|].
  replace (a / b * b) with a by (field; lra). exact H.
Qed.

(** The float quotient of cell 7: three roundings away from [ln p / eps^2]. *)
Lemma compute_m_rounded (rnd : R -> R) (u : R) (p : Z) (eps : R) :
  accurate u rnd -> 0 <= u <= 1 / 1000000 ->
  (1 < p < 2 ^ 63)%Z -> 1 / 1000 <= eps * eps <= 100 ->
  exists c : R,
    compute_m rnd eps p = Ok (Zfloor c + 1)%Z /\
    1 / 200 <= ln (IZR p) / eps ^ 2 <= 63000 /\
    ln (IZR p) / eps ^ 2 * (1 - 4 * u) <= c
      <= ln (IZR p) / eps ^ 2 * (1 + 4 * u).
Proof.
  intros Hacc Hu Hp He.
  pose proof (ln_of_count p Hp) as HL.
  assert (Hu1 : 0 <= u <= 1) by lra.
  replace (eps ^ 2) with (eps * eps) by ring.
  set (L := ln (IZR p)) in *. set (E := eps * eps) in *.
  assert (Ha : L * (1 - u) <= rnd L <= L * (1 + u)).
  { apply (accurate_between u rnd L L L Hacc Hu1); lra. }
  assert (Hb : E * (1 - u) <= rnd E <= E * (1 + u)).
  { apply (accurate_between u rnd E E E Hacc Hu1); lra. }
  set (a := rnd L) in *. set (b := rnd E) in *.
  assert (Hbpos : 0 < b) by nra.
  assert (Hq : 1 / 200 <= L / E <= 63000).
  { split.
    - apply le_div_of_mul; lra.
    - apply div_le_of_mul; [lra | nra]. }
  set (q := L / E) in *.
  assert (HLq : L = q * E) by (unfold q; field; lra).
  (* the quotient before its rounding *)
  assert (Hd : a = a / b * b) by (field; lra).
  assert (Hx0 : 0 <= a / b).
  { apply le_div_of_mul; [exact Hbpos | nra]. }
  assert (Hab : q * (1 - u) <= a / b * (1 + u) /\ a / b * (1 - u) <= q * (1 + u)).
  { split.
    - apply Rmult_le_reg_r with E; [lra|]. nra.
    - apply Rmult_le_reg_r with E; [lra|]. nra. }
  destruct Hab as [Hab1 Hab2].
  set (x := a / b) in *.
  assert (Hx : 1 / 1000 <= x <= 1000000).
  { assert (H1 : x * (1 + u) <= x * (1 + 1 / 1000000))
      by (apply Rmult_le_compat_l; lra).
    assert (H2 : x * (1 - 1 / 1000000) <= x * (1 - u))
      by (apply Rmult_le_compat_l; lra).
    assert (H3 : 1 / 200 * (1 - u) <= q * (1 - u))
      by (apply Rmult_le_compat_r; lra).
    assert (H4 : q * (1 + u) <= 63000 * (1 + u))
      by (apply Rmult_le_compat_r; lra).
    split; lra. }
  assert (Hc : x * (1 - u) <= rnd x <= x * (1 + u)).
  { apply (accurate_between u rnd x x x Hacc Hu1); lra. }
  exists (rnd x). split; [|split; [exact Hq|]].
  - unfold compute_m, np_log, py_pow2. fold E. fold b.
    destruct p as [|k|k]; try lia. fold L. fold a.
    unfold np_truediv. destruct (Req_dec_T b 0) as [Eb|_]; [lra|].
    fold x. simpl.
    destruct (Rle_dec 0 (rnd x)) as [_|N]; [reflexivity|].
    exfalso. apply N.
    assert (H0 : 0 <= x * (1 - u)) by (apply Rmult_le_pos; lra).
    lra.
  - assert (Huu : u * u <= u * (1 / 1000000))
      by (apply Rmult_le_compat_l; lra).
    assert (Huu0 : 0 <= u * u) by (apply Rmult_le_pos; lra).
    assert (A1 : q * (1 - u) * (1 - u) <= x * (1 + u) * (1 - u))
      by (apply Rmult_le_compat_r; lra).
    assert (A2 : x * (1 - u) * (1 + u) <= rnd x * (1 + u))
      by (apply Rmult_le_compat_r; lra).
    assert (A3 : q * ((1 - 4 * u) * (1 + u)) <= q * ((1 - u) * (1 - u)))
      by (apply Rmult_le_compat_l; lra).
    assert (B1 : x * (1 - u) * (1 + u) <= q * (1 + u) * (1 + u))
      by (apply Rmult_le_compat_r; lra).
    assert (B2 : rnd x * (1 - u) <= x * (1 + u) * (1 - u))
      by (apply Rmult_le_compat_r; lra).
    assert (B3 : q * ((1 + u) * (1 + u)) <= q * ((1 + 4 * u) * (1 - u)))
      by (apply Rmult_le_compat_l; lra).
    split.
    + apply Rmult_le_reg_r with (1 + u); [lra|]. lra.
    + apply Rmult_le_reg_r with (1 - u); [lra|]. lra.
Qed.

(** C1 (amended).  For every document count [1 < p < 2^63] and every
    error with [eps^2] between a thousandth and a hundred, whatever the
    rounding of the three float64 operations, as long as each is accurate
    to a relative error [u] of at most one part in a million, the cell
    returns an [m] with
    [ln p / eps^2 * (1 - 4u) < m <= ln p / eps^2 * (1 + 4u) + 1].  Whenever
    no integer lies within that rounding error of the quotient, [m] is
    [floor (ln p / eps^2) + 1]: the smallest integer strictly above the
    quotient, which is the round-up [ceil (ln p / eps^2)] itself when the
    quotient is not an integer, with no further margin added. *)
Theorem m_is_floor_plus_one (rnd : R -> R) (u : R) (p : Z) (eps : R) :
  accurate u rnd -> 0 <= u <= 1 / 1000000 ->
  (1 < p < 2 ^ 63)%Z -> 1 / 1000 <= eps * eps <= 100 ->
  exists m : Z,
    compute_m rnd eps p = Ok m /\
    ln (IZR p) / eps ^ 2 * (1 - 4 * u) < IZR m
      <= ln (IZR p) / eps ^ 2 * (1 + 4 * u) + 1 /\
    (forall k : Z,
       IZR k <= ln (IZR p) / eps ^ 2 * (1 - 4 * u) ->
       ln (IZR p) / eps ^ 2 * (1 + 4 * u) < IZR k + 1 ->
       m = (Zfloor (ln (IZR p) / eps ^ 2) + 1)%Z /\
       ln (IZR p) / eps ^ 2 < IZR m /\
       (forall j : Z, ln (IZR p) / eps ^ 2 < IZR j -> (m <= j)%Z) /\
       (IZR (Zfloor (ln (IZR p) / eps ^ 2)) <> ln (IZR p) / eps ^ 2 ->
        m = Zceil (ln (IZR p) / eps ^ 2))).
Proof.
  intros Hacc Hu Hp He.
  destruct (compute_m_rounded rnd u p eps Hacc Hu Hp He)
    as [c [Hm [Hq [Hc1 Hc2]]]].
  set (q := ln (IZR p) / eps ^ 2) in *.
  exists (Zfloor c + 1)%Z. split; [exact Hm|].
  pose proof (Zfloor_bound c) as [Hf1 Hf2].
  rewrite plus_IZR. split; [lra|].
  intros k Hk1 Hk2.
  assert (Hfc : Zfloor c = k) by (apply Zfloor_eq; lra).
  assert (Hfq : Zfloor q = k) by (apply Zfloor_eq; nra).
  rewrite Hfc, Hfq.
  assert (Hqk : IZR k <= q < IZR k + 1) by nra.
  split; [reflexivity|]. split; [lra|]. split.
  - intros j Hj. assert (H : (k < j)%Z) by (apply lt_IZR; lra). lia.
  - intros Hne. symmetry. apply Zceil_eq. rewrite plus_IZR. lra.
Qed.

Lemma m_is_floor_plus_one_witness :
  accurate (1 / 1000000) exact /\ 0 <= 1 / 1000000 <= 1 / 1000000 /\
  (1 < 11314 < 2 ^ 63)%Z /\ 1 / 1000 <= 1 / 10 * (1 / 10) <= 100 /\
  exists m : Z,
    compute_m exact (1 / 10) 11314 = Ok m /\
    ln (IZR 11314) / (1 / 10) ^ 2 * (1 - 4 * (1 / 1000000)) < IZR m
      <= ln (IZR 11314) / (1 / 10) ^ 2 * (1 + 4 * (1 / 1000000)) + 1.
Proof.
  assert (Hacc : accurate (1 / 1000000) exact) by (apply exact_accurate; lra).
  assert (Hu : 0 <= 1 / 1000000 <= 1 / 1000000) by lra.
  assert (Hp : (1 < 11314 < 2 ^ 63)%Z) by (split; reflexivity).
  assert (He : 1 / 1000 <= 1 / 10 * (1 / 10) <= 100) by lra.
  split; [exact Hacc|]. split; [exact Hu|]. split; [exact Hp|].
  split; [exact He|].
  destruct (m_is_floor_plus_one exact (1 / 1000000) 11314 (1 / 10)
              Hacc Hu Hp He) as [m [Hm [Hb _]]].
  exists m. split; [exact Hm | exact Hb].
Defined.

(** C1 as written fails: at [p = 11314], [eps = 0.1] the cell returns 934,
    which is [ceil (ln p / eps^2)] and not [ceil (ln p / eps^2) + 1]. *)
Lemma m_is_not_ceil_plus_one :
  compute_m exact (1 / 10) 11314
  <> Ok (Zceil (ln (IZR 11314) / (1 / 10) ^ 2) + 1)%Z.
Proof.
  rewrite compute_m_exact_11314.
  pose proof quotient_11314 as [H1 H2].
  rewrite (Zceil_eq 934) by lra.
  discriminate.
Qed.

(** C8.  With [p = 11314] and the literal [error = 0.1] the cell returns
    [m = 934], whatever the rounding of the float64 operations, as long as
    each is accurate to one part in a million. *)
Theorem cell7_11314 (rnd : R -> R) :
  accurate (1 / 1000000) rnd -> cell7_m rnd 11314 = Ok 934%Z.
Proof.
  intros Hacc.
  assert (Hu : 0 <= 1 / 1000000 <= 1) by lra.
  pose proof ExpBoundFacts.ln_11314_bounds as HL.
  unfold cell7_m, compute_m, np_log, py_pow2, error_literal.
  assert (He : 999999 / 10000000 <= rnd (1 / 10) <= 1000001 / 10000000).
  { pose proof (accurate_between _ rnd (1 / 10) (1 / 10) (1 / 10) Hacc Hu) as H. lra. }
  set (e := rnd (1 / 10)) in *.
  assert (Hee : (999999 / 10000000) * (999999 / 10000000) <= e * e
                <= (1000001 / 10000000) * (1000001 / 10000000)) by nra.
  assert (He2 : 99999 / 10000000 <= rnd (e * e) <= 100001 / 10000000).
  { pose proof (accurate_between _ rnd
                  ((999999 / 10000000) * (999999 / 10000000))
                  ((1000001 / 10000000) * (1000001 / 10000000))
                  (e * e) Hacc Hu) as H.
    lra. }
  set (e2 := rnd (e * e)) in *.
  assert (Hl : 933369 / 100000 <= rnd (ln 11314) <= 933391 / 100000).
  { pose proof (accurate_between _ rnd (93337 / 10000) (93339 / 10000)
                  (ln 11314) Hacc Hu) as H.
    lra. }
  set (l := rnd (ln 11314)) in *.
  assert (Hq : 9333 / 10 <= rnd (l / e2) <= 9335 / 10).
  { assert (Hd : 9333 / 10 + 1 / 20 <= l / e2 <= 9335 / 10 - 1 / 20).
    { pose proof (div_between l e2 (933369 / 100000) (933391 / 100000)
                    (99999 / 10000000) (100001 / 10000000)) as Hd.
      lra. }
    pose proof (accurate_between _ rnd (9333 / 10 + 1 / 20) (9335 / 10 - 1 / 20)
                  (l / e2) Hacc Hu) as H.
    lra. }
  unfold np_truediv. destruct (Req_dec_T e2 0) as [E|_]; [lra|].
  simpl. destruct (Rle_dec 0 (rnd (l / e2))) as [_|N]; [|lra].
  rewrite (Zfloor_eq 933) by lra. reflexivity.
Qed.

Lemma cell7_11314_witness :
  accurate (1 / 1000000) exact /\ cell7_m exact 11314 = Ok 934%Z.
Proof.
  split.
  - apply exact_accurate. lra.
  - apply (cell7_11314 exact). apply exact_accurate. lra.
Defined.

(** The squared literal is a positive number. *)
Lemma squared_literal_positive (rnd : R -> R) :
  accurate (1 / 1000000) rnd -> 0 < py_pow2 rnd (error_literal rnd).
Proof.
  intros Hacc. assert (Hu : 0 <= 1 / 1000000 <= 1) by lra.
  unfold py_pow2, error_literal.
  pose proof (accurate_between _ rnd (1 / 10) (1 / 10) (1 / 10) Hacc Hu) as He.
  set (e := rnd (1 / 10)) in *.
  pose proof (accurate_between _ rnd
                ((999999 / 10000000) * (999999 / 10000000))
                (1 * 1) (e * e) Hacc Hu) as H.
  assert (Hee : 999999 / 10000000 * (999999 / 10000000) <= e * e <= 1 * 1) by nra.
  lra.
Qed.

(** On a positive count the cell returns. *)
Lemma cell7_returns (rnd : R -> R) (p : Z) :
  accurate (1 / 1000000) rnd -> (0 < p)%Z -> exists m, cell7_m rnd p = Ok m.
Proof.
  intros Hacc Hp. pose proof (squared_literal_positive rnd Hacc) as He.
  unfold cell7_m, compute_m, np_log. destruct p as [|q|q]; try lia.
  unfold np_truediv.
  destruct (Req_dec_T (py_pow2 rnd (error_literal rnd)) 0) as [E|_]; [lra|].
  simpl. eexists. reflexivity.
Qed.

(** On a single document it returns 1. *)
Lemma cell7_at_one (rnd : R -> R) :
  accurate (1 / 1000000) rnd -> cell7_m rnd 1 = Ok 1%Z.
Proof.
  intros Hacc. pose proof (squared_literal_positive rnd Hacc) as He.
  pose proof (accurate_0 _ rnd Hacc) as H0.
  unfold cell7_m, compute_m, np_log. rewrite ln_1, H0.
  unfold np_truediv.
  destruct (Req_dec_T (py_pow2 rnd (error_literal rnd)) 0) as [E|_]; [lra|].
  replace (0 / py_pow2 rnd (error_literal rnd)) with 0 by (field; lra).
  rewrite H0. simpl.
  destruct (Rle_dec 0 0) as [_|N]; [|lra].
  change 0 with (IZR 0). rewrite ZfloorZ. reflexivity.
Qed.

(** On no document at all [int] meets [-inf]. *)
Lemma cell7_at_zero (rnd : R -> R) : cell7_m rnd 0 = Raise OverflowError.
Proof.
  unfold cell7_m, compute_m, np_log, np_truediv.
  now destruct (Rlt_dec (py_pow2 rnd (error_literal rnd)) 0).
Qed.

End DimensionFacts.

Module MatrixFacts.
Import Matrix.

Section Laws.

Variable F : Type.
Variables (zero one : F) (add mul : F -> F -> F).

(** The identities that adding a zero and multiplying by a zero or a one
    obey; float64 arithmetic on finite values obeys them without rounding. *)
Hypothesis add_0_r : forall x, add x zero = x.
Hypothesis add_0_l : forall x, add zero x = x.
Hypothesis mul_0_r : forall x, mul x zero = zero.
Hypothesis mul_1_r : forall x, mul x one = x.

Local Abbreviation inner := (inner F zero add mul).
Local Abbreviation one_hot_row := (one_hot_row F zero one).
Local Abbreviation one_hot_doc := (one_hot_doc F zero one).
Local Abbreviation dot := (dot F zero add mul).
Local Abbreviation scale := (scale F mul).

Lemma map_nth_seq (l : list F) :
  map (fun k => nth k l zero) (seq 0 (List.length l)) = l.
Proof.
  apply nth_ext with (d := zero) (d' := zero).
  - now rewrite length_map, length_seq.
  - intros k Hk. rewrite length_map, length_seq in Hk.
    rewrite (nth_indep _ zero (nth 0 l zero))
      by now rewrite length_map, length_seq.
    rewrite (map_nth (fun k => nth k l zero)), seq_nth by exact Hk.
    reflexivity.
Qed.

Lemma one_hot_row_length (n j : nat) : List.length (one_hot_row n j) = n.
Proof. unfold Matrix.one_hot_row. now rewrite length_map, length_seq. Qed.

Lemma column0_transpose_one_hot (n j : nat) :
  column zero 0 (transpose zero (one_hot_doc n j)) = one_hot_row n j.
Proof.
  unfold column, transpose. simpl. rewrite map_map. simpl.
  rewrite <- (one_hot_row_length n j) at 1. apply map_nth_seq.
Qed.

(** Summing the products of a row with the indicator of [j], from any
    accumulator and any starting index. *)
Lemma fold_indicator (j : nat) : forall (r : list F) (s : nat) (acc : F),
  fold_left add
    (map (fun ab => mul (fst ab) (snd ab))
       (combine r (map (fun k => if Nat.eqb k j then one else zero)
                       (seq s (List.length r)))))
    acc
  = if andb (Nat.leb s j) (Nat.ltb j (s + List.length r))
    then add acc (nth (j - s) r zero) else acc.
Proof.
  induction r as [|x r IH]; intros s acc.
  - simpl. replace (j <? s + 0)%nat with (j <? s)%nat by (f_equal; lia).
    destruct (Nat.leb_spec s j), (Nat.ltb_spec j s); simpl; try reflexivity; lia.
  - simpl List.length. simpl seq. simpl map. simpl combine. simpl map. simpl fold_left.
    rewrite IH. destruct (Nat.eqb_spec s j) as [E|E].
    + subst s. rewrite mul_1_r.
      replace (S j <=? j)%nat with false by (symmetry; apply Nat.leb_gt; lia).
      rewrite Nat.leb_refl. simpl andb.
      replace (j <? j + S (List.length r))%nat with true
        by (symmetry; apply Nat.ltb_lt; lia).
      now rewrite Nat.sub_diag.
    + rewrite mul_0_r, add_0_r.
      replace (j <? s + S (List.length r))%nat
        with (j <? S s + List.length r)%nat by (f_equal; lia).
      destruct (Nat.leb_spec (S s) j) as [H1|H1].
      * replace (s <=? j)%nat with true by (symmetry; apply Nat.leb_le; lia).
        replace (j - s)%nat with (S (j - S s)) by lia.
        simpl. reflexivity.
      * replace (s <=? j)%nat with false by (symmetry; apply Nat.leb_gt; lia).
        reflexivity.
Qed.

Lemma inner_one_hot (r : list F) (j : nat) :
  (j < List.length r)%nat ->
  inner r (one_hot_row (List.length r) j) = nth j r zero.
Proof.
  intros Hj. unfold Matrix.inner, Matrix.one_hot_row.
  rewrite fold_indicator. simpl.
  replace (j <? List.length r)%nat with true by (symmetry; now apply Nat.ltb_lt).
  rewrite Nat.sub_0_r. apply add_0_l.
Qed.

Lemma column_scale (c : F) (j : nat) (T : ndarray F) :
  column_array zero j (scale c T) = scale c (column_array zero j T).
Proof.
  unfold column_array, column, Matrix.scale. simpl. f_equal.
  rewrite !map_map. apply map_ext. intros r.
  rewrite <- (mul_0_r c) at 1. now rewrite map_nth.
Qed.

Lemma dot_one_hot (A : ndarray F) (j : nat) :
  well_shaped A -> (j < ncols A)%nat ->
  dot A (transpose zero (one_hot_doc (ncols A) j)) = Ok (column_array zero j A).
Proof.
  intros Hwf Hj. unfold Matrix.dot.
  replace (nrows (transpose zero (one_hot_doc (ncols A) j))) with (ncols A)
    by (unfold nrows, transpose; simpl; now rewrite length_map, length_seq).
  rewrite Nat.eqb_refl. unfold column_array. f_equal. simpl. f_equal.
  unfold column. rewrite map_map.
  apply map_ext_in. intros r Hr.
  fold (column zero 0 (transpose zero (one_hot_doc (ncols A) j))).
  rewrite column0_transpose_one_hot.
  unfold well_shaped in Hwf. rewrite Forall_forall in Hwf.
  specialize (Hwf r Hr). rewrite <- Hwf. rewrite inner_one_hot by lia.
  reflexivity.
Qed.

(** C4.  For every index [j] below the number of columns of [R], the
    product of [R] with the transposed one-hot document of term [j] (the
    multiplication that builds [M_prime]) is the [j]-th column of [R]; when
    [R] is a scalar [c] times a matrix [T] (the factor [sqrt s] times the
    signs), it is [c] times the [j]-th column of [T]. *)
Theorem one_hot_projects_to_column (A : ndarray F) (j : nat) :
  well_shaped A -> (j < ncols A)%nat ->
  dot A (transpose zero (one_hot_doc (ncols A) j)) = Ok (column_array zero j A)
  /\ forall (c : F) (T : ndarray F),
       A = scale c T ->
       dot A (transpose zero (one_hot_doc (ncols A) j))
       = Ok (scale c (column_array zero j T)).
Proof.
  intros Hwf Hj. split.
  - now apply dot_one_hot.
  - intros c T E. rewrite dot_one_hot by assumption.
    rewrite E. now rewrite column_scale.
Qed.

End Laws.

(** A concrete instance of the one-hot projection, on integer entries. *)
Lemma one_hot_projects_to_column_witness :
  let A := {| Matrix.ncols := 3; Matrix.rows := [[2; 0; -3]; [0; 5; 7]]%Z |} in
  Matrix.well_shaped A /\ (1 < Matrix.ncols A)%nat /\
  (Matrix.dot Z 0%Z Z.add Z.mul A
     (Matrix.transpose 0%Z (Matrix.one_hot_doc Z 0%Z 1%Z (Matrix.ncols A) 1))
   = Ok (Matrix.column_array 0%Z 1 A)
   /\ forall (c : Z) (T : Matrix.ndarray Z),
        A = Matrix.scale Z Z.mul c T ->
        Matrix.dot Z 0%Z Z.add Z.mul A
          (Matrix.transpose 0%Z (Matrix.one_hot_doc Z 0%Z 1%Z (Matrix.ncols A) 1))
        = Ok (Matrix.scale Z Z.mul c (Matrix.column_array 0%Z 1 T))).
Proof.
  intros A.
  assert (Hwf : Matrix.well_shaped A).
  { unfold Matrix.well_shaped, A. simpl. repeat constructor. }
  assert (Hj : (1 < Matrix.ncols A)%nat) by (simpl; lia).
  split; [exact Hwf|]. split; [exact Hj|].
  exact (one_hot_projects_to_column Z 0%Z 1%Z Z.add Z.mul
           Z.add_0_r Z.add_0_l Z.mul_0_r Z.mul_1_r A 1%nat Hwf Hj).
Defined.

End MatrixFacts.


Module BatchFacts.
Import Batch.
Local Open Scope nat_scope.

(** *** Gathering by index *)

Lemma gather_total {A : Type} (l : list A) (idx : list nat) :
  Forall (fun i => (i < List.length l)%nat) idx ->
  exists r, gather l idx = Ok r.
Proof.
  induction 1 as [|i idx Hi _ IH].
  - now exists [].
  - destruct IH as [r Hr]. simpl. unfold item.
    destruct (nth_error l i) as [a|] eqn:E.
    + simpl. rewrite Hr. simpl. now exists (a :: r).
    + apply nth_error_None in E. lia.
Qed.

Lemma gather_sound {A : Type} (l : list A) : forall (idx : list nat) (r : list A),
  gather l idx = Ok r ->
  Forall2 (fun i a => nth_error l i = Some a) idx r.
Proof.
  induction idx as [|i idx IH]; intros r H; simpl in H.
  - injection H as <-. constructor.
  - unfold item in H. destruct (nth_error l i) as [a|] eqn:E; [|discriminate].
    simpl in H. destruct (gather l idx) as [more|e]; [|discriminate].
    simpl in H. injection H as <-. constructor; [exact E | now apply IH].
Qed.

Section Permuting.

Variable rng : Type.
Variable shuffle : rng -> list nat -> list nat * rng.

(** [np.random.shuffle] rearranges the array it is given. *)
Hypothesis shuffle_permutes : forall g l, Permutation l (fst (shuffle g l)).

Lemma batch_indices_firstn (num len : nat) (g : rng) :
  fst (batch_indices rng shuffle num len g)
  = firstn num (fst (shuffle g (seq 0 len))).
Proof. unfold batch_indices. now destruct (shuffle g (seq 0 len)). Qed.

Lemma batch_indices_NoDup (num len : nat) (g : rng) :
  NoDup (fst (batch_indices rng shuffle num len g)).
Proof.
  rewrite batch_indices_firstn.
  apply NoDup_app_remove_r with (l' := skipn num (fst (shuffle g (seq 0 len)))).
  rewrite firstn_skipn.
  eapply Permutation_NoDup; [apply shuffle_permutes | apply seq_NoDup].
Qed.

Lemma batch_indices_in_range (num len : nat) (g : rng) :
  Forall (fun i => (i < len)%nat) (fst (batch_indices rng shuffle num len g)).
Proof.
  rewrite batch_indices_firstn. apply Forall_forall. intros i Hi.
  assert (Hin : In i (fst (shuffle g (seq 0 len)))).
  { rewrite <- (firstn_skipn num). apply in_or_app. now left. }
  apply (Permutation_in i (Permutation_sym (shuffle_permutes g (seq 0 len)))) in Hin.
  apply in_seq in Hin. lia.
Qed.

Lemma batch_indices_length (num len : nat) (g : rng) :
  List.length (fst (batch_indices rng shuffle num len g)) = Nat.min num len.
Proof.
  rewrite batch_indices_firstn, length_firstn.
  rewrite <- (Permutation_length (shuffle_permutes g (seq 0 len))), length_seq.
  reflexivity.
Qed.

Lemma next_batch_result {A B : Type} (num : nat) (data : list A)
    (labels : list B) (g : rng) :
  fst (next_batch rng shuffle num data labels g)
  = (data_shuffle <- gather data (fst (batch_indices rng shuffle num (List.length data) g)) ;;
     labels_shuffle <- gather labels (fst (batch_indices rng shuffle num (List.length data) g)) ;;
     Ok (data_shuffle, labels_shuffle)).
Proof.
  unfold next_batch.
  now destruct (batch_indices rng shuffle num (List.length data) g).
Qed.

(** With a label for every sample the call returns. *)
Lemma next_batch_total {A B : Type} (num : nat) (data : list A)
    (labels : list B) (g : rng) :
  (List.length data <= List.length labels)%nat ->
  exists ds ls, fst (next_batch rng shuffle num data labels g) = Ok (ds, ls).
Proof.
  intros Hlen. rewrite next_batch_result.
  pose proof (batch_indices_in_range num (List.length data) g) as Hr.
  destruct (gather_total data _ Hr) as [ds Hds].
  destruct (gather_total labels (fst (batch_indices rng shuffle num (List.length data) g)))
    as [ls Hls].
  { eapply Forall_impl; [|exact Hr]. simpl. intros; lia. }
  exists ds, ls. now rewrite Hds, Hls.
Qed.

(** What a returned batch holds. *)
Lemma next_batch_sound {A B : Type} (num : nat) (data : list A)
    (labels : list B) (g : rng) (ds : list A) (ls : list B) :
  fst (next_batch rng shuffle num data labels g) = Ok (ds, ls) ->
  Forall2 (fun i d => nth_error data i = Some d)
    (fst (batch_indices rng shuffle num (List.length data) g)) ds
  /\ Forall2 (fun i l => nth_error labels i = Some l)
    (fst (batch_indices rng shuffle num (List.length data) g)) ls.
Proof.
  rewrite next_batch_result. intros H.
  destruct (gather data _) as [ds'|] eqn:Ed; [|discriminate].
  simpl in H. destruct (gather labels _) as [ls'|] eqn:El; [|discriminate].
  simpl in H. injection H as <- <-.
  split; now apply gather_sound.
Qed.

Lemma successive_batches_length (count num len : nat) : forall g,
  (List.length (List.concat (successive_batches rng shuffle count num len g))
   <= count * num)%nat.
Proof.
  induction count as [|c IH]; intros g; simpl; [lia|].
  pose proof (batch_indices_length num len g) as Hl.
  destruct (batch_indices rng shuffle num len g) as [idx g'] eqn:E.
  simpl in *. rewrite length_app. specialize (IH g'). lia.
Qed.

(** Fewer draws than documents leave a document out. *)
Lemma too_few_draws (count num len : nat) (g : rng) :
  (count * num < len)%nat ->
  exists i, (i < len)%nat /\
    forall b, In b (successive_batches rng shuffle count num len g) -> ~ In i b.
Proof.
  intros Hfew.
  set (bs := successive_batches rng shuffle count num len g).
  destruct (Exists_dec (fun i => ~ In i (List.concat bs)) (seq 0 len)) as [Hex|Hall].
  - intros i. destruct (in_dec Nat.eq_dec i (List.concat bs)); [right|left]; tauto.
  - apply Exists_exists in Hex. destruct Hex as [i [Hi Hout]].
    exists i. split; [apply in_seq in Hi; lia|].
    intros b Hb Hib. apply Hout. apply in_concat. now exists b.
  - exfalso.
    assert (Hincl : incl (seq 0 len) (List.concat bs)).
    { intros i Hi. destruct (in_dec Nat.eq_dec i (List.concat bs)) as [Hin|Hout]; [exact Hin|].
      exfalso. apply Hall. apply Exists_exists. now exists i. }
    apply NoDup_incl_length in Hincl; [|apply seq_NoDup].
    rewrite length_seq in Hincl.
    pose proof (successive_batches_length count num len g). fold bs in H. lia.
Qed.

End Permuting.

Lemma firstn_seq (n : nat) : forall s len,
  firstn n (seq s len) = seq s (Nat.min n len).
Proof.
  induction n as [|n IH]; intros s len; [reflexivity|].
  destruct len as [|len]; [reflexivity|].
  simpl. now rewrite IH.
Qed.

(** Without shuffling every batch is the first [num] documents. *)
Lemma unshuffled_batches (rng : Type) (count num len : nat) : forall (g : rng) b,
  In b (successive_batches rng unshuffled count num len g) ->
  b = firstn num (seq 0 len).
Proof.
  induction count as [|c IH]; intros g b Hb; simpl in Hb; [contradiction|].
  destruct Hb as [<-|Hb]; [reflexivity | now apply (IH g)].
Qed.

Lemma unshuffled_permutes (rng : Type) (g : rng) (l : list nat) :
  Permutation l (fst (unshuffled g l)).
Proof. apply Permutation_refl. Qed.

Lemma unshuffled_misses (rng : Type) (count num len : nat) (g : rng) :
  (num < len)%nat ->
  exists i, (i < len)%nat /\
    forall b, In b (successive_batches rng unshuffled count num len g) -> ~ In i b.
Proof.
  intros Hlt. exists num. split; [exact Hlt|].
  intros b Hb Hin. apply unshuffled_batches in Hb. subst b.
  rewrite firstn_seq in Hin. apply in_seq in Hin. lia.
Qed.

Lemma Forall2_pick {I A : Type} (P : I -> A -> Prop) :
  forall (idx : list I) (l : list A), Forall2 P idx l ->
  forall k, (k < List.length l)%nat ->
  exists i a, nth_error idx k = Some i /\ nth_error l k = Some a /\ P i a.
Proof.
  induction 1 as [|i a idx l Hia _ IH]; intros k Hk; simpl in Hk; [lia|].
  destruct k as [|k].
  - exists i, a. simpl. auto.
  - simpl. apply IH. lia.
Qed.


(** C10.  A call [next_batch(num, data, labels)] that has a label for every
    sample returns, and whatever it returns has [min num (len data)]
    samples and as many labels, fewer than [num] when the data set is
    smaller; the sample at each position is [data[i]] and the label at that
    position [labels[i]] for one and the same index [i]. *)
Theorem next_batch_size_and_pairing
    (rng : Type) (shuffle : rng -> list nat -> list nat * rng)
    (A B : Type) (num : nat) (data : list A) (labels : list B) (g : rng) :
  (forall g' l, Permutation l (fst (shuffle g' l))) ->
  ((List.length data <= List.length labels)%nat ->
   exists ds ls, fst (next_batch rng shuffle num data labels g) = Ok (ds, ls))
  /\ forall ds ls,
       fst (next_batch rng shuffle num data labels g) = Ok (ds, ls) ->
       List.length ds = Nat.min num (List.length data) /\
       List.length ls = Nat.min num (List.length data) /\
       ((List.length data < num)%nat -> (List.length ds < num)%nat) /\
       forall k, (k < Nat.min num (List.length data))%nat ->
         exists i d l,
           nth_error ds k = Some d /\ nth_error ls k = Some l /\
           nth_error data i = Some d /\ nth_error labels i = Some l.
Proof.
  intros Hperm. split.
  - now apply next_batch_total.
  - intros ds ls Hok.
    destruct (next_batch_sound rng shuffle num data labels g ds ls Hok) as [Hd Hl].
    pose proof (batch_indices_length rng shuffle Hperm num (List.length data) g) as Hn.
    assert (Hds : List.length ds = Nat.min num (List.length data))
      by (rewrite <- Hn; symmetry; eapply Forall2_length; eassumption).
    assert (Hls : List.length ls = Nat.min num (List.length data))
      by (rewrite <- Hn; symmetry; eapply Forall2_length; eassumption).
    repeat split; try assumption; [lia|].
    intros k Hk.
    destruct (Forall2_pick _ _ _ Hd k) as [i [d [Hi [Hdk Hdi]]]]; [lia|].
    destruct (Forall2_pick _ _ _ Hl k) as [i' [l [Hi' [Hlk Hli]]]]; [lia|].
    rewrite Hi in Hi'. injection Hi' as <-.
    now exists i, d, l.
Qed.


Lemma next_batch_size_and_pairing_witness :
  (forall g' l, Permutation l (fst (reversing g' l))) /\
  exists ds ls,
    fst (next_batch nat reversing 5 [10; 20; 30] [true; false; true] 0)
    = Ok (ds, ls) /\
    List.length ds = Nat.min 5 (List.length [10; 20; 30]) /\
    List.length ls = Nat.min 5 (List.length [10; 20; 30]).
Proof.
  assert (Hperm : forall (g' : nat) l, Permutation l (fst (reversing g' l)))
    by (intros; apply Permutation_rev).
  split; [exact Hperm|].
  destruct (next_batch_size_and_pairing nat reversing nat bool 5
              [10; 20; 30] [true; false; true] 0 Hperm) as [Hret Hsize].
  destruct (Hret ltac:(simpl; lia)) as [ds [ls Hok]].
  exists ds, ls. split; [exact Hok|].
  destruct (Hsize ds ls Hok) as [H1 [H2 _]]. now split.
Defined.

End BatchFacts.

Module TrainingFacts.
Import Training.
Local Open Scope nat_scope.

Section Loop.

Variables X Y net scalar rng : Type.
Variable shuffle : rng -> list nat -> list nat * rng.
Variable sess_init : hyper -> net.
Variable run_train : hyper -> net -> list X -> list Y -> result (net * scalar).
Variable run_eval : hyper -> net -> list X -> list Y -> result scalar.
Variable run_accuracy : hyper -> net -> list X -> list Y -> scalar.
Variable zero_cost : scalar.
Variable accumulate : scalar -> scalar -> nat -> scalar.
Variable h : hyper.
Variable m_prime_rows : nat.
Variables (data : list X) (labels : list Y).
Variables (test_x : list X) (test_y : list Y).

Local Abbreviation train_batch :=
  (train_batch X Y net scalar rng shuffle run_train accumulate h data labels).
Local Abbreviation evaluate :=
  (evaluate X Y net scalar rng run_eval h test_x test_y).
Local Abbreviation run_epoch :=
  (run_epoch X Y net scalar rng shuffle run_train run_eval zero_cost
     accumulate h m_prime_rows data labels test_x test_y).
Local Abbreviation trace :=
  (trace X Y net scalar rng shuffle sess_init run_train run_eval run_accuracy
     zero_cost accumulate h m_prime_rows data labels test_x test_y).
Local Abbreviation train :=
  (train X Y net scalar rng shuffle sess_init run_train run_eval run_accuracy
     zero_cost accumulate h m_prime_rows data labels test_x test_y).

Local Abbreviation epoch_calls := (epoch_calls X Y test_x test_y).
Local Abbreviation total := (m_prime_rows / batch_size h).

(** The calls and the lines of one epoch when evaluations come every
    [display_step] epochs. *)
Local Abbreviation shown epoch := (Nat.eqb (epoch mod display_step h) 0).
Local Abbreviation steps epoch :=
  (map (fun i => @RunTrain X Y epoch i [] []) (seq 0 total)
   ++ (if shown epoch then [RunEval epoch test_x test_y] else [])).

(** The cell returns exactly when the block ends without an exception. *)
Lemma train_trace (g : rng) (s : session X Y net scalar rng) :
  train g = Ok s <-> trace g = (s, None).
Proof.
  unfold Training.train. destruct (trace g) as [s1 [e|]]; split;
    intros H; try discriminate; now injection H as <-.
Qed.

Lemma train_raised (g : rng) (s : session X Y net scalar rng) (e : pyerr) :
  trace g = (s, Some e) -> train g = Raise e.
Proof. intros H. unfold Training.train. now rewrite H. Qed.

(** *** What a loop that went through has done *)

Lemma train_batch_returned (n epoch i : nat) (s s' : session X Y net scalar rng)
    (c c' : scalar) :
  train_batch n epoch i (s, c) = ((s', c'), None) ->
  map forget_batch (calls s')
  = map forget_batch (calls s) ++ [RunTrain epoch i [] []] /\
  printed s' = printed s.
Proof.
  unfold Training.train_batch.
  destruct (Batch.next_batch rng shuffle (batch_size h) data labels (np_random s))
    as [[xy|e] g]; [|discriminate].
  destruct (run_train h (weights s) (fst xy) (snd xy)) as [wc|e]; [|discriminate].
  intros [= <- <-]. simpl. now rewrite map_app.
Qed.

Lemma batches_returned (t epoch : nat) : forall (n a : nat)
    (s s' : session X Y net scalar rng) (c c' : scalar),
  for_each (train_batch t epoch) (seq a n) (s, c) = ((s', c'), None) ->
  map forget_batch (calls s')
  = map forget_batch (calls s) ++ map (fun i => RunTrain epoch i [] []) (seq a n) /\
  printed s' = printed s.
Proof.
  induction n as [|n IH]; intros a s s' c c' H.
  - injection H as <- <-. simpl. now rewrite app_nil_r.
  - cbn [seq for_each] in H.
    destruct (train_batch t epoch a (s, c)) as [[s1 c1] [e|]] eqn:E1;
      [discriminate|].
    apply train_batch_returned in E1 as [Hc1 Hp1].
    apply IH in H as [Hc2 Hp2]. split; [|congruence].
    rewrite Hc2, Hc1, <- app_assoc. reflexivity.
Qed.

(** The batches an epoch feeds are those of as many successive calls of
    [next_batch], from the generator the epoch starts with. *)
Lemma epoch_feeds_successive_batches (t epoch : nat) : forall (n a : nat)
    (s s' : session X Y net scalar rng) (c c' : scalar),
  for_each (train_batch t epoch) (seq a n) (s, c) = ((s', c'), None) ->
  exists fed,
    calls s' = calls s ++ fed /\
    Forall2
      (fun idx call =>
         exists i batch_x batch_y,
           call = RunTrain epoch i batch_x batch_y /\
           Batch.gather data idx = Ok batch_x /\
           Batch.gather labels idx = Ok batch_y)
      (Batch.successive_batches rng shuffle n (batch_size h)
         (List.length data) (np_random s))
      fed.
Proof.
  induction n as [|n IH]; intros a s s' c c' H.
  - simpl in H. injection H as <- <-. exists []. rewrite app_nil_r.
    split; [reflexivity | constructor].
  - cbn [seq for_each] in H.
    destruct (train_batch t epoch a (s, c)) as [[s1 c1] [e|]] eqn:E1;
      [discriminate|].
    apply IH in H as [fed [Hc Hf]].
    unfold Training.train_batch, Batch.next_batch in E1.
    cbn [Batch.successive_batches].
    destruct (Batch.batch_indices rng shuffle (batch_size h) (List.length data)
                (np_random s)) as [idx g1].
    destruct (Batch.gather data idx) as [ds|] eqn:Ed; [|discriminate].
    destruct (Batch.gather labels idx) as [ls|] eqn:El; [|discriminate].
    cbn [bind fst snd] in E1.
    destruct (run_train h (weights s) ds ls) as [wc|]; [|discriminate].
    injection E1 as <- <-. cbn [calls np_random] in Hc, Hf.
    exists (RunTrain epoch a ds ls :: fed). split.
    + rewrite Hc, <- app_assoc. reflexivity.
    + constructor; [now exists a, ds, ls | exact Hf].
Qed.

Lemma run_epoch_returned (epoch : nat) (s s' : session X Y net scalar rng) :
  run_epoch epoch s = (s', None) ->
  map forget_batch (calls s') = map forget_batch (calls s) ++ steps epoch /\
  exists lines,
    printed s' = printed s ++ lines /\
    map line_number lines = (if shown epoch then [Some (epoch + 1)] else []).
Proof.
  unfold Training.run_epoch, total_batch_of, displayed.
  destruct (batch_size h =? 0); [discriminate|].
  destruct (for_each (train_batch total epoch) (seq 0 total) (s, zero_cost))
    as [[s1 c1] [e|]] eqn:E1; [discriminate|].
  apply batches_returned in E1 as [Hc1 Hp1]. cbn [fst snd].
  destruct (display_step h =? 0); [discriminate|].
  destruct (epoch mod display_step h =? 0).
  - unfold Training.evaluate.
    destruct (run_eval h (weights s1) test_x test_y) as [t|e]; [|discriminate].
    intros [= <-]. simpl. split.
    + rewrite map_app, Hc1. simpl. now rewrite <- app_assoc.
    + eexists [_]. rewrite Hp1. split; reflexivity.
  - intros [= <-]. split.
    + now rewrite Hc1, app_nil_r.
    + exists []. now rewrite app_nil_r.
Qed.

Lemma epochs_returned : forall (n a : nat) (s s' : session X Y net scalar rng),
  for_each run_epoch (seq a n) s = (s', None) ->
  map forget_batch (calls s')
  = map forget_batch (calls s) ++ flat_map (fun e => steps e) (seq a n) /\
  exists lines,
    printed s' = printed s ++ lines /\
    map line_number lines
    = map (fun e => Some (e + 1)) (filter (fun e => shown e) (seq a n)).
Proof.
  induction n as [|n IH]; intros a s s' H.
  - injection H as <-. simpl. rewrite app_nil_r. split; [reflexivity|].
    exists []. now rewrite app_nil_r.
  - cbn [seq for_each] in H.
    destruct (run_epoch a s) as [s1 [e|]] eqn:E1; [discriminate|].
    apply run_epoch_returned in E1 as [Hc1 [l1 [Hp1 Hn1]]].
    apply IH in H as [Hc2 [l2 [Hp2 Hn2]]]. split.
    + rewrite Hc2, Hc1. cbn [seq flat_map]. now rewrite <- !app_assoc.
    + exists (l1 ++ l2). split.
      * rewrite Hp2, Hp1, <- app_assoc. reflexivity.
      * rewrite map_app, Hn1, Hn2. cbn [seq filter].
        now destruct (a mod display_step h =? 0).
Qed.

(** A cell that returns has run every epoch: there is no way out of the
    loops but their end or an exception. *)
Lemma train_returned (g : rng) (s : session X Y net scalar rng) :
  train g = Ok s ->
  map forget_batch (calls s)
  = RunInit :: flat_map (fun e => steps e) (seq 0 (training_epochs h))
    ++ [RunAccuracy test_x test_y] /\
  exists lines,
    printed s
    = lines ++ [Finished; AccuracyLine (run_accuracy h (weights s) test_x test_y)] /\
    map line_number lines
    = map (fun e => Some (e + 1))
        (filter (fun e => shown e) (seq 0 (training_epochs h))).
Proof.
  intros H. apply train_trace in H. unfold Training.trace in H.
  destruct (for_each run_epoch (seq 0 (training_epochs h))
              {| weights := sess_init h; np_random := g;
                 calls := [RunInit]; printed := [] |})
    as [s1 [e|]] eqn:E; [discriminate|].
  apply epochs_returned in E as [Hc [lines [Hp Hn]]].
  injection H as <-. simpl. split.
  - rewrite map_app, Hc. reflexivity.
  - exists lines. rewrite Hp. split; [reflexivity | exact Hn].
Qed.

(** *** What a loop that raised had done *)

Lemma train_batch_raised (n epoch i : nat) (s s' : session X Y net scalar rng)
    (c c' : scalar) (e : pyerr) :
  train_batch n epoch i (s, c) = ((s', c'), Some e) ->
  printed s' = printed s /\
  exists r, r <= 1 /\
    map forget_batch (calls s')
    = map forget_batch (calls s) ++ firstn r [RunTrain epoch i [] []].
Proof.
  unfold Training.train_batch.
  destruct (Batch.next_batch rng shuffle (batch_size h) data labels (np_random s))
    as [[xy|e1] g].
  - destruct (run_train h (weights s) (fst xy) (snd xy)) as [wc|e2];
      [discriminate|].
    intros [= <- <- <-]. split; [reflexivity|]. exists 1. split; [lia|].
    simpl. now rewrite map_app.
  - intros [= <- <- <-]. split; [reflexivity|]. exists 0. split; [lia|].
    simpl. now rewrite app_nil_r.
Qed.

Lemma batches_raised (t epoch : nat) : forall (n a : nat)
    (s s' : session X Y net scalar rng) (c c' : scalar) (e : pyerr),
  for_each (train_batch t epoch) (seq a n) (s, c) = ((s', c'), Some e) ->
  printed s' = printed s /\
  exists r, r <= n /\
    map forget_batch (calls s')
    = map forget_batch (calls s)
      ++ firstn r (map (fun i => RunTrain epoch i [] []) (seq a n)).
Proof.
  induction n as [|n IH]; intros a s s' c c' e H; [discriminate|].
  cbn [seq for_each] in H.
  destruct (train_batch t epoch a (s, c)) as [[s1 c1] [e1|]] eqn:E1.
  - injection H as <- <- <-.
    apply train_batch_raised in E1 as [Hp [r [Hr Hc]]].
    split; [exact Hp|]. exists r. split; [lia|].
    rewrite Hc. cbn [seq map]. destruct r as [|[|r]]; try lia; reflexivity.
  - apply train_batch_returned in E1 as [Hc1 Hp1].
    apply IH in H as [Hp [r [Hr Hc]]].
    split; [congruence|]. exists (S r). split; [lia|].
    rewrite Hc, Hc1, <- app_assoc. reflexivity.
Qed.

Lemma run_epoch_raised (epoch : nat) (s s' : session X Y net scalar rng)
    (e : pyerr) :
  display_step h = 1 ->
  run_epoch epoch s = (s', Some e) ->
  printed s' = printed s /\
  exists r, r <= total + 1 /\
    map forget_batch (calls s')
    = map forget_batch (calls s) ++ firstn r (epoch_calls total epoch).
Proof.
  intros Hd. unfold Training.run_epoch, total_batch_of, displayed.
  rewrite Hd. cbn [Nat.eqb]. rewrite Nat.mod_1_r. cbn [Nat.eqb].
  destruct (batch_size h =? 0).
  { intros [= <- <-]. split; [reflexivity|]. exists 0. split; [lia|].
    simpl. now rewrite app_nil_r. }
  destruct (for_each (train_batch total epoch) (seq 0 total) (s, zero_cost))
    as [[s1 c1] [e1|]] eqn:E1; cbn [fst snd].
  - intros [= <- <-].
    apply batches_raised in E1 as [Hp [r [Hr Hc]]].
    split; [exact Hp|]. exists r. split; [lia|].
    rewrite Hc. unfold Training.epoch_calls.
    rewrite firstn_app, length_map, length_seq.
    replace (r - total) with 0 by lia. simpl. now rewrite app_nil_r.
  - apply batches_returned in E1 as [Hc1 Hp1].
    unfold Training.evaluate.
    destruct (run_eval h (weights s1) test_x test_y) as [tc|e2];
      [discriminate|].
    intros [= <- <-]. cbn [calls printed]. split; [exact Hp1|].
    exists (total + 1). split; [lia|].
    rewrite firstn_all2
      by (unfold Training.epoch_calls;
          rewrite length_app, length_map, length_seq; simpl; lia).
    rewrite map_app, Hc1. unfold Training.epoch_calls. simpl.
    now rewrite <- app_assoc.
Qed.

Lemma run_epoch_every (epoch : nat) (s s' : session X Y net scalar rng) :
  display_step h = 1 ->
  run_epoch epoch s = (s', None) ->
  map forget_batch (calls s')
  = map forget_batch (calls s) ++ epoch_calls total epoch /\
  exists l, printed s' = printed s ++ [l] /\ line_number l = Some (epoch + 1).
Proof.
  intros Hd H.
  apply run_epoch_returned in H as [Hc [lines [Hp Hn]]].
  rewrite Hd, Nat.mod_1_r in Hc, Hn. cbn [Nat.eqb] in Hc, Hn.
  split; [exact Hc|].
  destruct lines as [|l [|l2 rest]]; try discriminate.
  exists l. split; [exact Hp|]. now injection Hn.
Qed.

Lemma epochs_raised (Hd : display_step h = 1) : forall (n a : nat)
    (s s' : session X Y net scalar rng) (e : pyerr),
  for_each run_epoch (seq a n) s = (s', Some e) ->
  exists j r lines,
    j < n /\ r <= total + 1 /\
    map forget_batch (calls s')
    = map forget_batch (calls s)
      ++ flat_map (epoch_calls total) (seq a j)
      ++ firstn r (epoch_calls total (a + j)) /\
    printed s' = printed s ++ lines /\
    map line_number lines = map Some (seq (a + 1) j).
Proof.
  induction n as [|n IH]; intros a s s' e H; [discriminate|].
  cbn [seq for_each] in H.
  destruct (run_epoch a s) as [s1 [e1|]] eqn:E1.
  - injection H as <- <-.
    apply (run_epoch_raised _ _ _ _ Hd) in E1 as [Hp [r [Hr Hc]]].
    exists 0, r, []. rewrite Nat.add_0_r, app_nil_r. simpl.
    repeat split; try assumption; lia.
  - apply (run_epoch_every _ _ _ Hd) in E1 as [Hc1 [l [Hp1 Hl]]].
    apply IH in H as [j [r [lines [Hj [Hr [Hc [Hp Hn]]]]]]].
    exists (S j), r, (l :: lines). split; [lia|]. split; [exact Hr|].
    split; [|split].
    + rewrite Hc, Hc1. cbn [seq flat_map].
      replace (a + S j) with (S a + j) by lia.
      now rewrite <- !app_assoc.
    + rewrite Hp, Hp1, <- app_assoc. reflexivity.
    + cbn [seq map]. rewrite Hl, Hn.
      replace (S a + 1) with (S (a + 1)) by lia. reflexivity.
Qed.

(** A cell that raises stopped in some epoch [j], after [r] of the calls of
    that epoch, and had printed the lines of the epochs before. *)
Lemma trace_raised (g : rng) (s : session X Y net scalar rng) (e : pyerr) :
  display_step h = 1 ->
  trace g = (s, Some e) ->
  exists j r,
    j < training_epochs h /\ r <= total + 1 /\
    map forget_batch (calls s)
    = RunInit :: flat_map (epoch_calls total) (seq 0 j)
      ++ firstn r (epoch_calls total j) /\
    map line_number (printed s) = map Some (seq 1 j).
Proof.
  intros Hd H. unfold Training.trace in H.
  destruct (for_each run_epoch (seq 0 (training_epochs h))
              {| weights := sess_init h; np_random := g;
                 calls := [RunInit]; printed := [] |})
    as [s1 [e1|]] eqn:E; [|discriminate].
  injection H as <- <-.
  apply (epochs_raised Hd) in E as [j [r [lines [Hj [Hr [Hc [Hp Hn]]]]]]].
  exists j, r. repeat split; try assumption.
  rewrite Hp. exact Hn.
Qed.

(** *** When the loop goes through *)

Hypothesis shuffle_permutes : forall g l, Permutation l (fst (shuffle g l)).
Hypothesis labelled : List.length data <= List.length labels.
Hypothesis train_returns :
  forall w batch_x batch_y, exists r, run_train h w batch_x batch_y = Ok r.

Lemma train_batch_ok (n epoch i : nat) (s : session X Y net scalar rng)
    (c : scalar) :
  exists s' c', train_batch n epoch i (s, c) = ((s', c'), None).
Proof.
  unfold Training.train_batch.
  destruct (BatchFacts.next_batch_total rng shuffle shuffle_permutes
              (batch_size h) data labels (np_random s) labelled)
    as [ds [ls Hok]].
  destruct (Batch.next_batch rng shuffle (batch_size h) data labels (np_random s))
    as [batch g]. simpl in Hok. subst batch. cbn [fst snd].
  destruct (train_returns (weights s) ds ls) as [r Hr]. rewrite Hr.
  eexists _, _. reflexivity.
Qed.

Lemma batches_ok (t epoch : nat) : forall (n a : nat)
    (s : session X Y net scalar rng) (c : scalar),
  exists s' c',
    for_each (train_batch t epoch) (seq a n) (s, c) = ((s', c'), None).
Proof.
  induction n as [|n IH]; intros a s c.
  - now exists s, c.
  - destruct (train_batch_ok t epoch a s c) as [s1 [c1 H1]].
    destruct (IH (S a) s1 c1) as [s2 [c2 H2]].
    exists s2, c2. cbn [seq for_each]. now rewrite H1.
Qed.

Hypothesis batch_size_positive : batch_size h <> 0.

(** The training steps of an epoch, up to the test on [display_step]. *)
Lemma epoch_steps (epoch : nat) (s : session X Y net scalar rng) :
  exists s1 c1,
    for_each (train_batch total epoch) (seq 0 total) (s, zero_cost)
    = ((s1, c1), None) /\
    run_epoch epoch s
    = match displayed h epoch with
      | Raise e => (s1, Some e)
      | Ok true => evaluate epoch s1 c1
      | Ok false => (s1, None)
      end.
Proof.
  destruct (batches_ok total epoch total 0 s zero_cost) as [s1 [c1 H1]].
  exists s1, c1. split; [exact H1|].
  unfold Training.run_epoch, total_batch_of.
  destruct (Nat.eqb_spec (batch_size h) 0) as [E|_]; [contradiction|].
  now rewrite H1.
Qed.

(** With a display step of zero the first epoch ends on the test
    [epoch % display_step], after its training steps. *)
Lemma zero_display_step_trace (g : rng) :
  display_step h = 0 -> training_epochs h <> 0 ->
  exists s,
    trace g = (s, Some ZeroDivisionError) /\
    map forget_batch (calls s)
    = RunInit :: map (fun i => RunTrain 0 i [] []) (seq 0 total) /\
    printed s = [].
Proof.
  intros Hd He. unfold Training.trace.
  destruct (training_epochs h) as [|k]; [contradiction|].
  cbn [seq for_each].
  destruct (epoch_steps 0 {| weights := sess_init h; np_random := g;
                             calls := [RunInit]; printed := [] |})
    as [s1 [c1 [H1 H2]]].
  rewrite H2. unfold displayed. rewrite Hd. cbn [Nat.eqb].
  apply batches_returned in H1 as [Hc Hp].
  exists s1. split; [reflexivity|]. split; [exact Hc | exact Hp].
Qed.

Hypothesis display_step_positive : display_step h <> 0.

(** When the first evaluation raises, the cell stops there: the training
    steps of the first epoch and that evaluation are all it has asked of
    the session, and it has printed nothing. *)
Lemma first_evaluation_raises (g : rng) (e : pyerr) :
  training_epochs h <> 0 ->
  (forall w, run_eval h w test_x test_y = Raise e) ->
  exists s,
    trace g = (s, Some e) /\
    map forget_batch (calls s) = RunInit :: epoch_calls total 0 /\
    printed s = [].
Proof.
  intros He Hraise. unfold Training.trace.
  destruct (training_epochs h) as [|k]; [contradiction|].
  cbn [seq for_each].
  destruct (epoch_steps 0 {| weights := sess_init h; np_random := g;
                             calls := [RunInit]; printed := [] |})
    as [s1 [c1 [H1 H2]]].
  rewrite H2. unfold displayed.
  destruct (Nat.eqb_spec (display_step h) 0) as [E|_]; [contradiction|].
  rewrite Nat.Div0.mod_0_l. cbn [Nat.eqb].
  unfold Training.evaluate. rewrite Hraise.
  apply batches_returned in H1 as [Hc Hp].
  eexists. split; [reflexivity|]. cbn [calls printed]. split; [|exact Hp].
  rewrite map_app, Hc. unfold Training.epoch_calls. reflexivity.
Qed.

Hypothesis eval_returns :
  forall w, exists c, run_eval h w test_x test_y = Ok c.

Lemma run_epoch_ok (epoch : nat) (s : session X Y net scalar rng) :
  exists s', run_epoch epoch s = (s', None).
Proof.
  destruct (epoch_steps epoch s) as [s1 [c1 [_ H2]]]. rewrite H2.
  unfold displayed.
  destruct (Nat.eqb_spec (display_step h) 0) as [E|_]; [contradiction|].
  destruct (epoch mod display_step h =? 0); [|now exists s1].
  unfold Training.evaluate.
  destruct (eval_returns (weights s1)) as [t Ht]. rewrite Ht.
  eexists. reflexivity.
Qed.

Lemma epochs_ok : forall (n a : nat) (s : session X Y net scalar rng),
  exists s', for_each run_epoch (seq a n) s = (s', None).
Proof.
  induction n as [|n IH]; intros a s.
  - now exists s.
  - destruct (run_epoch_ok a s) as [s1 H1].
    destruct (IH (S a) s1) as [s2 H2].
    exists s2. cbn [seq for_each]. now rewrite H1.
Qed.

(** The whole block goes through when the session calls return. *)
Lemma train_ok (g : rng) : exists s, train g = Ok s.
Proof.
  unfold Training.train, Training.trace.
  destruct (epochs_ok (training_epochs h) 0
              {| weights := sess_init h; np_random := g;
                 calls := [RunInit]; printed := [] |}) as [s H].
  rewrite H. eexists. reflexivity.
Qed.

End Loop.

(** With an evaluation after every epoch, the calls of the epochs. *)
Lemma steps_every_epoch (X Y : Type) (test_x : list X) (test_y : list Y)
    (t n : nat) :
  flat_map
    (fun e =>
       map (fun i => @RunTrain X Y e i [] []) (seq 0 t)
       ++ (if e mod 1 =? 0 then [RunEval e test_x test_y] else []))
    (seq 0 n)
  = flat_map (epoch_calls X Y test_x test_y t) (seq 0 n).
Proof.
  apply flat_map_ext. intros e. now rewrite Nat.mod_1_r.
Qed.

Lemma lines_every_epoch (n : nat) :
  map (fun e => Some (e + 1)) (filter (fun e => e mod 1 =? 0) (seq 0 n))
  = map Some (seq 1 n).
Proof.
  rewrite <- seq_shift, map_map.
  replace (filter (fun e => e mod 1 =? 0) (seq 0 n)) with (seq 0 n).
  - apply map_ext. intros e. f_equal. lia.
  - symmetry. apply forallb_filter_id. apply forallb_forall.
    intros e _. now rewrite Nat.mod_1_r.
Qed.




End TrainingFacts.

Module NotebookFacts.
Import Matrix Notebook.
Local Open Scope string_scope.

#[local] Arguments Dimension.cell7_m : simpl never.
#[local] Arguments Training.train : simpl never.
#[local] Arguments Matrix.dot : simpl never.
#[local] Arguments Matrix.transpose : simpl never.
#[local] Arguments Notebook.np_reciprocal : simpl never.
#[local] Arguments Notebook.np_sqrt : simpl never.

(** One step of symbolic execution of a cell that returned. *)
Ltac step H :=
  match type of H with
  | bind ?r _ = Ok _ =>
      let E := fresh "E" in destruct r eqn:E; [simpl in H | discriminate H]
  | (let (_, _) := ?p in _) = Ok _ =>
      let E := fresh "E" in destruct p eqn:E; simpl in H
  | match ?o with Some _ => _ | None => _ end = Ok _ =>
      let E := fresh "E" in destruct o eqn:E; [simpl in H | discriminate H]
  end.

Ltac exec E := repeat (step E); injection E as E; subst.

Section Run.

Variable F : Type.
Variables (zero one : F) (add mul : F -> F -> F).
Variable rnd : R -> R.
Variables corpus vectorizer : Type.
Variable fit_transform : corpus -> result (vectorizer * ndarray F).
Variable transform : vectorizer -> corpus -> result (ndarray F).
Variable rng : Type.
Variable shuffle : rng -> list nat -> list nat * rng.
Variable srp_fit : Z -> npfloat -> ndarray F -> rng -> result (ndarray F) * rng.
Variable one_hot_labels : nat -> list Z -> result (ndarray F).
Variables net scalar : Type.
Variable sess_init : Training.hyper -> net.
Variable run_train :
  Training.hyper -> net -> list (list F) -> list (list F) -> result (net * scalar).
Variable run_eval :
  Training.hyper -> net -> list (list F) -> list (list F) -> result scalar.
Variable run_accuracy :
  Training.hyper -> net -> list (list F) -> list (list F) -> scalar.
Variable zero_cost : scalar.
Variable accumulate : scalar -> scalar -> nat -> scalar.
Variable disk : files corpus.

Local Abbreviation state := (notebook F corpus vectorizer rng scalar).
Local Abbreviation all_cells :=
  (all_cells F zero add mul rnd corpus vectorizer fit_transform transform rng
     shuffle srp_fit one_hot_labels net scalar sess_init run_train run_eval
     run_accuracy zero_cost accumulate disk).
Local Abbreviation cells_to_projection :=
  (cells_to_projection F zero add mul rnd corpus vectorizer fit_transform
     transform rng srp_fit one_hot_labels scalar disk).
Local Abbreviation cells_after_fit :=
  (cells_after_fit F zero add mul corpus vectorizer transform rng shuffle
     one_hot_labels net scalar sess_init run_train run_eval run_accuracy
     zero_cost accumulate disk).
Local Abbreviation run_cells := (run_cells F corpus vectorizer rng scalar).
Local Abbreviation start := (start F corpus vectorizer rng scalar).
Local Abbreviation lookup_array :=
  (lookup F corpus vectorizer rng scalar (as_array F corpus vectorizer)).
Local Abbreviation lookup_int :=
  (lookup F corpus vectorizer rng scalar (as_int F corpus vectorizer)).
Local Abbreviation rp_components :=
  (rp_components F corpus vectorizer rng scalar).
Local Abbreviation dot := (dot F zero add mul).
Local Abbreviation cell7 := (cell7 F rnd corpus vectorizer rng scalar).
Local Abbreviation bind_name := (bind_name F corpus vectorizer rng scalar).
Local Abbreviation m_after_cell7 :=
  (m_after_cell7 F rnd corpus vectorizer rng scalar).

(** No cell after the fit draws a matrix or rebinds [rp]. *)
Lemma later_cells_keep_projection (c : state -> result state) (st st' : state) :
  In c cells_after_fit -> c st = Ok st' ->
  drawn _ _ _ _ _ st' = drawn _ _ _ _ _ st /\ rp_components st' = rp_components st.
Proof.
  intros Hin E. unfold Notebook.cells_after_fit in Hin. simpl in Hin.
  unfold Notebook.rp_components, lookup.
  repeat (destruct Hin as [<-|Hin]); try contradiction;
    unfold cell9, cell10, cell11, cell12, cell13, cell14, cell15, cell16,
      cell17, cell18, cell19, cell20, cell21, training_cell, project in E;
    exec E; simpl; split; reflexivity.
Qed.

Lemma run_cells_cons (c : state -> result state)
    (cs : list (state -> result state)) (st final : state) :
  run_cells (c :: cs) st = Ok final ->
  exists st', c st = Ok st' /\ run_cells cs st' = Ok final.
Proof.
  simpl. destruct (c st) as [st'|e]; [|discriminate].
  intros H. now exists st'.
Qed.

(** The cells that leave an array where they found it (those of [cell15]
    and [cell19] bind the name again, to the same array). *)
Lemma arrays_kept (x : string) (c : state -> result state) (st st' : state)
    (v : ndarray F) :
  In (x, c)
    [("tfidf", Notebook.cell7 F rnd corpus vectorizer rng scalar);
     ("tfidf", cell8 F rnd corpus vectorizer rng srp_fit scalar);
     ("tfidf", cell9 F corpus vectorizer rng scalar);
     ("tfidf", cell10 F corpus vectorizer rng scalar);
     ("tfidf", cell11 F zero add mul corpus vectorizer rng scalar);
     ("tfidf", cell12 F zero corpus vectorizer rng scalar);
     ("tfidf", cell13 F corpus vectorizer rng scalar);
     ("tfidf", cell14 F corpus vectorizer rng one_hot_labels scalar);
     ("tfidf", cell15 F corpus vectorizer rng scalar);
     ("tfidf", cell16 F corpus vectorizer transform rng scalar disk);
     ("tfidf", cell17 F zero add mul corpus vectorizer rng scalar);
     ("tfidf", cell18 F corpus vectorizer rng one_hot_labels scalar);
     ("tfidf", cell19 F corpus vectorizer rng scalar);
     ("M_prime", cell13 F corpus vectorizer rng scalar);
     ("M_prime", cell14 F corpus vectorizer rng one_hot_labels scalar);
     ("M_prime", cell15 F corpus vectorizer rng scalar);
     ("M_prime", cell16 F corpus vectorizer transform rng scalar disk);
     ("M_prime", cell17 F zero add mul corpus vectorizer rng scalar);
     ("M_prime", cell18 F corpus vectorizer rng one_hot_labels scalar);
     ("M_prime", cell19 F corpus vectorizer rng scalar);
     ("tfidf_test", cell17 F zero add mul corpus vectorizer rng scalar);
     ("tfidf_test", cell18 F corpus vectorizer rng one_hot_labels scalar);
     ("tfidf_test", cell19 F corpus vectorizer rng scalar);
     ("M_prime_test", cell18 F corpus vectorizer rng one_hot_labels scalar);
     ("M_prime_test", cell19 F corpus vectorizer rng scalar)] ->
  c st = Ok st' -> lookup_array x st = Ok v -> lookup_array x st' = Ok v.
Proof.
  intros Hin E Hv. simpl in Hin.
  repeat (destruct Hin as [[= <- <-]|Hin]); try contradiction;
    unfold Notebook.cell7, cell8, cell9, cell10, cell11, cell12, cell13,
      cell14, cell15, cell16, cell17, cell18, cell19, project in E;
    exec E; unfold lookup, Notebook.bind_name, assign in *; simpl in *; congruence.
Qed.

(** A training cell binds no name. *)
Lemma training_keeps_globals (make : nat -> Training.hyper)
    (train test : string) (st st' : state) :
  training_cell F corpus vectorizer rng shuffle net scalar sess_init run_train
    run_eval run_accuracy zero_cost accumulate make train test st = Ok st' ->
  globals _ _ _ _ _ st' = globals _ _ _ _ _ st.
Proof. intros E. unfold training_cell in E. exec E. reflexivity. Qed.

Lemma cell5_effect (st st' : state) :
  cell5 F corpus vectorizer fit_transform rng scalar
    (bind_name "labels" (VLabels F corpus vectorizer (art_filt_labels _ disk))
       (bind_name "articulos" (VCorpus F corpus vectorizer (art_filt _ disk)) st))
  = Ok st' ->
  np_random _ _ _ _ _ st' = np_random _ _ _ _ _ st /\
  drawn _ _ _ _ _ st' = drawn _ _ _ _ _ st /\
  exists tfidf, lookup_array "tfidf" st' = Ok tfidf.
Proof.
  intros E. unfold cell5 in E. exec E.
  repeat split. eexists. unfold lookup, Notebook.bind_name, assign. simpl.
  reflexivity.
Qed.

Lemma cell7_effect (st st' : state) :
  Notebook.cell7 F rnd corpus vectorizer rng scalar st = Ok st' ->
  np_random _ _ _ _ _ st' = np_random _ _ _ _ _ st /\
  drawn _ _ _ _ _ st' = drawn _ _ _ _ _ st.
Proof. intros E. unfold Notebook.cell7 in E. exec E. now split. Qed.

(** Cell 8 draws one matrix, for the array bound to [tfidf], and binds it
    to [rp.components_]. *)
Lemma cell8_effect (st st' : state) (tfidf : ndarray F) :
  lookup_array "tfidf" st = Ok tfidf ->
  cell8 F rnd corpus vectorizer rng srp_fit scalar st = Ok st' ->
  exists (A : ndarray F) (m : Z) (d : npfloat),
    fst (srp_fit m d tfidf (np_random _ _ _ _ _ st)) = Ok A /\
    drawn _ _ _ _ _ st' = (drawn _ _ _ _ _ st ++ [A])%list /\
    rp_components st' = Ok A.
Proof.
  intros Hv E. unfold cell8 in E. exec E.
  unfold Notebook.rp_components, lookup, Notebook.bind_name, assign in *.
  simpl in *.
  match goal with
  | Hfit : srp_fit ?m ?d ?X _ = (Ok ?A, _) |- _ =>
      exists A, m, d; assert (X = tfidf) by congruence; subst X; rewrite Hfit
  end.
  repeat split.
Qed.

(** Cells 11 and 17 multiply by the matrix bound to [rp.components_]. *)
Lemma cell11_effect (st st' : state) (A X : ndarray F) :
  rp_components st = Ok A -> lookup_array "tfidf" st = Ok X ->
  cell11 F zero add mul corpus vectorizer rng scalar st = Ok st' ->
  exists Mp, dot A (transpose zero X) = Ok Mp /\
             lookup_array "M_prime" st' = Ok Mp.
Proof.
  intros HA HX E. unfold cell11, project in E.
  rewrite HX in E. simpl in E. rewrite HA in E. simpl in E. exec E.
  eexists. split; [reflexivity|].
  unfold lookup, Notebook.bind_name, assign. reflexivity.
Qed.

Lemma cell12_effect (st st' : state) (Mp : ndarray F) :
  lookup_array "M_prime" st = Ok Mp ->
  cell12 F zero corpus vectorizer rng scalar st = Ok st' ->
  lookup_array "M_prime" st' = Ok (transpose zero Mp).
Proof.
  intros HM E. unfold cell12 in E. rewrite HM in E. simpl in E.
  injection E as <-. unfold lookup, Notebook.bind_name, assign. reflexivity.
Qed.

Lemma cell16_effect (st st' : state) :
  cell16 F corpus vectorizer transform rng scalar disk st = Ok st' ->
  exists Xt, lookup_array "tfidf_test" st' = Ok Xt.
Proof.
  intros E. unfold cell16 in E. exec E.
  eexists. unfold lookup, Notebook.bind_name, assign. simpl. reflexivity.
Qed.

Lemma cell17_effect (st st' : state) (A Xt : ndarray F) :
  rp_components st = Ok A -> lookup_array "tfidf_test" st = Ok Xt ->
  cell17 F zero add mul corpus vectorizer rng scalar st = Ok st' ->
  exists Mpt, dot A (transpose zero Xt) = Ok Mpt /\
              lookup_array "M_prime_test" st' = Ok (transpose zero Mpt).
Proof.
  intros HA HX E. unfold cell17, project in E.
  rewrite HX in E. simpl in E. rewrite HA in E. simpl in E. exec E.
  eexists. split; [reflexivity|].
  unfold lookup, Notebook.bind_name, assign. reflexivity.
Qed.

Lemma training_keeps_array (make : nat -> Training.hyper)
    (train test x : string) (st st' : state) (v : ndarray F) :
  training_cell F corpus vectorizer rng shuffle net scalar sess_init run_train
    run_eval run_accuracy zero_cost accumulate make train test st = Ok st' ->
  lookup_array x st = Ok v -> lookup_array x st' = Ok v.
Proof.
  intros E Hv. unfold lookup in *.
  now rewrite (training_keeps_globals _ _ _ _ _ E).
Qed.

Ltac in_list := simpl; repeat (first [left; reflexivity | right]).

Ltac keep_projection E Hd HA :=
  let Hd' := fresh "Hd" in
  let HA' := fresh "HA" in
  lazymatch type of E with
  | ?c ?st = Ok ?st' =>
      assert (Hd' : drawn _ _ _ _ _ st' = drawn _ _ _ _ _ st
                    /\ rp_components st' = rp_components st)
        by (apply (later_cells_keep_projection c st st'); [in_list | exact E]);
      destruct Hd' as [Hd' HA']
  end;
  rewrite Hd in Hd'; rewrite HA in HA'; clear Hd HA;
  rename Hd' into Hd; rename HA' into HA.

Ltac keep_array x E H :=
  let H' := fresh "H" in
  lazymatch type of E with
  | ?c ?st = Ok ?st' =>
      lazymatch type of H with
      | _ = Ok ?v =>
          assert (H' : lookup_array x st' = Ok v)
            by first
                 [ exact (training_keeps_array _ _ _ x _ _ _ E H)
                 | apply (arrays_kept x c st st' v); [in_list | exact E | exact H] ]
      end
  end;
  clear H; rename H' into H.

(** The run up to the projection of the test set, cell by cell. *)
Lemma projection_outcome (g : rng) (st : state) :
  run_cells cells_to_projection (start g) = Ok st ->
  exists (A tfidf tfidf_test Mp Mpt : ndarray F) (m : Z) (d : npfloat),
    lookup_array "tfidf" st = Ok tfidf /\
    lookup_array "tfidf_test" st = Ok tfidf_test /\
    fst (srp_fit m d tfidf g) = Ok A /\
    drawn _ _ _ _ _ st = [A] /\
    rp_components st = Ok A /\
    dot A (transpose zero tfidf) = Ok Mp /\
    lookup_array "M_prime" st = Ok (transpose zero Mp) /\
    dot A (transpose zero tfidf_test) = Ok Mpt /\
    lookup_array "M_prime_test" st = Ok (transpose zero Mpt).
Proof.
  intros H. unfold Notebook.cells_to_projection in H.
  apply run_cells_cons in H as [s4 [E4 H]].
  apply run_cells_cons in H as [s5 [E5 H]].
  apply run_cells_cons in H as [s7 [E7 H]].
  apply run_cells_cons in H as [s8 [E8 H]].
  apply run_cells_cons in H as [s9 [E9 H]].
  apply run_cells_cons in H as [s10 [E10 H]].
  apply run_cells_cons in H as [s11 [E11 H]].
  apply run_cells_cons in H as [s12 [E12 H]].
  apply run_cells_cons in H as [s13 [E13 H]].
  apply run_cells_cons in H as [s14 [E14 H]].
  apply run_cells_cons in H as [s15 [E15 H]].
  apply run_cells_cons in H as [s16 [E16 H]].
  apply run_cells_cons in H as [s17 [E17 H]].
  injection H as <-.
  (* cells 4 to 8: the training matrix, then the fit *)
  unfold cell4 in E4. injection E4 as <-.
  destruct (cell5_effect _ _ E5) as [Hg5 [Hd5 [X HX]]].
  destruct (cell7_effect _ _ E7) as [Hg7 Hd7].
  keep_array "tfidf" E7 HX.
  destruct (cell8_effect _ _ X HX E8) as [A [m [d [Hfit [Hd HA]]]]].
  rewrite Hg7, Hg5 in Hfit. rewrite Hd7, Hd5 in Hd. simpl in Hfit, Hd.
  keep_array "tfidf" E8 HX.
  keep_projection E9 Hd HA. keep_array "tfidf" E9 HX.
  keep_projection E10 Hd HA. keep_array "tfidf" E10 HX.
  (* cells 11 and 12: the reduced training matrix *)
  destruct (cell11_effect _ _ A X HA HX E11) as [Mp [Hdot HM]].
  keep_projection E11 Hd HA. keep_array "tfidf" E11 HX.
  apply (cell12_effect _ _ Mp HM) in E12 as HM'. clear HM.
  keep_projection E12 Hd HA. keep_array "tfidf" E12 HX.
  keep_projection E13 Hd HA. keep_array "tfidf" E13 HX. keep_array "M_prime" E13 HM'.
  keep_projection E14 Hd HA. keep_array "tfidf" E14 HX. keep_array "M_prime" E14 HM'.
  keep_projection E15 Hd HA. keep_array "tfidf" E15 HX. keep_array "M_prime" E15 HM'.
  (* cells 16 and 17: the test matrix and its reduction *)
  destruct (cell16_effect _ _ E16) as [Xt HXt].
  keep_projection E16 Hd HA. keep_array "tfidf" E16 HX. keep_array "M_prime" E16 HM'.
  destruct (cell17_effect _ _ A Xt HA HXt E17) as [Mpt [Hdot' HMt]].
  keep_projection E17 Hd HA. keep_array "tfidf" E17 HX.
  keep_array "M_prime" E17 HM'. keep_array "tfidf_test" E17 HXt.
  exists A, X, Xt, Mp, Mpt, m, d. repeat split; assumption.
Qed.

(** C2.  In a run of the notebook that reaches the projection of the test
    set (cells 4 to 17), [rp.fit] has drawn exactly one matrix, from the
    shape of the training matrix; that matrix is still the one bound to
    [rp.components_], and it is the left factor of both products, the one
    giving [M_prime] from the training matrix and the one giving
    [M_prime_test] from the test matrix.  No cell after the fit, the
    one-hot cells, [next_batch] and the training cells included, draws
    another matrix or changes [rp], from whatever state it is run. *)
Theorem projection_fitted_once (g : rng) (st : state) :
  run_cells cells_to_projection (start g) = Ok st ->
  (exists (A tfidf tfidf_test Mp Mpt : ndarray F) (m : Z) (d : npfloat),
     lookup_array "tfidf" st = Ok tfidf /\
     lookup_array "tfidf_test" st = Ok tfidf_test /\
     fst (srp_fit m d tfidf g) = Ok A /\
     drawn _ _ _ _ _ st = [A] /\
     rp_components st = Ok A /\
     dot A (transpose zero tfidf) = Ok Mp /\
     lookup_array "M_prime" st = Ok (transpose zero Mp) /\
     dot A (transpose zero tfidf_test) = Ok Mpt /\
     lookup_array "M_prime_test" st = Ok (transpose zero Mpt))
  /\ forall (c : state -> result state) (st st' : state),
       In c cells_after_fit -> c st = Ok st' ->
       drawn _ _ _ _ _ st' = drawn _ _ _ _ _ st /\
       rp_components st' = rp_components st.
Proof.
  intros H. split.
  - now apply projection_outcome.
  - apply later_cells_keep_projection.
Qed.

(** Cell 7 reads [p] and nothing else. *)
Lemma m_after_cell7_reads_p (st : state) :
  m_after_cell7 st = (p <- lookup_int "p" st ;; Dimension.cell7_m rnd p).
Proof.
  unfold Notebook.m_after_cell7, Notebook.cell7, lookup. simpl.
  unfold assign. simpl.
  destruct (globals _ _ _ _ _ st "p") as [v|]; [|reflexivity].
  destruct (as_int F corpus vectorizer v) as [p|]; [|reflexivity].
  simpl. destruct (Dimension.cell7_m rnd p); reflexivity.
Qed.

(** C3 (amended).  Cell 7 has no check on degenerate sizes.  It never reads
    [n]: rebinding [n] to any value leaves the [m] it computes unchanged.
    With a single document ([p = 1]) it returns [m = 1] and raises nothing;
    it returns for every [p >= 1]; with no document at all ([p = 0]) it
    raises the [OverflowError] of [int] applied to [-inf]. *)
Theorem degenerate_sizes_unchecked (st : state)
    (nv : value F corpus vectorizer) :
  Dimension.accurate (1 / 1000000) rnd ->
  m_after_cell7 (bind_name "n" nv st) = m_after_cell7 st /\
  (lookup_int "p" st = Ok 1%Z -> m_after_cell7 st = Ok 1%Z) /\
  (forall p, (1 <= p)%Z -> lookup_int "p" st = Ok p ->
             exists m, m_after_cell7 st = Ok m) /\
  (lookup_int "p" st = Ok 0%Z -> m_after_cell7 st = Raise OverflowError).
Proof.
  intros Hacc. rewrite !m_after_cell7_reads_p. repeat split.
  - intros Hp. rewrite Hp. simpl. now apply DimensionFacts.cell7_at_one.
  - intros p Hp Hl. rewrite Hl. simpl.
    apply DimensionFacts.cell7_returns; [exact Hacc | lia].
  - intros Hp. rewrite Hp. simpl. apply DimensionFacts.cell7_at_zero.
Qed.

End Run.

(** C3 as written fails: with one document and one term bound, cell 7
    returns [m = 1] and raises no error; with three documents and a single
    term it returns [m = 110] and raises no error. *)
Lemma degenerate_sizes_give_m :
  (Notebook.m_after_cell7 Z Dimension.exact Toy.corpus unit nat nat
     Toy.single_document = Ok 1%Z
   /\ forall e : pyerr,
        Notebook.m_after_cell7 Z Dimension.exact Toy.corpus unit nat nat
          Toy.single_document <> Raise e)
  /\ (Notebook.m_after_cell7 Z Dimension.exact Toy.corpus unit nat nat
        Toy.single_term = Ok 110%Z
      /\ forall e : pyerr,
           Notebook.m_after_cell7 Z Dimension.exact Toy.corpus unit nat nat
             Toy.single_term <> Raise e).
Proof.
  assert (H1 : Notebook.m_after_cell7 Z Dimension.exact Toy.corpus unit nat nat
                 Toy.single_document = Ok 1%Z).
  { rewrite m_after_cell7_reads_p. unfold Toy.single_document, lookup. simpl.
    apply DimensionFacts.cell7_at_one, DimensionFacts.exact_accurate. lra. }
  assert (H3 : Notebook.m_after_cell7 Z Dimension.exact Toy.corpus unit nat nat
                 Toy.single_term = Ok 110%Z).
  { rewrite m_after_cell7_reads_p. unfold Toy.single_term, lookup. simpl.
    apply DimensionFacts.cell7_m_exact_3. }
  split; (split; [assumption|]); intros e.
  - rewrite H1. discriminate.
  - rewrite H3. discriminate.
Qed.

Lemma degenerate_sizes_unchecked_witness :
  Dimension.accurate (1 / 1000000) Dimension.exact /\
  Notebook.m_after_cell7 Z Dimension.exact Toy.corpus unit nat nat
    (Notebook.bind_name Z Toy.corpus unit nat nat "n"
       (VInt Z Toy.corpus unit 0) Toy.single_document)
  = Notebook.m_after_cell7 Z Dimension.exact Toy.corpus unit nat nat
      Toy.single_document.
Proof.
  assert (Hacc : Dimension.accurate (1 / 1000000) Dimension.exact)
    by (apply DimensionFacts.exact_accurate; lra).
  split; [exact Hacc|].
  exact (proj1 (degenerate_sizes_unchecked Z Dimension.exact Toy.corpus unit
                  nat nat Toy.single_document (VInt Z Toy.corpus unit 0) Hacc)).
Defined.

(** Running one cell of the toy notebook. *)
Ltac run_cell :=
  lazymatch goal with
  | |- exists f, Notebook.run_cells ?F ?c ?v ?r ?s (?cell :: ?rest) ?st = Ok f =>
      change (exists f, bind (cell st) (Notebook.run_cells F c v r s rest) = Ok f);
      let k := fresh "k" in
      let Ek := fresh "Ek" in
      remember (Notebook.run_cells F c v r s rest) as k eqn:Ek;
      unfold cell4, cell5, Notebook.cell7, cell8, cell9, cell10, cell11,
        cell12, cell13, cell14, cell15, cell16, cell17, cell18, cell19,
        project, Notebook.rp_components;
      simpl;
      unfold Matrix.dot, Matrix.transpose; simpl;
      try match goal with
          | Hm : Dimension.cell7_m _ _ = Ok _ |- _ => rewrite Hm; simpl
          end;
      subst k
  end.

(** The toy notebook runs up to the projection of its test set. *)
Lemma toy_projection_returns :
  exists st,
    Notebook.run_cells Z Toy.corpus unit nat nat Toy.cells_to_projection
      Toy.fresh
    = Ok st.
Proof.
  destruct (DimensionFacts.cell7_returns Dimension.exact 4) as [m Hm].
  { apply DimensionFacts.exact_accurate. lra. }
  { reflexivity. }
  unfold Toy.cells_to_projection, Notebook.cells_to_projection, Toy.fresh.
  do 13 run_cell.
  eexists. reflexivity.
Qed.

Lemma projection_fitted_once_witness :
  exists st,
    Notebook.run_cells Z Toy.corpus unit nat nat Toy.cells_to_projection
      Toy.fresh
    = Ok st /\
    exists A, drawn _ _ _ _ _ st = [A] /\
              Notebook.rp_components Z Toy.corpus unit nat nat st = Ok A.
Proof.
  destruct toy_projection_returns as [st Hrun].
  exists st. split; [exact Hrun|].
  destruct (proj1 (projection_fitted_once Z 0%Z Z.add Z.mul Dimension.exact
                     Toy.corpus unit Toy.fit_transform Toy.transform nat
                     Batch.reversing Toy.srp_fit Toy.one_hot_labels nat nat
                     Toy.sess_init Toy.run_train Toy.run_eval Toy.run_accuracy
                     0%nat Toy.accumulate Toy.disk 0%nat st Hrun))
    as [A [_ [_ [_ [_ [_ [_ [_ [_ [_ [Hd [Hc _]]]]]]]]]]]].
  exists A. now split.
Defined.

End NotebookFacts.


(** * Further properties of the arrays, the batches, the loops and the cells *)

Module ShapeFacts.
Import Matrix.

Section Shapes.

Variable F : Type.
Variables (zero : F) (add mul : F -> F -> F).

Local Abbreviation inner := (inner F zero add mul).
Local Abbreviation dot := (dot F zero add mul).

Lemma nth_nil (j : nat) : nth j (@nil F) zero = zero.
Proof. now destruct j. Qed.

Lemma map_nth_seq_rows (l : list (list F)) :
  map (fun i => nth i l []) (seq 0 (List.length l)) = l.
Proof.
  apply nth_ext with (d := []) (d' := []).
  - now rewrite length_map, length_seq.
  - intros k Hk. rewrite length_map, length_seq in Hk.
    rewrite (nth_indep _ [] (nth 0 l [])) by now rewrite length_map, length_seq.
    rewrite (map_nth (fun i => nth i l [])), seq_nth by exact Hk.
    reflexivity.
Qed.

(** A column of the transpose is a row of the array. *)
Lemma column_of_transpose (A : ndarray F) (i : nat) :
  List.length (nth i (rows A) []) = ncols A ->
  column zero i (transpose zero A) = nth i (rows A) [].
Proof.
  intros Hlen. unfold column, transpose. simpl. rewrite map_map.
  rewrite <- (MatrixFacts.map_nth_seq F zero (nth i (rows A) [])).
  rewrite Hlen. apply map_ext. intros j. unfold column.
  rewrite <- (nth_nil j) at 1.
  now rewrite (map_nth (fun r => nth j r zero)).
Qed.

Lemma well_shaped_nth (A : ndarray F) (i : nat) :
  well_shaped A -> (i < nrows A)%nat ->
  List.length (nth i (rows A) []) = ncols A.
Proof.
  intros Hwf Hi. unfold well_shaped in Hwf. rewrite Forall_forall in Hwf.
  apply Hwf. now apply nth_In.
Qed.

(** The transpose always has the shape it announces. *)
Lemma transpose_well_shaped (A : ndarray F) : well_shaped (transpose zero A).
Proof.
  unfold well_shaped, transpose. simpl. apply Forall_forall. intros r Hr.
  apply in_map_iff in Hr as [j [<- _]]. unfold column, nrows.
  now rewrite length_map.
Qed.

(** X1.  Transposing twice gives back a well-shaped array, whatever its
    shape, rows or columns missing included. *)
Theorem transpose_involutive (A : ndarray F) :
  well_shaped A -> transpose zero (transpose zero A) = A.
Proof.
  intros Hwf. destruct A as [n rs].
  unfold transpose at 1. simpl ncols.
  replace (nrows (transpose zero {| ncols := n; rows := rs |})) with n
    by (unfold nrows, transpose; simpl; now rewrite length_map, length_seq).
  f_equal. unfold nrows. simpl rows.
  rewrite <- (map_nth_seq_rows rs) at 2.
  apply map_ext_in. intros i Hi. apply in_seq in Hi.
  apply (column_of_transpose {| ncols := n; rows := rs |}).
  apply well_shaped_nth; [exact Hwf | unfold nrows; simpl; lia].
Qed.

(** X2.  [np.dot(A, B)] returns exactly when [A] has as many columns as
    [B] has rows; the product then has the rows of [A], the columns of [B]
    and every row of that width.  Otherwise it raises [ValueError]. *)
Theorem dot_shape (A B : ndarray F) :
  (ncols A = nrows B ->
   exists D, dot A B = Ok D /\ nrows D = nrows A /\ ncols D = ncols B /\
             well_shaped D)
  /\ (ncols A <> nrows B -> dot A B = Raise ValueError).
Proof.
  unfold Matrix.dot. split.
  - intros E. rewrite E, Nat.eqb_refl. eexists. split; [reflexivity|].
    unfold nrows, well_shaped. simpl. rewrite length_map.
    repeat split. apply Forall_forall. intros r Hr.
    apply in_map_iff in Hr as [x [<- _]]. now rewrite length_map, length_seq.
  - intros N. apply Nat.eqb_neq in N. now rewrite N.
Qed.

Local Abbreviation project_row := (Project.project_row F zero add mul).

(** The transposed product, row by row. *)
Lemma product_rows (A X : ndarray F) :
  well_shaped X -> ncols A = ncols X ->
  exists D,
    dot A (transpose zero X) = Ok D /\
    transpose zero D
    = {| ncols := nrows A; rows := map (project_row A) (rows X) |}.
Proof.
  intros Hwf Hn. unfold Matrix.dot.
  replace (nrows (transpose zero X)) with (ncols X)
    by (unfold nrows, transpose; simpl; now rewrite length_map, length_seq).
  rewrite Hn, Nat.eqb_refl. eexists. split; [reflexivity|].
  unfold transpose at 1. simpl ncols. unfold nrows at 1. simpl rows.
  rewrite length_map. fold (nrows A). f_equal.
  replace (ncols (transpose zero X)) with (nrows X) by reflexivity.
  transitivity (map (project_row A)
                  (map (fun i => nth i (rows X) []) (seq 0 (nrows X))));
    [|unfold nrows; now rewrite map_nth_seq_rows].
  rewrite map_map. apply map_ext_in. intros i Hi. apply in_seq in Hi.
  unfold column at 1, Project.project_row. simpl rows. rewrite map_map.
  apply map_ext. intros r.
  rewrite (nth_indep _ zero (inner r (column zero 0 (transpose zero X))))
    by (rewrite length_map, length_seq; lia).
  rewrite (map_nth (fun j => inner r (column zero j (transpose zero X)))).
  rewrite seq_nth by lia. simpl.
  rewrite column_of_transpose; [reflexivity|].
  apply well_shaped_nth; [exact Hwf | lia].
Qed.

(** X3.  With as many columns in the projection matrix [A] as in the
    document matrix [X], the product [np.dot(A, X.T)] returns, and its
    transpose has one row per document and one column per row of [A]: the
    row of a document is its own projection, whatever the other documents
    are. *)
Theorem projection_is_row_by_row (A X : ndarray F) :
  well_shaped X -> ncols A = ncols X ->
  exists D,
    dot A (transpose zero X) = Ok D /\
    transpose zero D
    = {| ncols := nrows A; rows := map (project_row A) (rows X) |}.
Proof. apply product_rows. Qed.

End Shapes.

Lemma transpose_involutive_witness :
  let A := {| ncols := 3; rows := [[2; 0; -3]; [0; 5; 7]]%Z |} in
  well_shaped A /\ transpose 0%Z (transpose 0%Z A) = A.
Proof.
  intros A.
  assert (Hwf : well_shaped A) by (unfold well_shaped, A; simpl; repeat constructor).
  split; [exact Hwf|].
  exact (transpose_involutive Z 0%Z A Hwf).
Defined.

Lemma projection_is_row_by_row_witness :
  let A := {| ncols := 2; rows := [[1; 1]]%Z |} in
  let X := {| ncols := 2; rows := [[1; 0]; [0; 1]; [2; 1]]%Z |} in
  well_shaped X /\ ncols A = ncols X /\
  exists D,
    Matrix.dot Z 0%Z Z.add Z.mul A (transpose 0%Z X) = Ok D /\
    transpose 0%Z D
    = {| ncols := nrows A;
         rows := map (Project.project_row Z 0%Z Z.add Z.mul A) (rows X) |}.
Proof.
  intros A X.
  assert (Hwf : well_shaped X) by (unfold well_shaped, X; simpl; repeat constructor).
  split; [exact Hwf|]. split; [reflexivity|].
  exact (projection_is_row_by_row Z 0%Z Z.add Z.mul A X Hwf eq_refl).
Defined.

Lemma dot_shape_witness :
  let A := {| ncols := 2; rows := [[1; 1]]%Z |} in
  let B := {| ncols := 1; rows := [[2]; [3]]%Z |} in
  ncols A = nrows B /\
  exists D, Matrix.dot Z 0%Z Z.add Z.mul A B = Ok D /\ nrows D = nrows A /\
            ncols D = ncols B /\ well_shaped D.
Proof.
  intros A B. split; [reflexivity|].
  exact (proj1 (dot_shape Z 0%Z Z.add Z.mul A B) eq_refl).
Defined.

End ShapeFacts.

Module BatchMore.
Import Batch.
Local Open Scope nat_scope.

(** *** What [gather] raises *)

Lemma gather_raises {A : Type} (l : list A) (idx : list nat) :
  Exists (fun i => List.length l <= i) idx -> gather l idx = Raise IndexError.
Proof.
  induction idx as [|i idx IH]; intros H; [inversion H|].
  simpl. unfold item. destruct (nth_error l i) as [a|] eqn:E; [|reflexivity].
  simpl. inversion H as [? ? Hi|? ? Hrest]; subst.
  - apply nth_error_None in Hi. congruence.
  - now rewrite (IH Hrest).
Qed.

(** *** Lists addressed through their indices *)

Lemma Forall2_functional {I A : Type} (P : I -> A -> Prop) :
  (forall i a b, P i a -> P i b -> a = b) ->
  forall idx l l', Forall2 P idx l -> Forall2 P idx l' -> l = l'.
Proof.
  intros Hfun idx l l' H. revert l'.
  induction H as [|i a idx l Hia _ IH]; intros l' H'; inversion H'; subst.
  - reflexivity.
  - f_equal; [eapply Hfun; eassumption | now apply IH].
Qed.

Lemma Forall2_total {A : Type} (l : list A) (idx : list nat) :
  Forall (fun i => i < List.length l) idx ->
  exists r, Forall2 (fun i a => nth_error l i = Some a) idx r.
Proof.
  induction 1 as [|i idx Hi _ [r Hr]].
  - exists []. constructor.
  - destruct (nth_error l i) as [a|] eqn:E.
    + exists (a :: r). now constructor.
    + apply nth_error_None in E. lia.
Qed.

(** Reading a list at [0, 1, ...] gives the list back. *)
Lemma read_in_order {A : Type} (l r : list A) :
  Forall2 (fun i a => nth_error l i = Some a) (seq 0 (List.length l)) r ->
  r = l.
Proof.
  intros H. apply nth_error_ext. intros k.
  pose proof (Forall2_length H) as Hlen. rewrite length_seq in Hlen.
  destruct (Nat.lt_ge_cases k (List.length r)) as [Hk|Hk].
  - destruct (BatchFacts.Forall2_pick _ _ _ H k Hk) as [i [a [Hi [Ha Hia]]]].
    rewrite nth_error_seq in Hi.
    replace (k <? List.length l) with true in Hi
      by (symmetry; apply Nat.ltb_lt; lia).
    injection Hi as <-. simpl in Hia. congruence.
  - assert (E1 : nth_error r k = None) by now apply nth_error_None.
    assert (E2 : nth_error l k = None) by (apply nth_error_None; lia).
    congruence.
Qed.

Lemma nth_error_combine {A B : Type} (l : list A) (l' : list B) :
  forall (i : nat) (a : A) (b : B),
  nth_error l i = Some a -> nth_error l' i = Some b ->
  nth_error (combine l l') i = Some (a, b).
Proof.
  revert l'. induction l as [|x l IH]; intros l' i a b Ha Hb.
  - now destruct i.
  - destruct l' as [|y l']; [now destruct i|].
    destruct i as [|i]; simpl in *.
    + congruence.
    + now apply IH.
Qed.

Lemma Forall2_combine {A B : Type} (l : list A) (l' : list B) :
  forall (idx : list nat) (ds : list A) (ls : list B),
  Forall2 (fun i a => nth_error l i = Some a) idx ds ->
  Forall2 (fun i b => nth_error l' i = Some b) idx ls ->
  Forall2 (fun i ab => nth_error (combine l l') i = Some ab) idx (combine ds ls).
Proof.
  intros idx ds ls H. revert ls.
  induction H as [|i a idx ds Ha _ IH]; intros ls H'; inversion H'; subst.
  - constructor.
  - simpl. constructor; [now apply nth_error_combine | now apply IH].
Qed.

Section Permuting.

Variable rng : Type.
Variable shuffle : rng -> list nat -> list nat * rng.
Hypothesis shuffle_permutes : forall g l, Permutation l (fst (shuffle g l)).

Variables A B : Type.
Variable num : nat.
Variable data : list A.
Variable labels : list B.
Variable g : rng.

Local Abbreviation idx :=
  (fst (batch_indices rng shuffle num (List.length data) g)).
Local Abbreviation batch := (fst (next_batch rng shuffle num data labels g)).

(** X4.  A batch and the pairs it leaves out make up the data set: the
    returned (sample, label) pairs, together with [len data - num] other
    pairs, are a rearrangement of the pairs (data[i], labels[i]); with
    [num >= len(data)] the batch is a rearrangement of the whole set. *)
Theorem batch_is_part_of_data :
  List.length data <= List.length labels ->
  exists ds ls rest,
    fst (next_batch rng shuffle num data labels g) = Ok (ds, ls) /\
    List.length ds = List.length ls /\
    Permutation (combine ds ls ++ rest) (combine data labels) /\
    List.length rest = List.length data - num /\
    (List.length data <= num ->
     Permutation (combine ds ls) (combine data labels)).
Proof.
  intros Hlen.
  destruct (BatchFacts.next_batch_total rng shuffle shuffle_permutes num data
              labels g Hlen) as [ds [ls Hok]].
  destruct (BatchFacts.next_batch_sound rng shuffle num data labels g ds ls Hok)
    as [Hd Hl].
  pose proof (Forall2_combine data labels _ _ _ Hd Hl) as Hp.
  set (pairs := combine data labels) in *.
  assert (Hpl : List.length pairs = List.length data)
    by (unfold pairs; rewrite length_combine; lia).
  set (sigma := fst (shuffle g (seq 0 (List.length data)))).
  pose proof (shuffle_permutes g (seq 0 (List.length data))) as Hsigma.
  fold sigma in Hsigma.
  assert (Hrange : Forall (fun i => i < List.length pairs) sigma).
  { apply Forall_forall. intros i Hi.
    apply (Permutation_in i (Permutation_sym Hsigma)) in Hi.
    apply in_seq in Hi. lia. }
  destruct (Forall2_total pairs sigma Hrange) as [all Hall].
  destruct (Permutation_Forall2 (Permutation_sym Hsigma) Hall)
    as [sorted [Hperm Hsorted]].
  rewrite <- Hpl in Hsorted. apply read_in_order in Hsorted. subst sorted.
  rewrite <- (firstn_skipn num sigma) in Hall.
  apply Forall2_app_inv_l in Hall as [kept [rest [Hkept [Hrest ->]]]].
  assert (Hidx : idx = firstn num sigma)
    by apply BatchFacts.batch_indices_firstn.
  rewrite Hidx in Hp.
  assert (E : combine ds ls = kept).
  { eapply Forall2_functional; [|exact Hp|exact Hkept].
    simpl. intros; congruence. }
  exists ds, ls, rest. rewrite E.
  assert (Hrl : List.length rest = List.length data - num).
  { rewrite <- (Forall2_length Hrest), length_skipn.
    rewrite <- (Permutation_length Hsigma), length_seq.
    reflexivity. }
  repeat split; try assumption.
  - rewrite <- (Forall2_length Hd). apply (Forall2_length Hl).
  - intros Hall'. assert (rest = []) by (apply length_zero_iff_nil; lia).
    subst rest. now rewrite app_nil_r in Hperm.
Qed.

(** X5.  The call raises only when a kept index has no label, and then it
    is [IndexError]: it returns when every kept index is below
    [len(labels)], and raises [IndexError] as soon as one is not; with
    fewer labels than samples and [num >= len(data)] it always raises. *)
Theorem next_batch_fails_on_missing_label :
  (Forall (fun i => i < List.length labels)
     (fst (batch_indices rng shuffle num (List.length data) g)) ->
   exists ds ls, fst (next_batch rng shuffle num data labels g) = Ok (ds, ls))
  /\ (Exists (fun i => List.length labels <= i)
        (fst (batch_indices rng shuffle num (List.length data) g)) ->
      fst (next_batch rng shuffle num data labels g) = Raise IndexError)
  /\ (List.length labels < List.length data -> List.length data <= num ->
      fst (next_batch rng shuffle num data labels g) = Raise IndexError).
Proof.
  pose proof (BatchFacts.batch_indices_in_range rng shuffle shuffle_permutes
                num (List.length data) g) as Hr.
  rewrite BatchFacts.next_batch_result.
  destruct (BatchFacts.gather_total data _ Hr) as [ds Hds].
  assert (Hbad : Exists (fun i => List.length labels <= i) idx ->
                 (data_shuffle <- gather data idx ;;
                  labels_shuffle <- gather labels idx ;;
                  Ok (data_shuffle, labels_shuffle)) = Raise IndexError).
  { intros Hex. rewrite Hds. simpl. now rewrite (gather_raises labels _ Hex). }
  split; [|split].
  - intros Hall. destruct (BatchFacts.gather_total labels _ Hall) as [ls Hls].
    exists ds, ls. now rewrite Hds, Hls.
  - exact Hbad.
  - intros Hfew Hnum. apply Hbad.
    rewrite BatchFacts.batch_indices_firstn.
    pose proof (shuffle_permutes g (seq 0 (List.length data))) as Hsigma.
    rewrite firstn_all2
      by (rewrite <- (Permutation_length Hsigma), length_seq; exact Hnum).
    apply Exists_exists. exists (List.length labels). split; [|lia].
    apply (Permutation_in _ Hsigma). apply in_seq. lia.
Qed.

End Permuting.

Section Epoch.

Variable rng : Type.
Variable shuffle : rng -> list nat -> list nat * rng.
Hypothesis shuffle_permutes : forall g l, Permutation l (fst (shuffle g l)).

(** X6.  On an empty data set, or for zero samples, the call returns two
    empty arrays and raises nothing, whatever the labels are. *)
Theorem next_batch_of_nothing (A B : Type) (num : nat) (data : list A)
    (labels : list B) (g : rng) :
  fst (next_batch rng shuffle num (@nil A) labels g) = Ok ([], [])
  /\ fst (next_batch rng shuffle 0 data labels g) = Ok ([], []).
Proof.
  split.
  - rewrite BatchFacts.next_batch_result, BatchFacts.batch_indices_firstn.
    simpl. pose proof (shuffle_permutes g []) as H.
    apply Permutation_nil in H. rewrite H. now rewrite firstn_nil.
  - rewrite BatchFacts.next_batch_result, BatchFacts.batch_indices_firstn.
    reflexivity.
Qed.

(** X7.  The batches of one epoch, [len / num] draws of [num] indices,
    leave at least [len mod num] documents out: there are that many
    distinct documents that no batch of the epoch holds. *)
Theorem epoch_leaves_documents_out (num len : nat) (g : rng) :
  num <> 0 ->
  exists missed,
    NoDup missed /\
    len mod num <= List.length missed /\
    Forall
      (fun i =>
         i < len /\
         forall b,
           In b (successive_batches rng shuffle (len / num) num len g) ->
           ~ In i b)
      missed.
Proof.
  intros Hnum.
  set (bs := successive_batches rng shuffle (len / num) num len g).
  set (drawn := List.concat bs).
  set (seen := fun i => existsb (Nat.eqb i) drawn).
  exists (filter (fun i => negb (seen i)) (seq 0 len)).
  assert (Hseen : forall i, seen i = true <-> In i drawn).
  { intros i. unfold seen. rewrite existsb_exists. split.
    - intros [x [Hx E]]. apply Nat.eqb_eq in E. now subst x.
    - intros Hi. exists i. split; [exact Hi | apply Nat.eqb_refl]. }
  split; [|split].
  - apply NoDup_filter, seq_NoDup.
  - pose proof (filter_length seen (seq 0 len)) as Hsplit.
    rewrite length_seq in Hsplit.
    assert (Hcov : List.length (filter seen (seq 0 len)) <= List.length drawn).
    { apply NoDup_incl_length; [apply NoDup_filter, seq_NoDup|].
      intros i Hi. apply filter_In in Hi as [_ Hi]. now apply Hseen. }
    pose proof (BatchFacts.successive_batches_length rng shuffle
                  shuffle_permutes (len / num) num len g) as Hdraws.
    fold bs in Hdraws. fold drawn in Hdraws.
    pose proof (Nat.div_mod_eq len num) as Hdm. nia.
  - apply Forall_forall. intros i Hi. apply filter_In in Hi as [Hi Hout].
    split; [apply in_seq in Hi; lia|].
    intros b Hb Hib. apply Bool.negb_true_iff in Hout.
    assert (Hin : In i drawn) by (apply in_concat; now exists b).
    apply Hseen in Hin. congruence.
Qed.

End Epoch.

Lemma reversing_permutes :
  forall (g : nat) l, Permutation l (fst (reversing g l)).
Proof. intros. apply Permutation_rev. Qed.

Lemma batch_is_part_of_data_witness :
  (forall (g : nat) l, Permutation l (fst (reversing g l))) /\
  List.length [10; 20; 30] <= List.length [true; false; true] /\
  exists ds ls rest,
    fst (next_batch nat reversing 2 [10; 20; 30] [true; false; true] 0)
    = Ok (ds, ls) /\
    Permutation (combine ds ls ++ rest)
      (combine [10; 20; 30] [true; false; true]).
Proof.
  split; [exact reversing_permutes|].
  split; [simpl; lia|].
  destruct (batch_is_part_of_data nat reversing reversing_permutes nat bool 2
              [10; 20; 30] [true; false; true] 0 ltac:(simpl; lia))
    as [ds [ls [rest [H1 [_ [H2 _]]]]]].
  now exists ds, ls, rest.
Defined.

Lemma next_batch_fails_on_missing_label_witness :
  (forall (g : nat) l, Permutation l (fst (reversing g l))) /\
  fst (next_batch nat reversing 3 [10; 20; 30] [true] 0) = Raise IndexError.
Proof.
  split; [exact reversing_permutes|].
  apply (next_batch_fails_on_missing_label nat reversing reversing_permutes
           nat bool 3 [10; 20; 30] [true] 0); simpl; lia.
Defined.

Lemma next_batch_of_nothing_witness :
  (forall (g : nat) l, Permutation l (fst (reversing g l))) /\
  fst (next_batch nat reversing 4 (@nil nat) [true] 0) = Ok ([], []).
Proof.
  split; [exact reversing_permutes|].
  exact (proj1 (next_batch_of_nothing nat reversing reversing_permutes
                  nat bool 4 [] [true] 0)).
Defined.

Lemma epoch_leaves_documents_out_witness :
  (forall (g : nat) l, Permutation l (fst (reversing g l))) /\ 3 <> 0 /\
  exists missed,
    NoDup missed /\ 10 mod 3 <= List.length missed /\
    Forall
      (fun i =>
         i < 10 /\
         forall b,
           In b (successive_batches nat reversing (10 / 3) 3 10 0) -> ~ In i b)
      missed.
Proof.
  split; [exact reversing_permutes|]. split; [discriminate|].
  exact (epoch_leaves_documents_out nat reversing reversing_permutes 3 10 0
           ltac:(discriminate)).
Defined.

End BatchMore.

Module LoopFacts.
Import Training.
Local Open Scope nat_scope.

Section Loop.

Variables X Y net scalar rng : Type.
Variable shuffle : rng -> list nat -> list nat * rng.
Variable sess_init : hyper -> net.
Variable run_train : hyper -> net -> list X -> list Y -> result (net * scalar).
Variable run_eval : hyper -> net -> list X -> list Y -> result scalar.
Variable run_accuracy : hyper -> net -> list X -> list Y -> scalar.
Variable zero_cost : scalar.
Variable accumulate : scalar -> scalar -> nat -> scalar.
Variable h : hyper.
Variable m_prime_rows : nat.
Variables (data : list X) (labels : list Y).
Variables (test_x : list X) (test_y : list Y).

Local Abbreviation train_batch :=
  (train_batch X Y net scalar rng shuffle run_train accumulate h data labels).
Local Abbreviation run_epoch :=
  (run_epoch X Y net scalar rng shuffle run_train run_eval zero_cost
     accumulate h m_prime_rows data labels test_x test_y).
Local Abbreviation trace :=
  (trace X Y net scalar rng shuffle sess_init run_train run_eval run_accuracy
     zero_cost accumulate h m_prime_rows data labels test_x test_y).
Local Abbreviation train :=
  (train X Y net scalar rng shuffle sess_init run_train run_eval run_accuracy
     zero_cost accumulate h m_prime_rows data labels test_x test_y).
Local Abbreviation total := (m_prime_rows / batch_size h).

(** The calls and the lines of one epoch when evaluations come every
    [display_step] epochs. *)
Local Abbreviation shown epoch := (Nat.eqb (epoch mod display_step h) 0).
Local Abbreviation steps epoch :=
  (map (fun i => @RunTrain X Y epoch i [] []) (seq 0 total)
   ++ (if shown epoch then [RunEval epoch test_x test_y] else [])).

(** X8.  With a batch size of zero the cell raises [ZeroDivisionError] in
    its first epoch, before any training step; with no epoch at all it
    still returns, having only initialised the variables and computed the
    accuracy. *)
Theorem zero_batch_size_raises (g : rng) :
  batch_size h = 0 ->
  (training_epochs h <> 0 -> train g = Raise ZeroDivisionError)
  /\ (training_epochs h = 0 ->
      exists s, train g = Ok s /\
                calls s = [RunInit; RunAccuracy test_x test_y]).
Proof.
  intros Hb. unfold Training.train, Training.trace. split.
  - intros He. destruct (training_epochs h) as [|k]; [contradiction|].
    cbn [seq for_each]. unfold Training.run_epoch at 1, total_batch_of.
    rewrite Hb. reflexivity.
  - intros He. rewrite He. simpl. eexists. split; reflexivity.
Qed.

Section Returning.

Hypothesis shuffle_permutes : forall g l, Permutation l (fst (shuffle g l)).
Hypothesis labelled : List.length data <= List.length labels.
Hypothesis batch_size_positive : batch_size h <> 0.
Hypothesis train_returns :
  forall w batch_x batch_y, exists r, run_train h w batch_x batch_y = Ok r.

(** X9.  With a label for every sample, a batch size other than zero and
    training steps that return, a display step of zero makes the cell
    raise [ZeroDivisionError] at the end of its first epoch: by then it
    has asked the session for the initialisation and for every training
    step of that epoch, for no evaluation, and it has printed nothing. *)
Theorem zero_display_step_raises (g : rng) :
  display_step h = 0 -> training_epochs h <> 0 ->
  exists s,
    Training.trace X Y net scalar rng shuffle sess_init run_train run_eval
      run_accuracy zero_cost accumulate h m_prime_rows data labels test_x
      test_y g = (s, Some ZeroDivisionError) /\
    map forget_batch (calls s)
    = RunInit :: map (fun i => RunTrain 0 i [] []) (seq 0 total) /\
    printed s = [] /\
    train g = Raise ZeroDivisionError.
Proof.
  intros Hd He.
  destruct (TrainingFacts.zero_display_step_trace X Y net scalar rng shuffle
              sess_init run_train run_eval run_accuracy zero_cost accumulate
              h m_prime_rows data labels test_x test_y shuffle_permutes
              labelled train_returns batch_size_positive g Hd He)
    as [s [Ht [Hc Hp]]].
  exists s. repeat split; try assumption.
  now apply TrainingFacts.train_raised in Ht.
Qed.

Hypothesis display_step_positive : display_step h <> 0.
Hypothesis eval_returns :
  forall w, exists c, run_eval h w test_x test_y = Ok c.

(** X10.  With a label for every sample, a batch size and a display step
    other than zero, and a session whose training steps and evaluations
    return, the cell returns for any number of epochs: each epoch runs all
    its training steps, the test set is evaluated after exactly the epochs
    whose index is a multiple of the display step, one line is printed for
    each of those, and the accuracy on the test set closes the run. *)
Theorem evaluation_every_display_step (g : rng) :
  exists s lines,
    train g = Ok s /\
    map forget_batch (calls s)
    = RunInit :: flat_map (fun e => steps e) (seq 0 (training_epochs h))
      ++ [RunAccuracy test_x test_y] /\
    printed s
    = lines ++ [Finished; AccuracyLine (run_accuracy h (weights s) test_x test_y)] /\
    map line_number lines
    = map (fun e => Some (e + 1))
        (filter (fun e => shown e) (seq 0 (training_epochs h))).
Proof.
  destruct (TrainingFacts.train_ok X Y net scalar rng shuffle sess_init
              run_train run_eval run_accuracy zero_cost accumulate h
              m_prime_rows data labels test_x test_y shuffle_permutes labelled
              train_returns batch_size_positive display_step_positive
              eval_returns g) as [s H].
  destruct (TrainingFacts.train_returned X Y net scalar rng shuffle sess_init
              run_train run_eval run_accuracy zero_cost accumulate h
              m_prime_rows data labels test_x test_y g s H)
    as [Hc [lines [Hp Hn]]].
  now exists s, lines.
Qed.

End Returning.

(** X11.  Nothing catches an exception of [next_batch]: when the first
    call of the first epoch raises, the cell raises the same exception. *)
Theorem first_batch_exception_ends_the_cell (g : rng) (e : pyerr) :
  batch_size h <> 0 -> batch_size h <= m_prime_rows ->
  training_epochs h <> 0 ->
  fst (Batch.next_batch rng shuffle (batch_size h) data labels g) = Raise e ->
  train g = Raise e.
Proof.
  intros Hb Hrows He Hraise. unfold Training.train, Training.trace.
  destruct (training_epochs h) as [|k]; [contradiction|].
  cbn [seq for_each]. unfold Training.run_epoch at 1, total_batch_of.
  destruct (Nat.eqb_spec (batch_size h) 0) as [E|_]; [contradiction|].
  assert (Ht : total <> 0).
  { intros E. apply Nat.div_small_iff in E; [lia | exact Hb]. }
  destruct total as [|t]; [contradiction|].
  cbn [seq for_each]. unfold Training.train_batch at 1. cbn [np_random].
  destruct (Batch.next_batch rng shuffle (batch_size h) data labels g)
    as [batch g']. simpl in Hraise. subst batch. reflexivity.
Qed.

End Loop.

Lemma zero_batch_size_raises_witness :
  batch_size (ToyLoop.hyper_with 3 0 1) = 0 /\
  ToyLoop.train (ToyLoop.hyper_with 3 0 1) ToyLoop.samples ToyLoop.targets
  = Raise ZeroDivisionError.
Proof.
  split; [reflexivity|].
  apply (zero_batch_size_raises (list Z) (list Z) nat nat nat Batch.reversing
           Toy.sess_init Toy.run_train Toy.run_eval Toy.run_accuracy 0
           Toy.accumulate (ToyLoop.hyper_with 3 0 1) 4 ToyLoop.samples
           ToyLoop.targets ToyLoop.samples ToyLoop.targets 0 eq_refl).
  discriminate.
Defined.

Lemma zero_display_step_raises_witness :
  (forall (g : nat) l, Permutation l (fst (Batch.reversing g l))) /\
  List.length ToyLoop.samples <= List.length ToyLoop.targets /\
  exists s,
    ToyLoop.trace (ToyLoop.hyper_with 3 2 0) ToyLoop.samples ToyLoop.targets
    = (s, Some ZeroDivisionError) /\
    List.length (calls s) = 3.
Proof.
  split; [exact BatchMore.reversing_permutes|]. split; [simpl; lia|].
  destruct (zero_display_step_raises (list Z) (list Z) nat nat nat
              Batch.reversing Toy.sess_init Toy.run_train Toy.run_eval
              Toy.run_accuracy 0 Toy.accumulate (ToyLoop.hyper_with 3 2 0) 4
              ToyLoop.samples ToyLoop.targets ToyLoop.samples ToyLoop.targets
              BatchMore.reversing_permutes ltac:(simpl; lia)
              ltac:(discriminate)
              ltac:(intros w bx yy; eexists; reflexivity)
              0 eq_refl ltac:(discriminate))
    as [s [Ht [Hc _]]].
  exists s. split; [exact Ht|].
  rewrite <- (length_map forget_batch), Hc. reflexivity.
Defined.

Lemma evaluation_every_display_step_witness :
  (forall (g : nat) l, Permutation l (fst (Batch.reversing g l))) /\
  List.length ToyLoop.samples <= List.length ToyLoop.targets /\
  exists s,
    ToyLoop.train (ToyLoop.hyper_with 5 2 2) ToyLoop.samples ToyLoop.targets
    = Ok s /\
    List.length (calls s) = 15.
Proof.
  split; [exact BatchMore.reversing_permutes|]. split; [simpl; lia|].
  destruct (evaluation_every_display_step (list Z) (list Z) nat nat nat
              Batch.reversing Toy.sess_init Toy.run_train Toy.run_eval
              Toy.run_accuracy 0 Toy.accumulate (ToyLoop.hyper_with 5 2 2) 4
              ToyLoop.samples ToyLoop.targets ToyLoop.samples ToyLoop.targets
              BatchMore.reversing_permutes ltac:(simpl; lia)
              ltac:(discriminate)
              ltac:(intros w bx yy; eexists; reflexivity)
              ltac:(discriminate)
              ltac:(intros w; eexists; reflexivity) 0)
    as [s [lines [H [Hc _]]]].
  exists s. split; [exact H|].
  rewrite <- (length_map forget_batch), Hc. reflexivity.
Defined.

Lemma first_batch_exception_ends_the_cell_witness :
  fst (Batch.next_batch nat Batch.reversing 2 ToyLoop.samples
         (@nil (list Z)) 0) = Raise IndexError /\
  ToyLoop.train (ToyLoop.hyper_with 3 2 1) ToyLoop.samples [] = Raise IndexError.
Proof.
  split; [reflexivity|].
  apply (first_batch_exception_ends_the_cell (list Z) (list Z) nat nat nat
           Batch.reversing Toy.sess_init Toy.run_train Toy.run_eval
           Toy.run_accuracy 0 Toy.accumulate (ToyLoop.hyper_with 3 2 1) 4
           ToyLoop.samples [] ToyLoop.samples ToyLoop.targets 0 IndexError);
    try discriminate; try reflexivity.
  simpl. lia.
Defined.

End LoopFacts.

Module OneHotFacts.
Import Matrix OneHot.
Local Open Scope nat_scope.

Lemma update_app {A : Type} (f : A -> A) (done : list A) (x : A) (rest : list A) :
  update (List.length done) f (done ++ x :: rest) = done ++ f x :: rest.
Proof. induction done as [|y done IH]; simpl; [reflexivity | now rewrite IH]. Qed.

Lemma axis_index_in_range (c : Z) :
  (-20 <= c < 20)%Z -> axis_index 20 c = Ok (Z.to_nat (c mod 20)).
Proof.
  intros Hc. unfold axis_index.
  destruct (Z.leb_spec 0 c) as [H0|H0].
  - replace (c <? Z.of_nat 20)%Z with true by (symmetry; apply Z.ltb_lt; lia).
    simpl. now rewrite Z.mod_small by lia.
  - simpl.
    replace (-20 <=? c)%Z with true by (symmetry; apply Z.leb_le; lia).
    replace (c <? 0)%Z with true by (symmetry; apply Z.ltb_lt; lia).
    simpl.
    assert (E : (c + 20 = c mod 20)%Z)
      by (apply (Z.mod_unique c 20 (-1)); lia).
    now rewrite <- E.
Qed.

Lemma axis_index_out_of_range (c : Z) :
  (c < -20 \/ 20 <= c)%Z -> axis_index 20 c = Raise IndexError.
Proof.
  intros Hc. unfold axis_index.
  destruct (Z.leb_spec 0 c) as [H0|H0].
  - replace (c <? Z.of_nat 20)%Z with false by (symmetry; apply Z.ltb_ge; lia).
    simpl. replace (c <? 0)%Z with false by (symmetry; apply Z.ltb_ge; lia).
    now rewrite andb_false_r.
  - simpl.
    replace (-20 <=? c)%Z with false by (symmetry; apply Z.leb_gt; lia).
    reflexivity.
Qed.

Lemma resolve_in_range : forall (labels : list Z) (s : nat),
  Forall (fun l => (-20 <= l < 20)%Z) labels ->
  resolve 20 (combine (seq s (List.length labels)) labels)
  = Ok (combine (seq s (List.length labels))
          (map (fun l => Z.to_nat (l mod 20)) labels)).
Proof.
  induction labels as [|l labels IH]; intros s H; [reflexivity|].
  inversion H as [|? ? Hl Hrest]; subst. simpl.
  rewrite axis_index_in_range by exact Hl. simpl.
  now rewrite IH.
Qed.

Lemma resolve_out_of_range : forall (labels : list Z) (s : nat),
  Exists (fun l => (l < -20 \/ 20 <= l)%Z) labels ->
  resolve 20 (combine (seq s (List.length labels)) labels) = Raise IndexError.
Proof.
  induction labels as [|l labels IH]; intros s H; [inversion H|].
  simpl. inversion H as [? ? Hl|? ? Hrest]; subst.
  - now rewrite axis_index_out_of_range.
  - unfold axis_index.
    destruct ((0 <=? l) && (l <? Z.of_nat 20))%Z;
      [|destruct ((- Z.of_nat 20 <=? l) && (l <? 0))%Z];
      simpl; try reflexivity; now rewrite IH.
Qed.

Section Scalars.

Variable F : Type.
Variables (zero one : F).

Local Abbreviation one_hot_row := (one_hot_row F zero one).
Local Abbreviation np_one_hot := (np_one_hot F zero one).

Lemma zeros_after (w s j : nat) :
  j < s ->
  map (fun k => if Nat.eqb k j then one else zero) (seq s w) = repeat zero w.
Proof.
  revert s. induction w as [|w IH]; intros s Hj; [reflexivity|].
  simpl. replace (s =? j) with false by (symmetry; apply Nat.eqb_neq; lia).
  f_equal. apply IH. lia.
Qed.

Lemma update_zero_row : forall (w s j : nat),
  j < w ->
  update j (fun _ => one) (repeat zero w)
  = map (fun k => if Nat.eqb k (s + j) then one else zero) (seq s w).
Proof.
  induction w as [|w IH]; intros s j Hj; [lia|].
  destruct j as [|j]; simpl.
  - rewrite Nat.add_0_r, Nat.eqb_refl. f_equal.
    symmetry. apply zeros_after. lia.
  - replace (s =? s + S j) with false by (symmetry; apply Nat.eqb_neq; lia).
    f_equal. rewrite (IH (S s) j) by lia.
    apply map_ext. intros k. now replace (S s + j) with (s + S j) by lia.
Qed.

Lemma fill_rows : forall (cols : list nat) (done : list (list F)),
  Forall (fun j => j < 20) cols ->
  fold_left (fun rs ij => put F (fst ij) (snd ij) one rs)
    (combine (seq (List.length done) (List.length cols)) cols)
    (done ++ repeat (repeat zero 20) (List.length cols))
  = done ++ map (one_hot_row 20) cols.
Proof.
  induction cols as [|j cols IH]; intros done H; [reflexivity|].
  inversion H as [|? ? Hj Hrest]; subst.
  remember (repeat zero 20) as zrow eqn:Ez.
  cbn [List.length seq combine fold_left repeat fst snd map]. unfold put at 2.
  rewrite update_app. subst zrow.
  rewrite (update_zero_row 20 0 j Hj). cbn [Nat.add].
  fold (one_hot_row 20 j).
  replace (done ++ one_hot_row 20 j :: repeat (repeat zero 20) (List.length cols))
    with ((done ++ [one_hot_row 20 j]) ++ repeat (repeat zero 20) (List.length cols))
    by now rewrite <- app_assoc.
  replace (S (List.length done)) with (List.length (done ++ [one_hot_row 20 j]))
    by (rewrite length_app; simpl; lia).
  rewrite IH by exact Hrest. now rewrite <- app_assoc.
Qed.

(** X12.  With one label per row, each between -20 and 19, the cell builds
    the array whose row [i] is the one-hot row of [labels[i]]: a one at
    column [labels[i]] (counted from the end when negative) and zeros in
    the nineteen other columns. *)
Theorem one_hot_rows (count : nat) (labels : list Z) :
  List.length labels = count ->
  Forall (fun l => (-20 <= l < 20)%Z) labels ->
  np_one_hot count labels
  = Ok {| ncols := 20;
          rows := map (fun l => one_hot_row 20 (Z.to_nat (l mod 20))) labels |}.
Proof.
  intros Hlen Hrange. unfold OneHot.np_one_hot, index_pairs.
  rewrite Hlen, Nat.eqb_refl. cbn [bind]. rewrite <- Hlen.
  rewrite resolve_in_range by exact Hrange. cbn [bind]. do 2 f_equal.
  cbn [zeros rows].
  set (cols := map (fun l => Z.to_nat (l mod 20)) labels).
  assert (Hc : Forall (fun j => j < 20) cols).
  { apply Forall_forall. intros j Hj. apply in_map_iff in Hj as [l [<- Hl]].
    rewrite Forall_forall in Hrange. specialize (Hrange l Hl).
    pose proof (Z.mod_pos_bound l 20 ltac:(lia)). lia. }
  pose proof (fill_rows cols [] Hc) as Hfill.
  cbn [List.length app] in Hfill.
  replace (List.length cols) with (List.length labels) in Hfill
    by (unfold cols; now rewrite length_map).
  rewrite Hfill. unfold cols. now rewrite map_map.
Qed.

(** X13.  The cell raises [IndexError] when a label is outside
    [-20, 20), and when the number of labels is neither the number of rows
    nor one while there is more than one row or none. *)
Theorem one_hot_raises (count : nat) (labels : list Z) :
  (List.length labels = count ->
   Exists (fun l => (l < -20 \/ 20 <= l)%Z) labels ->
   np_one_hot count labels = Raise IndexError)
  /\ (List.length labels <> count -> List.length labels <> 1 -> count <> 1 ->
      np_one_hot count labels = Raise IndexError).
Proof.
  unfold OneHot.np_one_hot, index_pairs. split.
  - intros Hlen Hbad. rewrite Hlen, Nat.eqb_refl. cbn [bind]. rewrite <- Hlen.
    now rewrite resolve_out_of_range.
  - intros H1 H2 H3.
    apply Nat.eqb_neq in H1. apply Nat.eqb_neq in H2. apply Nat.eqb_neq in H3.
    now rewrite H1, H2, H3.
Qed.

Lemma combine_repeat (l : Z) : forall (n s : nat),
  combine (seq s n) (repeat l n) = map (fun i => (i, l)) (seq s n).
Proof.
  induction n as [|n IH]; intros s; [reflexivity|].
  simpl. now rewrite IH.
Qed.

(** X14.  A single label is broadcast to every row: with one label the
    cell builds the same array as with that label repeated once per row,
    and raises in the same cases. *)
Theorem single_label_is_broadcast (count : nat) (l : Z) :
  np_one_hot count [l] = np_one_hot count (repeat l count).
Proof.
  destruct (Nat.eq_dec count 1) as [-> |Hc]; [reflexivity|].
  unfold OneHot.np_one_hot, index_pairs.
  rewrite repeat_length. cbn [List.length hd].
  replace (1 =? count) with false by (symmetry; apply Nat.eqb_neq; lia).
  rewrite !Nat.eqb_refl. now rewrite combine_repeat.
Qed.

End Scalars.

Lemma one_hot_rows_witness :
  List.length [3; -1; 0]%Z = 3 /\
  Forall (fun l => (-20 <= l < 20)%Z) [3; -1; 0]%Z /\
  np_one_hot Z 0%Z 1%Z 3 [3; -1; 0]%Z
  = Ok {| ncols := 20;
          rows := map (fun l => one_hot_row Z 0%Z 1%Z 20 (Z.to_nat (l mod 20)))
                    [3; -1; 0]%Z |}.
Proof.
  assert (H : Forall (fun l => (-20 <= l < 20)%Z) [3; -1; 0]%Z)
    by (repeat constructor; lia).
  split; [reflexivity|]. split; [exact H|].
  exact (one_hot_rows Z 0%Z 1%Z 3 [3; -1; 0]%Z eq_refl H).
Defined.

Lemma one_hot_raises_witness :
  List.length [3; 25]%Z = 2 /\
  Exists (fun l => (l < -20 \/ 20 <= l)%Z) [3; 25]%Z /\
  np_one_hot Z 0%Z 1%Z 2 [3; 25]%Z = Raise IndexError.
Proof.
  assert (Hbad : Exists (fun l => (l < -20 \/ 20 <= l)%Z) [3; 25]%Z)
    by (apply Exists_cons_tl, Exists_cons_hd; lia).
  split; [reflexivity|]. split; [exact Hbad|].
  exact (proj1 (one_hot_raises Z 0%Z 1%Z 2 [3; 25]%Z) eq_refl Hbad).
Defined.

End OneHotFacts.

Module DimensionMore.
Import Dimension DimensionFacts.

(** X15.  For document counts [1 < p <= p' < 2^63] and errors with
    [1/1000 <= eps'^2 <= eps^2 <= 100], whatever the rounding of the
    float64 operations accurate to one part in a million, the cell returns
    for both, [m] is at least one, and more documents or a smaller error
    never lower it by more than one: [m <= m' + 1]. *)
Theorem m_grows_with_documents_and_precision (rnd : R -> R) (u : R)
    (p p' : Z) (eps eps' : R) :
  accurate u rnd -> 0 <= u <= 1 / 1000000 ->
  (1 < p <= p')%Z -> (p' < 2 ^ 63)%Z ->
  1 / 1000 <= eps' * eps' <= eps * eps -> eps * eps <= 100 ->
  exists m m' : Z,
    compute_m rnd eps p = Ok m /\
    compute_m rnd eps' p' = Ok m' /\
    (1 <= m)%Z /\ (m <= m' + 1)%Z.
Proof.
  intros Hacc Hu Hp Hp' He' He.
  destruct (compute_m_rounded rnd u p eps Hacc Hu ltac:(lia) ltac:(lra))
    as [c [Hm [Hq [Hc1 Hc2]]]].
  destruct (compute_m_rounded rnd u p' eps' Hacc Hu ltac:(lia) ltac:(lra))
    as [c' [Hm' [Hq' [Hc1' Hc2']]]].
  exists (Zfloor c + 1)%Z, (Zfloor c' + 1)%Z.
  split; [exact Hm|]. split; [exact Hm'|].
  assert (Hqq : ln (IZR p) / eps ^ 2 <= ln (IZR p') / eps' ^ 2).
  { pose proof (ln_of_count p ltac:(lia)) as HL.
    assert (Hln : ln (IZR p) <= ln (IZR p')).
    { apply ln_monotone; [apply IZR_lt; lia | apply IZR_le; lia]. }
    replace (eps ^ 2) with (eps * eps) by ring.
    replace (eps' ^ 2) with (eps' * eps') by ring.
    set (E := eps * eps) in *. set (E' := eps' * eps') in *.
    apply div_le_of_mul; [lra|].
    assert (Hd : ln (IZR p') = ln (IZR p') / E' * E') by (field; lra).
    assert (Hpos : 0 <= ln (IZR p') / E').
    { apply le_div_of_mul; lra. }
    nra. }
  set (q := ln (IZR p) / eps ^ 2) in *.
  set (q' := ln (IZR p') / eps' ^ 2) in *.
  pose proof (Zfloor_bound c) as [Hf1 Hf2].
  pose proof (Zfloor_bound c') as [Hf1' Hf2'].
  split.
  - assert (0 <= Zfloor c)%Z; [|lia]. apply Zfloor_lub.
    assert (H0 : 0 <= q * (1 - 4 * u)) by (apply Rmult_le_pos; lra).
    lra.
  - assert (H : (Zfloor c < Zfloor c' + 2)%Z); [|lia].
    apply lt_IZR. rewrite plus_IZR.
    assert (H1 : u * q <= 1 / 1000000 * 63000).
    { apply Rmult_le_compat; lra. }
    assert (H2 : q * (1 - 4 * u) <= q' * (1 - 4 * u)).
    { apply Rmult_le_compat_r; lra. }
    lra.
Qed.

Lemma m_grows_with_documents_and_precision_witness :
  accurate (1 / 1000000) exact /\ 0 <= 1 / 1000000 <= 1 / 1000000 /\
  (1 < 3 <= 11314)%Z /\ (11314 < 2 ^ 63)%Z /\
  1 / 1000 <= 1 / 10 * (1 / 10) <= 1 / 10 * (1 / 10) /\
  1 / 10 * (1 / 10) <= 100 /\
  exists m m' : Z,
    compute_m exact (1 / 10) 3 = Ok m /\
    compute_m exact (1 / 10) 11314 = Ok m' /\
    (1 <= m)%Z /\ (m <= m' + 1)%Z.
Proof.
  assert (Hacc : accurate (1 / 1000000) exact) by (apply exact_accurate; lra).
  assert (Hu : 0 <= 1 / 1000000 <= 1 / 1000000) by lra.
  assert (Hp : (1 < 3 <= 11314)%Z) by lia.
  assert (Hp' : (11314 < 2 ^ 63)%Z) by reflexivity.
  assert (He' : 1 / 1000 <= 1 / 10 * (1 / 10) <= 1 / 10 * (1 / 10)) by lra.
  assert (He : 1 / 10 * (1 / 10) <= 100) by lra.
  repeat (split; [assumption|]).
  exact (m_grows_with_documents_and_precision exact (1 / 1000000) 3 11314
           (1 / 10) (1 / 10) Hacc Hu Hp Hp' He' He).
Defined.

(** X16.  An error of zero makes the cell fail: the quotient is infinite
    and [int] raises [OverflowError] when there are two documents or more,
    it is NaN and [int] raises [ValueError] when there is exactly one. *)
Theorem zero_error_raises (p : Z) :
  ((1 < p)%Z -> compute_m exact 0 p = Raise OverflowError)
  /\ compute_m exact 0 1 = Raise ValueError.
Proof.
  unfold compute_m, np_log, py_pow2, exact, np_truediv. split.
  - intros Hp. destruct p as [|q|q]; try lia.
    assert (Hln : 0 < ln (IZR (Z.pos q))).
    { rewrite <- ln_1. apply ln_increasing; [lra|]. apply IZR_lt. exact Hp. }
    destruct (Req_dec_T (0 * 0) 0) as [_|N]; [|exfalso; apply N; ring].
    destruct (Rlt_dec 0 (ln (IZR (Z.pos q)))) as [_|N]; [reflexivity|contradiction].
  - rewrite ln_1.
    destruct (Req_dec_T (0 * 0) 0) as [_|N]; [|exfalso; apply N; ring].
    destruct (Rlt_dec 0 0) as [H|_]; [lra|]. reflexivity.
Qed.

Lemma sqrt_between (n : Z) :
  (1 <= n <= 900000)%Z -> 1 <= sqrt (IZR n) <= 950.
Proof.
  intros [H1 H2].
  assert (Hn : 1 <= IZR n <= 900000) by (split; apply IZR_le; lia).
  pose proof (sqrt_sqrt (IZR n) ltac:(lra)) as Hs.
  pose proof (sqrt_pos (IZR n)) as Hp.
  split; [|nra].
  rewrite <- sqrt_1. apply sqrt_le_1_alt. lra.
Qed.

(** X17.  For every vocabulary of one to 900000 terms, whatever the
    rounding of the square root and of the division accurate to a relative
    error [u] of at most one part in a million, the density
    [1/np.sqrt(n)] of cell 8 is a number [d] with [0 < d <= 1 + 3u] whose
    square times [n] is within [5u] of one.  For an empty vocabulary it is
    [+inf], and nothing is raised. *)
Theorem density_of_vocabulary (rnd : R -> R) (u : R) (n : Z) :
  accurate u rnd -> 0 <= u <= 1 / 1000000 ->
  ((1 <= n <= 900000)%Z ->
   exists d,
     Notebook.np_reciprocal rnd (Notebook.np_sqrt rnd n) = Fin d /\
     0 < d <= 1 + 3 * u /\
     Rabs (d * d * IZR n - 1) <= 5 * u)
  /\ Notebook.np_reciprocal rnd (Notebook.np_sqrt rnd 0) = PInf.
Proof.
  intros Hacc Hu. assert (Hu1 : 0 <= u <= 1) by lra.
  unfold Notebook.np_reciprocal, Notebook.np_sqrt, np_truediv. split.
  - intros Hn. pose proof (sqrt_between n Hn) as Hr.
    assert (Hsq : sqrt (IZR n) * sqrt (IZR n) = IZR n).
    { apply sqrt_sqrt. apply IZR_le. lia. }
    destruct n as [|k|k]; try lia.
    set (r := sqrt (IZR (Z.pos k))) in *.
    assert (Hs : r * (1 - u) <= rnd r <= r * (1 + u)).
    { apply (accurate_between u rnd r r r Hacc Hu1); lra. }
    set (s := rnd r) in *.
    assert (Hspos : 0 < s) by nra.
    destruct (Req_dec_T s 0) as [E|_]; [lra|].
    assert (Hts : 1 / s * s = 1) by (field; lra).
    assert (Htpos : 0 < 1 / s) by (apply Rdiv_lt_0_compat; lra).
    set (t := 1 / s) in *.
    assert (Ht : 1 / 1000 <= t <= 1000000) by (split; nra).
    assert (Hd : t * (1 - u) <= rnd t <= t * (1 + u)).
    { apply (accurate_between u rnd t t t Hacc Hu1); lra. }
    exists (rnd t). split; [reflexivity|].
    set (d := rnd t) in *.
    assert (Hdpos : 0 < d) by nra.
    (* x = d * r is within two roundings of one *)
    assert (Hx1 : 1 - u <= d * r * (1 + u)).
    { apply Rle_trans with (t * (1 - u) * s); [nra|].
      apply Rle_trans with (d * s); nra. }
    assert (Hx2 : d * r * (1 - u) <= 1 + u).
    { apply Rle_trans with (d * s); [nra|].
      apply Rle_trans with (t * (1 + u) * s); nra. }
    set (x := d * r) in *.
    assert (Hx0 : 0 <= x) by (apply Rmult_le_pos; lra).
    assert (Hux : 1 / 1000000 * x >= u * x)
      by (apply Rle_ge, Rmult_le_compat_r; lra).
    assert (Hx54 : x <= 5 / 4) by lra.
    assert (Hxu : x * u <= 5 / 4 * u)
      by (apply Rmult_le_compat_r; lra).
    assert (Huu : u * u <= u * (1 / 1000000))
      by (apply Rmult_le_compat_l; lra).
    assert (Huu0 : 0 <= u * u) by (apply Rmult_le_pos; lra).
    assert (Hxlo : 1 - 9 / 4 * u <= x) by lra.
    assert (Hxhi : x <= 1 + 9 / 4 * u) by lra.
    assert (Hdx : d * 1 <= x) by (apply Rmult_le_compat_l; lra).
    split; [split; [exact Hdpos | lra]|].
    replace (d * d * IZR (Z.pos k)) with (x * x)
      by (rewrite <- Hsq; unfold x; ring).
    assert (Hlo2 : (1 - 9 / 4 * u) * (1 - 9 / 4 * u) <= x * x)
      by (apply Rmult_le_compat; lra).
    assert (Hhi2 : x * x <= (1 + 9 / 4 * u) * (1 + 9 / 4 * u))
      by (apply Rmult_le_compat; lra).
    apply Rabs_le. split; lra.
  - rewrite sqrt_0, (accurate_0 u rnd Hacc).
    destruct (Req_dec_T 0 0) as [_|N]; [|contradiction].
    destruct (Rlt_dec 0 1) as [_|N]; [reflexivity | lra].
Qed.
Lemma zero_error_raises_witness :
  (1 < 5)%Z /\ compute_m exact 0 5 = Raise OverflowError.
Proof.
  split; [reflexivity|].
  exact (proj1 (zero_error_raises 5) eq_refl).
Defined.

Lemma density_of_vocabulary_witness :
  accurate (1 / 1000000) exact /\ 0 <= 1 / 1000000 <= 1 / 1000000 /\
  (1 <= 4 <= 900000)%Z /\
  exists d, Notebook.np_reciprocal exact (Notebook.np_sqrt exact 4) = Fin d /\
            0 < d <= 1 + 3 * (1 / 1000000) /\
            Rabs (d * d * IZR 4 - 1) <= 5 * (1 / 1000000).
Proof.
  assert (Hacc : accurate (1 / 1000000) exact) by (apply exact_accurate; lra).
  assert (Hu : 0 <= 1 / 1000000 <= 1 / 1000000) by lra.
  assert (Hn : (1 <= 4 <= 900000)%Z) by lia.
  split; [exact Hacc|]. split; [exact Hu|]. split; [exact Hn|].
  exact (proj1 (density_of_vocabulary exact (1 / 1000000) 4 Hacc Hu) Hn).
Defined.

End DimensionMore.

(** ** The cells on a kernel: names, order and sizes *)

Module NotebookMore.
Import Matrix Notebook.
Local Open Scope string_scope.
Local Open Scope nat_scope.

#[local] Arguments Dimension.cell7_m : simpl never.
#[local] Arguments Training.train : simpl never.
#[local] Arguments Matrix.dot : simpl never.
#[local] Arguments Matrix.transpose : simpl never.
#[local] Arguments Notebook.np_reciprocal : simpl never.
#[local] Arguments Notebook.np_sqrt : simpl never.

Ltac step H :=
  match type of H with
  | bind ?r _ = Ok _ =>
      let E := fresh "E" in destruct r eqn:E; [simpl in H | discriminate H]
  | (let (_, _) := ?p in _) = Ok _ =>
      let E := fresh "E" in destruct p eqn:E; simpl in H
  | match ?o with Some _ => _ | None => _ end = Ok _ =>
      let E := fresh "E" in destruct o eqn:E; [simpl in H | discriminate H]
  end.

Ltac exec E := repeat (step E); injection E as E; subst.

Ltac in_list := simpl; repeat (first [left; reflexivity | right]).

Section Run.

Variable F : Type.
Variables (zero one : F) (add mul : F -> F -> F).
Variable rnd : R -> R.
Variables corpus vectorizer : Type.
Variable fit_transform : corpus -> result (vectorizer * ndarray F).
Variable transform : vectorizer -> corpus -> result (ndarray F).
Variable rng : Type.
Variable shuffle : rng -> list nat -> list nat * rng.
Variable srp_fit : Z -> npfloat -> ndarray F -> rng -> result (ndarray F) * rng.
Variable one_hot_labels : nat -> list Z -> result (ndarray F).
Variables net scalar : Type.
Variable sess_init : Training.hyper -> net.
Variable run_train :
  Training.hyper -> net -> list (list F) -> list (list F) -> result (net * scalar).
Variable run_eval :
  Training.hyper -> net -> list (list F) -> list (list F) -> result scalar.
Variable run_accuracy :
  Training.hyper -> net -> list (list F) -> list (list F) -> scalar.
Variable zero_cost : scalar.
Variable accumulate : scalar -> scalar -> nat -> scalar.
Variable disk : files corpus.

Local Abbreviation state := (notebook F corpus vectorizer rng scalar).
Local Abbreviation all_cells :=
  (all_cells F zero add mul rnd corpus vectorizer fit_transform transform rng
     shuffle srp_fit one_hot_labels net scalar sess_init run_train run_eval
     run_accuracy zero_cost accumulate disk).
Local Abbreviation cells_to_projection :=
  (cells_to_projection F zero add mul rnd corpus vectorizer fit_transform
     transform rng srp_fit one_hot_labels scalar disk).
Local Abbreviation run_cells := (run_cells F corpus vectorizer rng scalar).
Local Abbreviation start := (start F corpus vectorizer rng scalar).
Local Abbreviation lookup_array :=
  (lookup F corpus vectorizer rng scalar (as_array F corpus vectorizer)).
Local Abbreviation lookup_int :=
  (lookup F corpus vectorizer rng scalar (as_int F corpus vectorizer)).
Local Abbreviation rp_components :=
  (rp_components F corpus vectorizer rng scalar).
Local Abbreviation dot := (dot F zero add mul).
Local Abbreviation var := (globals F corpus vectorizer rng scalar).
Local Abbreviation generator := (np_random F corpus vectorizer rng scalar).
Local Abbreviation array := (VArray F corpus vectorizer).
Local Abbreviation int := (VInt F corpus vectorizer).
Local Abbreviation k4 := (cell4 F corpus vectorizer rng scalar disk).
Local Abbreviation k5 := (cell5 F corpus vectorizer fit_transform rng scalar).
Local Abbreviation k7 := (cell7 F rnd corpus vectorizer rng scalar).
Local Abbreviation k8 := (cell8 F rnd corpus vectorizer rng srp_fit scalar).
Local Abbreviation k9 := (cell9 F corpus vectorizer rng scalar).
Local Abbreviation k10 := (cell10 F corpus vectorizer rng scalar).
Local Abbreviation k11 := (cell11 F zero add mul corpus vectorizer rng scalar).
Local Abbreviation k12 := (cell12 F zero corpus vectorizer rng scalar).
Local Abbreviation k13 := (cell13 F corpus vectorizer rng scalar).
Local Abbreviation k14 := (cell14 F corpus vectorizer rng one_hot_labels scalar).
Local Abbreviation k15 := (cell15 F corpus vectorizer rng scalar).
Local Abbreviation k16 := (cell16 F corpus vectorizer transform rng scalar disk).
Local Abbreviation k17 := (cell17 F zero add mul corpus vectorizer rng scalar).
Local Abbreviation k18 := (cell18 F corpus vectorizer rng one_hot_labels scalar).
Local Abbreviation k19 := (cell19 F corpus vectorizer rng scalar).
Local Abbreviation k20 :=
  (cell20 F corpus vectorizer rng shuffle net scalar sess_init run_train
     run_eval run_accuracy zero_cost accumulate).
Local Abbreviation k21 :=
  (cell21 F corpus vectorizer rng shuffle net scalar sess_init run_train
     run_eval run_accuracy zero_cost accumulate).

(** The names a cell assigns; every other name keeps its value. *)
Lemma frame (c : state -> result state) (names : list string)
    (st st' : state) (x : string) :
  In (c, names)
    [(k4, ["articulos"; "labels"]);
     (k5, ["tfidf_vectorizer"; "tfidf"; "p"; "n"]);
     (k7, ["error"; "m"]);
     (k8, ["density"; "rp"]);
     (k9, []); (k10, []);
     (k11, ["M_prime"]); (k12, ["M_prime"]); (k13, []);
     (k14, ["labels_oh"]); (k15, ["M_prime"]);
     (k16, ["articulos_test"; "labels_test"; "tfidf_test"; "p"; "n"]);
     (k17, ["M_prime_test"]); (k18, ["labels_test_oh"]);
     (k19, ["tfidf"; "tfidf_test"]);
     (k20, []); (k21, [])] ->
  c st = Ok st' -> ~ In x names -> var st' x = var st x.
Proof.
  intros Hin E Hx. simpl in Hin.
  repeat (destruct Hin as [[= <- <-]|Hin]); try contradiction;
    unfold cell4, cell5, Notebook.cell7, cell8, cell9, cell10, cell11, cell12,
      cell13, cell14, cell15, cell16, cell17, cell18, cell19, cell20, cell21,
      training_cell, project in E;
    exec E; unfold Notebook.bind_name, assign; cbn [globals];
    repeat match goal with
           | |- context [String.eqb ?y x] =>
               let Heq := fresh "Heq" in
               destruct (String.eqb_spec y x) as [Heq|_];
               [exfalso; apply Hx; rewrite <- Heq; in_list|]
           end;
    reflexivity.
Qed.


Ltac keep x E H :=
  let H' := fresh "H" in
  lazymatch type of E with
  | ?c ?st = Ok ?st' =>
      lazymatch type of H with
      | _ = Some ?v =>
          assert (H' : var st' x = Some v)
            by (rewrite <- H; eapply (frame c _ st st' x);
                [ in_list | exact E
                | let N := fresh "N" in
                  simpl; intros N;
                  repeat (destruct N as [N|N]; [discriminate N|]);
                  exact N ])
      end
  end;
  clear H; rename H' into H.

(** Cells 4, 5 and 7 leave NumPy's generator alone. *)
Lemma first_cells_keep_generator (c : state -> result state) (st st' : state) :
  In c [k4; k5; k7] -> c st = Ok st' -> generator st' = generator st.
Proof.
  intros Hin E. simpl in Hin.
  repeat (destruct Hin as [<-|Hin]); try contradiction;
    unfold cell4, cell5, Notebook.cell7 in E; exec E; reflexivity.
Qed.

Lemma cell5_binds (st st' : state) (c : corpus) :
  var st "articulos" = Some (VCorpus F corpus vectorizer c) ->
  k5 st = Ok st' ->
  exists v X,
    fit_transform c = Ok (v, X) /\
    var st' "tfidf_vectorizer" = Some (VVectorizer F corpus vectorizer v) /\
    var st' "tfidf" = Some (array X) /\
    var st' "p" = Some (int (Z.of_nat (nrows X))) /\
    var st' "n" = Some (int (Z.of_nat (ncols X))).
Proof.
  intros Hc E. unfold cell5, lookup in E. rewrite Hc in E. simpl in E.
  destruct (fit_transform c) as [[v X]|e]; [|discriminate].
  simpl in E. injection E as <-. exists v, X. repeat split.
Qed.

Lemma cell7_binds (st st' : state) (p : Z) :
  var st "p" = Some (int p) -> k7 st = Ok st' ->
  exists m, Dimension.cell7_m rnd p = Ok m /\ var st' "m" = Some (int m).
Proof.
  intros Hp E. unfold Notebook.cell7, lookup in E. simpl in E.
  unfold assign in E. simpl in E. rewrite Hp in E. simpl in E.
  destruct (Dimension.cell7_m rnd p) as [m|e]; [|discriminate].
  simpl in E. injection E as <-. exists m. split; reflexivity.
Qed.

Lemma cell8_fits (st st' : state) (n m : Z) (X : ndarray F) :
  var st "n" = Some (int n) -> var st "m" = Some (int m) ->
  var st "tfidf" = Some (array X) ->
  k8 st = Ok st' ->
  exists A,
    fst (srp_fit m (np_reciprocal rnd (np_sqrt rnd n)) X (generator st)) = Ok A /\
    var st' "rp"
    = Some (VProjection F corpus vectorizer
              {| n_components := m;
                 density := np_reciprocal rnd (np_sqrt rnd n);
                 components_ := Some A |}).
Proof.
  intros Hn Hm HX E. unfold cell8, lookup in E. rewrite Hn in E. simpl in E.
  unfold assign in E. simpl in E. rewrite Hm in E. simpl in E.
  rewrite HX in E. simpl in E.
  destruct (srp_fit m (np_reciprocal rnd (np_sqrt rnd n)) X (generator st))
    as [[A|e] g'] eqn:Efit; [|discriminate].
  simpl in E. injection E as <-. exists A. split; reflexivity.
Qed.

Lemma cell12_binds (st st' : state) :
  k12 st = Ok st' -> exists M, var st' "M_prime" = Some (array M).
Proof. intros E. unfold cell12 in E. exec E. eexists. reflexivity. Qed.

Lemma cell13_passed (st st' : state) (M : ndarray F) :
  var st "M_prime" = Some (array M) -> k13 st = Ok st' -> 3 < nrows M.
Proof.
  intros HM E. unfold cell13, lookup in E. rewrite HM in E. simpl in E.
  unfold Batch.item in E.
  destruct (nth_error (rows M) 3) as [r|] eqn:En; [|discriminate].
  unfold nrows. apply nth_error_Some. congruence.
Qed.

Lemma cell15_rebinds (st st' : state) (M : ndarray F) :
  var st "M_prime" = Some (array M) -> k15 st = Ok st' ->
  var st' "M_prime" = Some (array M).
Proof.
  intros HM E. unfold cell15, lookup in E. rewrite HM in E. simpl in E.
  now injection E as <-.
Qed.

Lemma cell16_binds (st st' : state) (v : vectorizer) :
  var st "tfidf_vectorizer" = Some (VVectorizer F corpus vectorizer v) ->
  k16 st = Ok st' ->
  exists Xt,
    transform v (art_filt_test corpus disk) = Ok Xt /\
    var st' "tfidf_test" = Some (array Xt) /\
    var st' "p" = Some (int (Z.of_nat (nrows Xt))) /\
    var st' "n" = Some (int (Z.of_nat (ncols Xt))).
Proof.
  intros Hv E. unfold cell16, lookup in E. simpl in E.
  unfold assign in E. simpl in E. rewrite Hv in E. simpl in E.
  destruct (transform v (art_filt_test corpus disk)) as [Xt|e]; [|discriminate].
  simpl in E. injection E as <-. exists Xt. repeat split.
Qed.

Lemma cell17_binds (st st' : state) :
  k17 st = Ok st' ->
  exists Mt, var st' "M_prime_test" = Some (array Mt) /\ 3 < nrows Mt.
Proof.
  intros E. unfold cell17 in E. exec E.
  eexists. split; [reflexivity|].
  match goal with
  | H : Batch.item ?l 3 = Ok _ |- _ =>
      change (3 < List.length l); unfold Batch.item in H;
      destruct (nth_error l 3) eqn:En; [|discriminate H];
      apply nth_error_Some; congruence
  end.
Qed.

(** What a run that reaches the projection of the test set has computed,
    and from what. *)
Lemma run_sizes (g : rng) (st : state) :
  run_cells cells_to_projection (start g) = Ok st ->
  exists (v : vectorizer) (X Xt M Mt A : ndarray F) (m : Z),
    fit_transform (art_filt corpus disk) = Ok (v, X) /\
    transform v (art_filt_test corpus disk) = Ok Xt /\
    Dimension.cell7_m rnd (Z.of_nat (nrows X)) = Ok m /\
    fst (srp_fit m (np_reciprocal rnd (np_sqrt rnd (Z.of_nat (ncols X)))) X g)
    = Ok A /\
    (3 < nrows M /\ 3 < nrows Mt) /\
    (var st "tfidf" = Some (array X) /\
     var st "tfidf_test" = Some (array Xt) /\
     var st "M_prime" = Some (array M) /\
     var st "M_prime_test" = Some (array Mt)) /\
    (var st "m" = Some (int m) /\
     var st "p" = Some (int (Z.of_nat (nrows Xt))) /\
     var st "n" = Some (int (Z.of_nat (ncols Xt))) /\
     var st "rp"
     = Some (VProjection F corpus vectorizer
               {| n_components := m;
                  density := np_reciprocal rnd (np_sqrt rnd (Z.of_nat (ncols X)));
                  components_ := Some A |})).
Proof.
  intros H. unfold Notebook.cells_to_projection in H.
  apply NotebookFacts.run_cells_cons in H as [s4 [E4 H]].
  apply NotebookFacts.run_cells_cons in H as [s5 [E5 H]].
  apply NotebookFacts.run_cells_cons in H as [s7 [E7 H]].
  apply NotebookFacts.run_cells_cons in H as [s8 [E8 H]].
  apply NotebookFacts.run_cells_cons in H as [s9 [E9 H]].
  apply NotebookFacts.run_cells_cons in H as [s10 [E10 H]].
  apply NotebookFacts.run_cells_cons in H as [s11 [E11 H]].
  apply NotebookFacts.run_cells_cons in H as [s12 [E12 H]].
  apply NotebookFacts.run_cells_cons in H as [s13 [E13 H]].
  apply NotebookFacts.run_cells_cons in H as [s14 [E14 H]].
  apply NotebookFacts.run_cells_cons in H as [s15 [E15 H]].
  apply NotebookFacts.run_cells_cons in H as [s16 [E16 H]].
  apply NotebookFacts.run_cells_cons in H as [s17 [E17 H]].
  injection H as <-.
  (* the generator when cell 8 runs is the one the kernel started with *)
  assert (Hg : generator s7 = g).
  { rewrite (first_cells_keep_generator k7 s5 s7) by (in_list || exact E7).
    rewrite (first_cells_keep_generator k5 s4 s5) by (in_list || exact E5).
    now rewrite (first_cells_keep_generator k4 (start g) s4)
      by (in_list || exact E4). }
  assert (Hart : var s4 "articulos"
                 = Some (VCorpus F corpus vectorizer (art_filt corpus disk))).
  { unfold cell4 in E4. now injection E4 as <-. }
  (* cells 5 to 8 *)
  destruct (cell5_binds _ _ _ Hart E5) as [v [X [Hfit [Hv [HX [Hp Hn]]]]]].
  destruct (cell7_binds _ _ _ Hp E7) as [m [Hm Gm]].
  keep "tfidf" E7 HX. keep "n" E7 Hn. keep "tfidf_vectorizer" E7 Hv.
  destruct (cell8_fits _ _ _ _ _ Hn Gm HX E8) as [A [Hsrp Hrp]].
  rewrite Hg in Hsrp.
  keep "tfidf" E8 HX. keep "m" E8 Gm. keep "tfidf_vectorizer" E8 Hv.
  keep "tfidf" E9 HX. keep "m" E9 Gm. keep "rp" E9 Hrp. keep "tfidf_vectorizer" E9 Hv.
  keep "tfidf" E10 HX. keep "m" E10 Gm. keep "rp" E10 Hrp. keep "tfidf_vectorizer" E10 Hv.
  keep "tfidf" E11 HX. keep "m" E11 Gm. keep "rp" E11 Hrp. keep "tfidf_vectorizer" E11 Hv.
  (* cells 12 to 15 *)
  destruct (cell12_binds _ _ E12) as [M HM].
  keep "tfidf" E12 HX. keep "m" E12 Gm. keep "rp" E12 Hrp. keep "tfidf_vectorizer" E12 Hv.
  pose proof (cell13_passed _ _ _ HM E13) as Hrows.
  keep "tfidf" E13 HX. keep "m" E13 Gm. keep "rp" E13 Hrp. keep "tfidf_vectorizer" E13 Hv.
  keep "M_prime" E13 HM.
  keep "tfidf" E14 HX. keep "m" E14 Gm. keep "rp" E14 Hrp. keep "tfidf_vectorizer" E14 Hv.
  keep "M_prime" E14 HM.
  apply (cell15_rebinds _ _ _ HM) in E15 as HM'.
  keep "tfidf" E15 HX. keep "m" E15 Gm. keep "rp" E15 Hrp. keep "tfidf_vectorizer" E15 Hv.
  clear HM.
  (* cells 16 and 17 *)
  destruct (cell16_binds _ _ _ Hv E16) as [Xt [Htr [HXt [Hp' Hn']]]].
  keep "tfidf" E16 HX. keep "m" E16 Gm. keep "rp" E16 Hrp. keep "M_prime" E16 HM'.
  destruct (cell17_binds _ _ E17) as [Mt [HMt Hrows']].
  keep "tfidf" E17 HX. keep "m" E17 Gm. keep "rp" E17 Hrp. keep "M_prime" E17 HM'.
  keep "tfidf_test" E17 HXt. keep "p" E17 Hp'. keep "n" E17 Hn'.
  exists v, X, Xt, M, Mt, A, m. repeat split; assumption.
Qed.

Lemma dot_returned (A B D : ndarray F) :
  dot A B = Ok D -> ncols A = nrows B /\ ncols D = ncols B.
Proof.
  unfold Matrix.dot. destruct (Nat.eqb_spec (ncols A) (nrows B)) as [E|_];
    [|discriminate].
  intros [= <-]. now split.
Qed.

Lemma nrows_transpose (A : ndarray F) : nrows (transpose zero A) = ncols A.
Proof. unfold nrows, transpose. simpl. now rewrite length_map, length_seq. Qed.

Lemma lookup_var {T : Type} (pick : value F corpus vectorizer -> option T)
    (x : string) (st : state) (v : value F corpus vectorizer) (a : T) :
  var st x = Some v -> pick v = Some a ->
  lookup F corpus vectorizer rng scalar pick x st = Ok a.
Proof. intros Hv Hp. unfold lookup. now rewrite Hv, Hp. Qed.

Lemma lookup_array_var (x : string) (st : state) (a b : ndarray F) :
  var st x = Some (array a) -> lookup_array x st = Ok b -> a = b.
Proof. intros Hv Hl. unfold lookup in Hl. rewrite Hv in Hl. simpl in Hl. congruence. Qed.

(** X18.  Among the names that hold the notebook's data, a cell assigns
    only those on its left-hand sides: every other one is bound after the
    cell to what it was bound before.  The training cells assign none of
    them. *)
Theorem cells_bind_only_their_names (c : state -> result state)
    (names : list string) (st st' : state) (x : string) :
  In (c, names)
    [(k4, ["articulos"; "labels"]);
     (k5, ["tfidf_vectorizer"; "tfidf"; "p"; "n"]);
     (k7, ["error"; "m"]);
     (k8, ["density"; "rp"]);
     (k9, []); (k10, []);
     (k11, ["M_prime"]); (k12, ["M_prime"]); (k13, []);
     (k14, ["labels_oh"]); (k15, ["M_prime"]);
     (k16, ["articulos_test"; "labels_test"; "tfidf_test"; "p"; "n"]);
     (k17, ["M_prime_test"]); (k18, ["labels_test_oh"]);
     (k19, ["tfidf"; "tfidf_test"]);
     (k20, []); (k21, [])] ->
  In x ["articulos"; "labels"; "tfidf_vectorizer"; "tfidf"; "p"; "n";
        "error"; "m"; "density"; "rp"; "M_prime"; "labels_oh";
        "articulos_test"; "labels_test"; "tfidf_test"; "M_prime_test";
        "labels_test_oh"] ->
  c st = Ok st' -> ~ In x names -> var st' x = var st x.
Proof. intros Hin _. now apply frame. Qed.

(** X19.  On a kernel that has run the imports and nothing else, every
    cell but the one that loads the training files raises [NameError]: each
    of them reads a name an earlier cell binds. *)
Theorem cells_need_the_cells_before (g : rng) (c : state -> result state) :
  In c (tl all_cells) -> c (start g) = Raise NameError.
Proof.
  intros Hin. unfold Notebook.all_cells in Hin. simpl in Hin.
  repeat (destruct Hin as [<-|Hin]); try contradiction; reflexivity.
Qed.

(** X20.  Cell 13 reads the fourth row of [M_prime]: it raises
    [IndexError] when the array has three rows or fewer, and otherwise
    returns without assigning anything. *)
Theorem cell13_checks_the_fourth_row (st : state) (M : ndarray F) :
  lookup_array "M_prime" st = Ok M ->
  (nrows M <= 3 -> k13 st = Raise IndexError) /\
  (3 < nrows M -> k13 st = Ok st).
Proof.
  intros HM. unfold cell13. rewrite HM. simpl. unfold Batch.item, nrows.
  destruct (nth_error (rows M) 3) as [r|] eqn:En.
  - assert (3 < List.length (rows M)) by (apply nth_error_Some; congruence).
    split; [lia | reflexivity].
  - apply nth_error_None in En. split; [reflexivity | lia].
Qed.

(** X21.  In a run that reaches the projection of the test set (cells 4
    to 17), the projection was fitted on the training matrix with [m]
    computed from the number of training documents and the density computed
    from the number of training terms; [m] and [rp] are still bound to
    those, while [p] and [n] have been rebound by cell 16 to the shape of
    the test matrix. *)
Theorem sizes_after_the_projection (g : rng) (st : state) :
  run_cells cells_to_projection (start g) = Ok st ->
  exists (v : vectorizer) (X Xt A : ndarray F) (m : Z),
    fit_transform (art_filt corpus disk) = Ok (v, X) /\
    transform v (art_filt_test corpus disk) = Ok Xt /\
    Dimension.cell7_m rnd (Z.of_nat (nrows X)) = Ok m /\
    fst (srp_fit m (np_reciprocal rnd (np_sqrt rnd (Z.of_nat (ncols X)))) X g)
    = Ok A /\
    rp_components st = Ok A /\
    lookup_int "m" st = Ok m /\
    lookup_int "p" st = Ok (Z.of_nat (nrows Xt)) /\
    lookup_int "n" st = Ok (Z.of_nat (ncols Xt)).
Proof.
  intros H.
  destruct (run_sizes g st H)
    as (v & X & Xt & M & Mt & A & m & Hfit & Htr & Hm & Hsrp & _ & _
        & Gm & Gp & Gn & Grp).
  exists v, X, Xt, A, m. repeat split; try assumption.
  - unfold Notebook.rp_components, lookup. now rewrite Grp.
  - now apply (lookup_var _ _ _ _ _ Gm).
  - now apply (lookup_var _ _ _ _ _ Gp).
  - now apply (lookup_var _ _ _ _ _ Gn).
Qed.

(** X22.  A run reaches the projection of the test set (cells 4 to 17)
    only if the vectorizer returned at least four training documents and
    at least four test documents: cells 13 and 17 read the fourth row of
    each reduced matrix. *)
Theorem projection_needs_four_documents (g : rng) (st : state) :
  run_cells cells_to_projection (start g) = Ok st ->
  exists (v : vectorizer) (X Xt : ndarray F),
    fit_transform (art_filt corpus disk) = Ok (v, X) /\
    transform v (art_filt_test corpus disk) = Ok Xt /\
    3 < nrows X /\ 3 < nrows Xt.
Proof.
  intros H.
  destruct (run_sizes g st H)
    as (v & X & Xt & M & Mt & A & m & Hfit & Htr & _ & _ & (Hr & Hrt)
        & (GX & GXt & GM & GMt) & _).
  destruct (NotebookFacts.projection_outcome F zero add mul rnd corpus
              vectorizer fit_transform transform rng shuffle srp_fit
              one_hot_labels net scalar sess_init run_train run_eval
              run_accuracy zero_cost accumulate disk g st H)
    as (A' & X' & Xt' & Mp & Mpt & m' & d' & LX & LXt & _ & _ & _ & Hdot
        & LM & Hdot' & LMt).
  apply (lookup_array_var _ _ _ _ GX) in LX. subst X'.
  apply (lookup_array_var _ _ _ _ GXt) in LXt. subst Xt'.
  apply (lookup_array_var _ _ _ _ GM) in LM. subst M.
  apply (lookup_array_var _ _ _ _ GMt) in LMt. subst Mt.
  apply dot_returned in Hdot as [_ Hc]. apply dot_returned in Hdot' as [_ Hc'].
  exists v, X, Xt. repeat split; try assumption.
  - rewrite nrows_transpose, Hc in Hr. exact Hr.
  - rewrite nrows_transpose, Hc' in Hrt. exact Hrt.
Qed.

Local Abbreviation project_row := (Project.project_row F zero add mul).

(** X23.  When a run has reached the projection of the test set (cells 4
    to 17), the rows of [M_prime] and of [M_prime_test] are the documents
    of the two TF-IDF matrices, each one projected on its own by the one
    matrix [rp.components_], provided the vectorizer returned arrays whose
    rows have the announced width. *)
Theorem run_projects_each_document (g : rng) (st : state) :
  run_cells cells_to_projection (start g) = Ok st ->
  exists (A X Xt : ndarray F),
    rp_components st = Ok A /\
    lookup_array "tfidf" st = Ok X /\
    lookup_array "tfidf_test" st = Ok Xt /\
    (well_shaped X ->
     lookup_array "M_prime" st
     = Ok {| ncols := nrows A; rows := map (project_row A) (rows X) |}) /\
    (well_shaped Xt ->
     lookup_array "M_prime_test" st
     = Ok {| ncols := nrows A; rows := map (project_row A) (rows Xt) |}).
Proof.
  intros H.
  destruct (NotebookFacts.projection_outcome F zero add mul rnd corpus
              vectorizer fit_transform transform rng shuffle srp_fit
              one_hot_labels net scalar sess_init run_train run_eval
              run_accuracy zero_cost accumulate disk g st H)
    as (A & X & Xt & Mp & Mpt & m & d & LX & LXt & _ & _ & HA & Hdot
        & LM & Hdot' & LMt).
  exists A, X, Xt. repeat split; try assumption.
  - intros Hwf. rewrite LM.
    destruct (dot_returned _ _ _ Hdot) as [Hin _].
    rewrite nrows_transpose in Hin.
    destruct (ShapeFacts.product_rows F zero add mul A X Hwf Hin)
      as [D [HD <-]].
    congruence.
  - intros Hwf. rewrite LMt.
    destruct (dot_returned _ _ _ Hdot') as [Hin _].
    rewrite nrows_transpose in Hin.
    destruct (ShapeFacts.product_rows F zero add mul A Xt Hwf Hin)
      as [D [HD <-]].
    congruence.
Qed.

End Run.

Lemma cells_bind_only_their_names_witness :
  exists st',
    cell4 Z Toy.corpus unit nat nat Toy.disk Toy.fresh = Ok st' /\
    ~ In "m" ["articulos"; "labels"] /\
    globals Z Toy.corpus unit nat nat st' "m"
    = globals Z Toy.corpus unit nat nat Toy.fresh "m".
Proof.
  eexists. split; [reflexivity|].
  assert (N : ~ In "m" ["articulos"; "labels"])
    by (simpl; intros [N|[N|[]]]; discriminate N).
  split; [exact N|].
  eapply (cells_bind_only_their_names Z 0%Z Z.add Z.mul Dimension.exact
            Toy.corpus unit Toy.fit_transform Toy.transform nat Batch.reversing
            Toy.srp_fit Toy.one_hot_labels nat nat Toy.sess_init Toy.run_train
            Toy.run_eval Toy.run_accuracy 0 Toy.accumulate Toy.disk
            (cell4 Z Toy.corpus unit nat nat Toy.disk)
            ["articulos"; "labels"] Toy.fresh _ "m");
    [left; reflexivity | in_list | reflexivity | exact N].
Defined.

Lemma cells_need_the_cells_before_witness :
  In (Notebook.cell7 Z Dimension.exact Toy.corpus unit nat nat) (tl Toy.cells) /\
  Notebook.cell7 Z Dimension.exact Toy.corpus unit nat nat Toy.fresh
  = Raise NameError.
Proof.
  assert (Hin : In (Notebook.cell7 Z Dimension.exact Toy.corpus unit nat nat)
                  (tl Toy.cells)) by (right; left; reflexivity).
  split; [exact Hin|].
  exact (cells_need_the_cells_before Z 0%Z Z.add Z.mul Dimension.exact
           Toy.corpus unit Toy.fit_transform Toy.transform nat Batch.reversing
           Toy.srp_fit Toy.one_hot_labels nat nat Toy.sess_init Toy.run_train
           Toy.run_eval Toy.run_accuracy 0 Toy.accumulate Toy.disk 0 _ Hin).
Defined.

Lemma cell13_checks_the_fourth_row_witness :
  cell13 Z Toy.corpus unit nat nat
    (Notebook.bind_name Z Toy.corpus unit nat nat "M_prime"
       (VArray Z Toy.corpus unit
          {| ncols := 1; rows := [[1]; [2]; [3]; [4]]%Z |}) Toy.fresh)
  = Ok (Notebook.bind_name Z Toy.corpus unit nat nat "M_prime"
          (VArray Z Toy.corpus unit
             {| ncols := 1; rows := [[1]; [2]; [3]; [4]]%Z |}) Toy.fresh).
Proof.
  apply (proj2 (cell13_checks_the_fourth_row Z Toy.corpus unit nat nat
                  (Notebook.bind_name Z Toy.corpus unit nat nat "M_prime"
                     (VArray Z Toy.corpus unit
                        {| ncols := 1; rows := [[1]; [2]; [3]; [4]]%Z |})
                     Toy.fresh)
                  {| ncols := 1; rows := [[1]; [2]; [3]; [4]]%Z |} eq_refl)).
  unfold nrows. simpl. lia.
Defined.

Lemma sizes_after_the_projection_witness :
  exists st,
    Notebook.run_cells Z Toy.corpus unit nat nat Toy.cells_to_projection
      Toy.fresh
    = Ok st /\
    exists Xt : ndarray Z,
      Toy.transform tt (art_filt_test Toy.corpus Toy.disk) = Ok Xt /\
      lookup Z Toy.corpus unit nat nat (as_int Z Toy.corpus unit) "p" st
      = Ok (Z.of_nat (nrows Xt)).
Proof.
  destruct NotebookFacts.toy_projection_returns as [st Hrun].
  exists st. split; [exact Hrun|].
  destruct (sizes_after_the_projection Z 0%Z Z.add Z.mul Dimension.exact
              Toy.corpus unit Toy.fit_transform Toy.transform nat
              Batch.reversing Toy.srp_fit Toy.one_hot_labels nat nat
              Toy.sess_init Toy.run_train Toy.run_eval Toy.run_accuracy 0
              Toy.accumulate Toy.disk 0 st Hrun)
    as (v & X & Xt & A & m & _ & Htr & _ & _ & _ & _ & Hp & _).
  exists Xt. destruct v. now split.
Defined.

Lemma projection_needs_four_documents_witness :
  exists st,
    Notebook.run_cells Z Toy.corpus unit nat nat Toy.cells_to_projection
      Toy.fresh
    = Ok st /\
    exists (v : unit) (X Xt : ndarray Z),
      Toy.fit_transform (art_filt Toy.corpus Toy.disk) = Ok (v, X) /\
      Toy.transform v (art_filt_test Toy.corpus Toy.disk) = Ok Xt /\
      3 < nrows X /\ 3 < nrows Xt.
Proof.
  destruct NotebookFacts.toy_projection_returns as [st Hrun].
  exists st. split; [exact Hrun|].
  exact (projection_needs_four_documents Z 0%Z Z.add Z.mul Dimension.exact
           Toy.corpus unit Toy.fit_transform Toy.transform nat
           Batch.reversing Toy.srp_fit Toy.one_hot_labels nat nat
           Toy.sess_init Toy.run_train Toy.run_eval Toy.run_accuracy 0
           Toy.accumulate Toy.disk 0 st Hrun).
Defined.

Lemma run_projects_each_document_witness :
  exists st,
    Notebook.run_cells Z Toy.corpus unit nat nat Toy.cells_to_projection
      Toy.fresh
    = Ok st /\
    exists A : ndarray Z,
      Notebook.rp_components Z Toy.corpus unit nat nat st = Ok A.
Proof.
  destruct NotebookFacts.toy_projection_returns as [st Hrun].
  exists st. split; [exact Hrun|].
  destruct (run_projects_each_document Z 0%Z Z.add Z.mul Dimension.exact
              Toy.corpus unit Toy.fit_transform Toy.transform nat
              Batch.reversing Toy.srp_fit Toy.one_hot_labels nat nat
              Toy.sess_init Toy.run_train Toy.run_eval Toy.run_accuracy 0
              Toy.accumulate Toy.disk 0 st Hrun)
    as (A & X & Xt & HA & _).
  now exists A.
Defined.

End NotebookMore.
